(** * Failover event handling (event_linux.py): a shallow embedding

    The plugin [failover.events] of the middleware drives the role changes of
    a two-node storage cluster.  Its methods are sequences of collaborator
    calls made through [run_call], interleaved with decisions, exceptions and
    a few file operations.  The embedding below follows the Python text
    method by method, in a state-and-exception monad whose state records
    what the code can change: the process-wide flag, the collaborator calls
    made so far, the job's progress and result, the files it touches, the
    clock and the pending alarm; and what it cannot: whether it runs on the
    main thread, and which file operations the operating system refuses. *)

From Stdlib Require Import String Ascii List Bool Arith ZArith Lia.
Import ListNotations.
Open Scope string_scope.
Set Warnings "-register-all".

(** ** Exceptions *)

(** The two exception classes of the module and the built-in ones the code
    can raise.  All of them derive from Python's [Exception]. *)
Inductive Exn : Type :=
| IgnoreFailoverEvent
| ZpoolExportTimeout
| TypeError
| AttributeError
| KeyError
| IndexError
| UnboundLocalError
| UnsupportedOperation
| FileNotFoundError
| OSError
| ValueError
| CallError.

Definition is_ignore (e : Exn) : bool :=
  match e with IgnoreFailoverEvent => true | _ => false end.

(** ** Data *)

Record Call : Type := mkCall { method : string; args : list string }.

Record Volume : Type := mkVolume { name : string; guid : string; status : string }.

(** A row of [services_services]; the key [service] read at one place of
    [vrrp_master] may be absent from the row. *)
Record ServiceRow : Type := mkServiceRow {
  srv_service : string;
  srv_enable : bool;
  service : option string
}.

Record Interface : Type := mkInterface {
  id : string;
  failover_critical : bool;
  failover_group : nat
}.

Record FailoverCfg : Type := mkFailoverCfg {
  cfg_disabled : bool;
  cfg_master : bool;
  cfg_timeout : nat
}.

Record JobInfo : Type := mkJobInfo { job_method : string; job_state : string }.

Record UnlockJob : Type := mkUnlockJob {
  unlock_error : option string;
  unlock_failed : list string
}.

Record KmipConfig : Type := mkKmipConfig { kmip_enabled : bool }.

Definition Groups : Type := list (nat * list string).

(** The dictionary built by [generate_failover_data].  A field is [None]
    when the [run_call] that produced it returned [None]. *)
Record FailoverData : Type := mkFailoverData {
  fo_services : option (list ServiceRow);
  fo_disabled : bool;
  fo_master : bool;
  fo_timeout : nat;
  fo_groups : Groups;
  fo_volumes : option (list Volume);
  fo_non_crit_interfaces : list string;
  fo_internal_interfaces : option (list string)
}.

(** The values that occur in the job filter built by [validate]. *)
Inductive PyVal : Type :=
| PStr (s : string)
| PTuple (l : list PyVal)
| PList (l : list PyVal).

(** What [f.write] is given. *)
Inductive PyData : Type :=
| DStr (s : string)
| DInt (n : nat).

Inductive FileMode : Type := ModeR | ModeW.

(** ** Class attributes *)

Definition critical_services : list string := ["iscsitarget"; "cifs"; "nfs"; "afp"].
Definition ha_propagate : string := "ha_propagate=False".
Definition zpool_killcache : string := "/data/zfs/killcache".
Definition zpool_cache_file : string := "/data/zfs/zpool.cache".
Definition zpool_cache_file_saved : string := zpool_cache_file ++ ".saved".
Definition watchdog_alert_file : string := "/data/sentinels/.watchdog-alert".
Definition zpool_export_timeout : nat := 4.
Definition sysrq_enable_path : string := "/proc/sys/kernel/sysrq".
Definition sysrq_trigger_path : string := "/proc/sysrq-trigger".

(** ** State *)

(** An operation on a file that the operating system may refuse: a
    directory that is missing or read-only, a full disk, a file in use. *)
Inductive FsOp : Type :=
| OpOpenW (p : string)
| OpUnlink (p : string)
| OpCopy (src dst : string).

Record State : Type := mkState {
  failover_successful : bool;              (* the class attribute *)
  calls : list Call;                       (* middleware.call_sync, oldest first *)
  job_progress : option string;            (* job.set_progress *)
  job_result : option string;              (* job.set_result *)
  fs : list (string * nat);                (* files that exist, with mtime *)
  kernel_writes : list (string * string);  (* data accepted by /proc files *)
  published : list (string * string);      (* middleware.send_event *)
  clock : nat;                             (* seconds *)
  alarm : option nat;                      (* deadline of signal.alarm *)
  ignored : nat;                           (* ghost: IgnoreFailoverEvent raised *)
  main_thread : bool;                      (* the code runs on the main thread *)
  refused : FsOp -> bool                   (* what the operating system refuses *)
}.

(** [failover_successful = False] in the class body.  The process starts
    on its main thread, with an operating system that refuses nothing. *)
Definition initial_state : State :=
  mkState false [] None None [] [] [] 0 None 0 true (fun _ => false).

Definition set_failover_successful (v : bool) (s : State) : State :=
  mkState v (calls s) (job_progress s) (job_result s) (fs s)
          (kernel_writes s) (published s) (clock s) (alarm s) (ignored s)
          (main_thread s) (refused s).
Definition set_calls (v : list Call) (s : State) : State :=
  mkState (failover_successful s) v (job_progress s) (job_result s) (fs s)
          (kernel_writes s) (published s) (clock s) (alarm s) (ignored s)
          (main_thread s) (refused s).
Definition set_job_progress (v : option string) (s : State) : State :=
  mkState (failover_successful s) (calls s) v (job_result s) (fs s)
          (kernel_writes s) (published s) (clock s) (alarm s) (ignored s)
          (main_thread s) (refused s).
Definition set_job_result (v : option string) (s : State) : State :=
  mkState (failover_successful s) (calls s) (job_progress s) v (fs s)
          (kernel_writes s) (published s) (clock s) (alarm s) (ignored s)
          (main_thread s) (refused s).
Definition set_fs (v : list (string * nat)) (s : State) : State :=
  mkState (failover_successful s) (calls s) (job_progress s) (job_result s) v
          (kernel_writes s) (published s) (clock s) (alarm s) (ignored s)
          (main_thread s) (refused s).
Definition set_kernel_writes (v : list (string * string)) (s : State) : State :=
  mkState (failover_successful s) (calls s) (job_progress s) (job_result s) (fs s)
          v (published s) (clock s) (alarm s) (ignored s)
          (main_thread s) (refused s).
Definition set_published (v : list (string * string)) (s : State) : State :=
  mkState (failover_successful s) (calls s) (job_progress s) (job_result s) (fs s)
          (kernel_writes s) v (clock s) (alarm s) (ignored s)
          (main_thread s) (refused s).
Definition set_clock (v : nat) (s : State) : State :=
  mkState (failover_successful s) (calls s) (job_progress s) (job_result s) (fs s)
          (kernel_writes s) (published s) v (alarm s) (ignored s)
          (main_thread s) (refused s).
Definition set_alarm (v : option nat) (s : State) : State :=
  mkState (failover_successful s) (calls s) (job_progress s) (job_result s) (fs s)
          (kernel_writes s) (published s) (clock s) v (ignored s)
          (main_thread s) (refused s).
Definition set_ignored (v : nat) (s : State) : State :=
  mkState (failover_successful s) (calls s) (job_progress s) (job_result s) (fs s)
          (kernel_writes s) (published s) (clock s) (alarm s) v
          (main_thread s) (refused s).

(** ** The monad *)

Inductive Outcome (A : Type) : Type :=
| Ret (a : A)
| Raise (e : Exn).
Arguments Ret {A} a.
Arguments Raise {A} e.

Definition M (A : Type) : Type := State -> Outcome A * State.

Definition ret {A} (a : A) : M A := fun s => (Ret a, s).

Definition bind {A B} (m : M A) (f : A -> M B) : M B :=
  fun s => match m s with
           | (Ret a, s') => f a s'
           | (Raise e, s') => (Raise e, s')
           end.

Declare Scope failover_scope.
Delimit Scope failover_scope with fo.
Notation "x <- c1 ;; c2" := (bind c1 (fun x => c2))
  (at level 100, c1 at next level, right associativity) : failover_scope.
Notation "c1 ;; c2" := (bind c1 (fun _ => c2))
  (at level 100, right associativity) : failover_scope.
Open Scope failover_scope.

(** [raise e]; the ghost counter [ignored] counts every
    [raise IgnoreFailoverEvent], caught later or not. *)
Definition raise {A} (e : Exn) : M A :=
  fun s => (Raise e, if is_ignore e then set_ignored (S (ignored s)) s else s).

(** [try: m  except Exception as e: h e] *)
Definition try_except {A} (m : M A) (h : Exn -> M A) : M A :=
  fun s => match m s with
           | (Ret a, s') => (Ret a, s')
           | (Raise e, s') => h e s'
           end.

(** [with contextlib.suppress(Exception): m] *)
Definition suppress (m : M unit) : M unit :=
  try_except m (fun _ => ret tt).

(** [for x in l: body x] *)
Fixpoint for_each {A} (l : list A) (body : A -> M unit) : M unit :=
  match l with
  | [] => ret tt
  | x :: l' => body x ;; for_each l' body
  end.

Definition when (b : bool) (m : M unit) : M unit := if b then m else ret tt.

Definition get {A} (f : State -> A) : M A := fun s => (Ret (f s), s).
Definition modify (f : State -> State) : M unit := fun s => (Ret tt, f s).

(** Iterating over, subscripting, or reading an attribute of [None]. *)
Definition iter_of {A} (o : option (list A)) : M (list A) :=
  match o with Some l => ret l | None => raise TypeError end.
Definition subscript_of {A} (o : option A) : M A :=
  match o with Some a => ret a | None => raise TypeError end.
Definition attr_of {A} (o : option A) : M A :=
  match o with Some a => ret a | None => raise AttributeError end.
(** Reading a local variable that may not have been assigned. *)
Definition local_of {A} (o : option A) : M A :=
  match o with Some a => ret a | None => raise UnboundLocalError end.

(** [try: m  except E: h] for the exceptions [E] selected by [p]. *)
Definition try_except_only {A} (p : Exn -> bool) (m : M A) (h : M A) : M A :=
  fun s => match m s with
           | (Ret a, s') => (Ret a, s')
           | (Raise e, s') => if p e then h s' else (Raise e, s')
           end.

Definition is_timeout (e : Exn) : bool :=
  match e with ZpoolExportTimeout => true | _ => false end.

Definition is_nil {A} (l : list A) : bool :=
  match l with [] => true | _ => false end.

(** Truth value of an optional boolean and of a fencing exit code. *)
Definition truthy (o : option bool) : bool :=
  match o with Some b => b | None => false end.
Definition truthy_code (o : option Z) : bool :=
  match o with Some z => negb (Z.eqb z 0) | None => false end.

(** ** Strings *)

(** [a in b] for two strings: [a] occurs in [b]. *)
Definition str_in (a b : string) : bool :=
  match index 0 a b with Some _ => true | None => false end.

Definition str_mem (a : string) (l : list string) : bool :=
  existsb (String.eqb a) l.

(** ** Time, the alarm and its handler *)

Definition _zpool_export_sig_alarm : M unit := raise ZpoolExportTimeout.

(** An operation that blocks for [d] seconds.  When the alarm set by
    [signal.alarm] expires before the operation is over, the handler runs:
    inside the operation when the code is on the main thread, and on the
    main thread, away from this code, otherwise.  The alarm is one-shot.
    Statements that do not block take no time. *)
Definition blocking (d : nat) : M unit :=
  fun s => match alarm s with
           | Some t =>
               if Nat.leb t (clock s + d)
               then (if main_thread s
                     then _zpool_export_sig_alarm
                            (set_alarm None (set_clock (Nat.max (clock s) t) s))
                     else (Ret tt, set_alarm None (set_clock (clock s + d) s)))
               else (Ret tt, set_clock (clock s + d) s)
           | None => (Ret tt, set_clock (clock s + d) s)
           end.

(** [signal.signal(signal.SIGALRM, handler)]: only the main thread may set
    a handler. *)
Definition signal_signal : M unit :=
  main <- get main_thread ;;
  if main then ret tt else raise ValueError.

Definition signal_alarm (d : nat) : M unit :=
  modify (fun s => set_alarm (Some (clock s + d)) s).

Definition time_sleep (d : nat) : M unit := blocking d.

(** ** Job progress and result *)

Definition job_set_progress (d : string) : M unit :=
  modify (set_job_progress (Some d)).
Definition job_set_result (r : string) : M unit :=
  modify (set_job_result (Some r)).

(** ** Files *)

Fixpoint fs_lookup (p : string) (l : list (string * nat)) : option nat :=
  match l with
  | [] => None
  | (q, t) :: l' => if String.eqb p q then Some t else fs_lookup p l'
  end.

Fixpoint fs_remove (p : string) (l : list (string * nat)) : list (string * nat) :=
  match l with
  | [] => []
  | (q, t) :: l' => if String.eqb p q then fs_remove p l' else (q, t) :: fs_remove p l'
  end.

Definition fs_put (p : string) (t : nat) (l : list (string * nat)) : list (string * nat) :=
  (p, t) :: fs_remove p l.

Definition fs_exists (p : string) (s : State) : bool :=
  match fs_lookup p (fs s) with Some _ => true | None => false end.

Definition os_path_exists (p : string) : M bool := get (fs_exists p).

(** Does the operating system refuse the operation? *)
Definition refuses (op : FsOp) : M bool := get (fun s => refused s op).

Definition os_unlink (p : string) : M unit :=
  there <- os_path_exists p ;;
  if there then
    no <- refuses (OpUnlink p) ;;
    if no then raise OSError
    else modify (fun s => set_fs (fs_remove p (fs s)) s)
  else raise FileNotFoundError.

Definition os_stat_mtime (p : string) : M nat :=
  fun s => match fs_lookup p (fs s) with
           | Some t => (Ret t, s)
           | None => raise FileNotFoundError s
           end.

(** [shutil.copy2 src dst]: the copy keeps the modification time. *)
Definition shutil_copy2 (src dst : string) : M unit :=
  t <- os_stat_mtime src ;;
  no <- refuses (OpCopy src dst) ;;
  if no then raise OSError
  else modify (fun s => set_fs (fs_put dst t (fs s)) s).

(** [open(p, 'w')] on an ordinary file creates or truncates it. *)
Definition open_w (p : string) : M unit :=
  no <- refuses (OpOpenW p) ;;
  if no then raise OSError
  else modify (fun s => set_fs (fs_put p (clock s) (fs s)) s).

(** [f.write(d)] on a handle of the two kernel control files.  A handle
    opened without a mode is read-only and refuses the write. *)
Definition kernel_write (m : FileMode) (p : string) (d : string) : M unit :=
  match m with
  | ModeR => raise UnsupportedOperation
  | ModeW => modify (fun s => set_kernel_writes (kernel_writes s ++ [(p, d)]) s)
  end.

(** [f.write(d)] on a text file opened for writing: only [str] is accepted;
    the content itself is not tracked. *)
Definition text_write (d : PyData) : M unit :=
  match d with
  | DStr _ => ret tt
  | DInt _ => raise TypeError
  end.

(** [int(time.time())] *)
Definition time_time : M nat := get clock.

(** ** The middleware *)

(** The collaborators behind [middleware.call_sync], as far as the code
    looks at their answers.  [None] stands for a call that raises.
    [mw_pools] answers [pool.query] for all pools, [mw_pool_get] the query
    for the one pool of a name, made later and answered on its own. *)
Record Middleware : Type := mkMiddleware {
  mw_pools : option (list Volume);
  mw_pool_get : string -> option Volume;
  mw_services : option (list ServiceRow);
  mw_failover_config : option FailoverCfg;
  mw_interfaces : option (list Interface);
  mw_internal_interfaces : option (list string);
  mw_remote_connected : option bool;
  mw_remote_status : option string;
  mw_jobs : option (list JobInfo);
  mw_check_failover_group : string -> Groups -> option (list string * list string);
  mw_fenced_start : bool -> option Z;
  mw_import_pool : string -> bool;
  mw_unlock : string -> option UnlockJob;
  mw_kmip_config : option KmipConfig;
  mw_succeeds : string -> list string -> bool;
  mw_duration : string -> list string -> nat
}.

(** Applying a value: none of the values of [PyVal] is callable. *)
Definition py_call (callee : PyVal) (actuals : list PyVal) : M PyVal :=
  match callee with
  | PStr _ => raise TypeError
  | PTuple _ => raise TypeError
  | PList _ => raise TypeError
  end.

Fixpoint render (v : PyVal) : string :=
  match v with
  | PStr s => s
  | PTuple l => "(" ++ String.concat "," (map render l) ++ ")"
  | PList l => "[" ++ String.concat "," (map render l) ++ "]"
  end.

Section Service.

Variable mw : Middleware.

(** [self.middleware.call_sync(method, *args)] answering [answer]. *)
Definition call_sync {A} (m : string) (a : list string) (answer : option A) : M A :=
  modify (fun s => set_calls (calls s ++ [mkCall m a]) s) ;;
  blocking (mw_duration mw m a) ;;
  match answer with
  | Some v => ret v
  | None => raise CallError
  end.

(** [run_call]: any exception of the call is logged and [None] returned. *)
Definition run_call {A} (m : string) (a : list string) (answer : option A)
  : M (option A) :=
  try_except (v <- call_sync m a answer ;; ret (Some v)) (fun _ => ret None).

(** [run_call] of a method whose value the code does not use. *)
Definition run_call_ (m : string) (a : list string) : M unit :=
  run_call m a (if mw_succeeds mw m a then Some tt else None) ;; ret tt.

(** [run_call] of a method of this service, whose body runs in place. *)
Definition run_call_method {A} (m : string) (a : list string) (body : M A)
  : M (option A) :=
  try_except
    (modify (fun s => set_calls (calls s ++ [mkCall m a]) s) ;;
     v <- body ;; ret (Some v))
    (fun _ => ret None).

(** *** validate *)

Definition running (j : JobInfo) : bool := String.eqb (job_state j) "RUNNING".

(** The body of the loop over the running jobs. *)
Definition validate_job (event : string) (i : JobInfo) : M unit :=
  when (String.eqb (job_method i) "failover.events.vrrp_master")
       (when (str_mem event ["MASTER"; "forcetakeover"])
             (raise IgnoreFailoverEvent)) ;;
  when (String.eqb (job_method i) "failover.events.vrrp_backup")
       (when (String.eqb event "BACKUP")
             (raise IgnoreFailoverEvent)).

(** In the argument of [core.get_jobs] the two filter tuples follow each
    other without a comma, which applies the first to the elements of the
    second. *)
Definition validate (ifname event : string) : M unit :=
  clause <- py_call
              (PTuple [PStr "method"; PStr "="; PStr "failover.events.vrrp_master"])
              [PStr "method"; PStr "="; PStr "failover.events.vrrp_backup"] ;;
  current_events <- run_call "core.get_jobs"
                      [render (PList [PTuple [PStr "OR"; PList [clause]]])]
                      (mw_jobs mw) ;;
  current_events <- iter_of current_events ;;
  for_each (filter running current_events) (validate_job event).

(** *** generate_failover_data *)

(** Modelled from the spec: [filter_list] of [middlewared.utils] is not in
    the source at hand; it keeps the rows that satisfy the filter and, like
    any loop, cannot go over [None]. *)
Definition filter_list (l : option (list Interface)) (keep : Interface -> bool)
  : M (list Interface) :=
  l <- iter_of l ;; ret (filter keep l).

(** [data['groups'][g].append(i)] on a [defaultdict(list)]. *)
Fixpoint groups_append (g : nat) (i : string) (groups : Groups) : Groups :=
  match groups with
  | [] => [(g, [i])]
  | (h, l) :: rest =>
      if Nat.eqb g h then (h, (l ++ [i])%list) :: rest
      else (h, l) :: groups_append g i rest
  end.

Definition generate_failover_data : M FailoverData :=
  volumes <- run_call "pool.query" ["[]"; "select=name,guid,status"] (mw_pools mw) ;;
  services <- run_call "datastore.query" ["services_services"] (mw_services mw) ;;
  failovercfg <- run_call "failover.config" [] (mw_failover_config mw) ;;
  interfaces <- run_call "interface.query" [] (mw_interfaces mw) ;;
  internal_ints <- run_call "failover.internal_interfaces" []
                     (mw_internal_interfaces mw) ;;
  cfg <- subscript_of failovercfg ;;
  non_crit <- filter_list interfaces (fun i => negb (failover_critical i)) ;;
  crit <- filter_list interfaces failover_critical ;;
  ret (mkFailoverData services (cfg_disabled cfg) (cfg_master cfg) (cfg_timeout cfg)
         (fold_left (fun g i => groups_append (failover_group i) (id i) g) crit [])
         volumes (map id non_crit) internal_ints).

(** *** Jobs *)

(** Modelled from the spec: the [job] decorator and [Job.wait_sync] are not
    in the source at hand.  As the callers and the comments of the source
    use them: calling a job method starts a job with no progress and no
    result, the caller waits for it, and an exception raised by the body
    does not reach the caller but is kept as the job's [error]. *)
Definition job_error {A} (body : M A) : M (option Exn) :=
  fun s => match body s with
           | (Ret _, s') => (Ret None, s')
           | (Raise e, s') => (Ret (Some e), s')
           end.

Definition start_job {A} (m : string) (a : list string) (body : M A)
  : M (option Exn) :=
  modify (fun s => set_calls (calls s ++ [mkCall m a]) s) ;;
  modify (fun s => set_job_result None (set_job_progress None s)) ;;
  job_error body.

(** *** vrrp_master *)

Definition show_bool (b : bool) : string := if b then "True" else "False".

(** Lines 304-353: stop and start fenced; the failover-group check of the
    branch that is not forced. *)
Definition master_fencing (fobj : FailoverData) (ifname : string)
           (force_fenced forcetakeover : bool) : M (option Z) :=
  if forcetakeover || force_fenced then
    run_call_ "failover.fenced.stop" [] ;;
    run_call "failover.fenced.start" ["force=True"] (mw_fenced_start mw true)
  else
    status <- run_call "failover.vip.check_failover_group" [ifname]
                (mw_check_failover_group mw ifname (fo_groups fobj)) ;;
    status <- subscript_of status ;;
    if negb (is_nil (snd status)) then
      job_set_result "IGNORED" ;;
      raise IgnoreFailoverEvent
    else
      run_call_ "failover.fenced.stop" [] ;;
      run_call "failover.fenced.start" [] (mw_fenced_start mw false).

(** Lines 371-382: the kill-cache marker. *)
Definition master_kill_cache : M unit :=
  killcache <- os_path_exists zpool_killcache ;;
  if killcache then
    for_each [zpool_cache_file; zpool_cache_file_saved]
             (fun i => suppress (os_unlink i))
  else
    suppress (open_w zpool_killcache).

(** Lines 384-392: the saved copy of the pool cache. *)
Definition master_saved_cache : M unit :=
  saved <- os_path_exists zpool_cache_file_saved ;;
  cache <- os_path_exists zpool_cache_file ;;
  when (saved && cache)
       (zpool_cache_mtime <- os_stat_mtime zpool_cache_file ;;
        zpool_cache_saved_mtime <- os_stat_mtime zpool_cache_file_saved ;;
        when (Nat.ltb zpool_cache_saved_mtime zpool_cache_mtime)
             (suppress (shutil_copy2 zpool_cache_file zpool_cache_file_saved))).

(** Lines 397-422: the import loop; [failed] collects the volumes whose
    import raised, with the exception. *)
Fixpoint master_import (vols : list Volume) (failed : list (Volume * Exn))
  : M (list (Volume * Exn)) :=
  match vols with
  | [] => ret failed
  | vol :: rest =>
      r <- try_except
             (run_call "zfs.pool.import_pool"
                       [guid vol; "altroot=/mnt"; "cachefile=" ++ zpool_cache_file]
                       (if mw_import_pool mw (guid vol) then Some tt else None) ;;
              ret None)
             (fun e => ret (Some e)) ;;
      match r with
      | Some e => master_import rest (failed ++ [(vol, e)])%list
      | None =>
          unlock_job <- run_call "failover.unlock_zfs_datasets" [name vol]
                          (mw_unlock mw (name vol)) ;;
          _ <- attr_of unlock_job ;;
          master_import rest failed
      end
  end.

(** The two loops that report the failed volumes subscript the list
    [failed], not its element, with a string. *)
Definition report_failed (failed : list (Volume * Exn)) : M unit :=
  for_each failed (fun _ => raise TypeError).

(** Lines 449-529: everything after the imports. *)
Definition master_post_import (fobj : FailoverData) : M bool :=
  run_call_ "failover.status_refresh" [] ;;
  run_call_ "etc.generate" ["rc"] ;;
  run_call_ "etc.generate" ["system_dataset"] ;;
  run_call_ "etc.generate" ["ssl"] ;;
  run_call_ "service.restart" ["http"] ;;
  for_each critical_services
    (fun i =>
       services <- iter_of (fo_services fobj) ;;
       for_each services
         (fun j => when (String.eqb i (srv_service j) && srv_enable j)
                        (run_call_ "service.restart" [i; ha_propagate]))) ;;
  run_call_ "etc.generate" ["cron"] ;;
  run_call_ "disk.sync_all" [] ;;
  run_call_ "enclosure.sync_zpool" [] ;;
  run_call_ "service.restart" ["collectd"; ha_propagate] ;;
  run_call_ "service.restart" ["syslogd"; ha_propagate] ;;
  services <- iter_of (fo_services fobj) ;;
  for_each services
    (fun i => when (negb (str_mem (srv_service i) critical_services) && srv_enable i)
                   (_ <- match service i with
                         | Some v => ret v
                         | None => raise KeyError
                         end ;;
                    run_call_ "service.restart" [srv_service i; ha_propagate])) ;;
  run_call_ "alert.block_failover_alerts" [] ;;
  run_call_ "alert.initialize" ["False"] ;;
  kmip_config <- run_call "kmip.config" [] (mw_kmip_config mw) ;;
  when (match kmip_config with Some c => kmip_enabled c | None => false end)
       (run_call_ "kmip.initialize_keys" []) ;;
  modify (set_failover_successful true) ;;
  get failover_successful.

Definition vrrp_master (fobj : FailoverData) (ifname event : string)
           (force_fenced forcetakeover : bool) : M bool :=
  job_set_progress "ELECTING" ;;
  fenced_error <- master_fencing fobj ifname force_fenced forcetakeover ;;
  if truthy_code fenced_error then
    get failover_successful
  else
    master_kill_cache ;;
    master_saved_cache ;;
    job_set_progress "IMPORTING" ;;
    volumes <- iter_of (fo_volumes fobj) ;;
    failed <- master_import volumes [] ;;
    if Nat.eqb (length failed) (length volumes) then
      report_failed failed ;;
      job_set_result "ERROR" ;;
      get failover_successful
    else
      when (negb (Nat.eqb (length failed) 0))
           (job_set_result "ERROR" ;;
            report_failed failed) ;;
      master_post_import fobj.

(** *** vrrp_backup *)

(** Lines 587-591: the marker of the watchdog. *)
Definition backup_watchdog_marker : M unit :=
  suppress (open_w watchdog_alert_file ;;
            now <- time_time ;;
            text_write (DInt now)).

(** Lines 598-617: the handler is set, then the export runs under the
    alarm.  The two kernel files are opened without a mode. *)
Definition backup_export (fobj : FailoverData) : M unit :=
  signal_signal ;;
  try_except_only is_timeout
    (signal_alarm zpool_export_timeout ;;
     try_except
       (volumes <- iter_of (fo_volumes fobj) ;;
        for_each volumes
                 (fun vol => run_call_ "zfs.pool.export" [name vol; "force=True"]))
       (fun _ => time_sleep 5))
    (kernel_write ModeR sysrq_enable_path "1" ;;
     kernel_write ModeR sysrq_trigger_path "b").

Definition vrrp_backup (fobj : FailoverData) (ifname event : string)
           (force_fenced : bool) : M bool :=
  status <- run_call "failover.vip.check_failover_group" [ifname]
              (mw_check_failover_group mw ifname (fo_groups fobj)) ;;
  status <- subscript_of status ;;
  if negb (is_nil (fst status)) then
    job_set_result "IGNORED" ;;
    raise IgnoreFailoverEvent
  else
    run_call_ "failover.fenced.stop" [] ;;
    run_call_ "service.restart" ["keepalived"] ;;
    backup_watchdog_marker ;;
    backup_export fobj ;;
    suppress (os_unlink watchdog_alert_file) ;;
    run_call_ "failover.status_refresh" [] ;;
    run_call_ "service.restart" ["syslogd"; ha_propagate] ;;
    run_call_ "etc.generate" ["cron"] ;;
    run_call_ "service.stop" ["smartd"; ha_propagate] ;;
    run_call_ "service.stop" ["collectd"; ha_propagate] ;;
    services <- iter_of (fo_services fobj) ;;
    for_each services
      (fun i => when (String.eqb (srv_service i) "ssh" && srv_enable i)
                     (run_call_ "service.restart" ["ssh"; ha_propagate])) ;;
    run_call_ "failover.call_remote" ["failover.sync_keys_to_remote_node"] ;;
    modify (set_failover_successful true) ;;
    get failover_successful.

(** *** _event and event *)

(** Lines 244-249: is there a pool that is not ONLINE? *)
Fixpoint needs_import (vols : list Volume) : M bool :=
  match vols with
  | [] => ret false
  | vol :: rest =>
      zpool <- run_call "pool.query" ["name=" ++ name vol; "get=True"]
                 (mw_pool_get mw (name vol)) ;;
      zpool <- subscript_of zpool ;;
      if negb (String.eqb (status zpool) "ONLINE") then ret true
      else needs_import rest
  end.

(** Lines 214-261.  [None]: the method returns; otherwise the event and the
    local [force_fenced], which only the last of these lines assigns. *)
Definition soft_checks (fobj : FailoverData) (ifname event : string)
           (forcetakeover : bool) : M (option (string * option bool)) :=
  if negb forcetakeover then
    when (fo_disabled fobj && negb (fo_master fobj)) (raise IgnoreFailoverEvent) ;;
    let ignore := filter (fun i => str_in i ifname) (fo_non_crit_interfaces fobj) in
    when (negb (is_nil ignore)) (raise IgnoreFailoverEvent) ;;
    remote_connected <- run_call "failover.remote_connected" []
                          (mw_remote_connected mw) ;;
    when (truthy remote_connected)
         (remote <- run_call "failover.call_remote" ["failover.status"]
                      (mw_remote_status mw) ;;
          when (match remote with Some r => String.eqb r "MASTER" | None => false end)
               (raise IgnoreFailoverEvent)) ;;
    volumes <- iter_of (fo_volumes fobj) ;;
    needs_imported <- needs_import volumes ;;
    if negb needs_imported then ret None
    else ret (Some ("MASTER", Some needs_imported))
  else ret (Some (event, None)).

(** Lines 269-278: the MASTER transition is started as a job and waited
    for; what the job raised is its [error]. *)
Definition dispatch_master (fobj : FailoverData) (ifname event : string)
           (force_fenced forcetakeover : bool) : M (option bool) :=
  error <- start_job "failover.events.vrrp_master"
             [ifname; event; show_bool force_fenced; show_bool forcetakeover]
             (vrrp_master fobj ifname event force_fenced forcetakeover) ;;
  match error with
  | Some _ => v <- get failover_successful ;; ret (Some v)
  | None => ret None
  end.

(** Lines 282-291: the same for the BACKUP transition. *)
Definition dispatch_backup (fobj : FailoverData) (ifname event : string)
           (force_fenced : bool) : M (option bool) :=
  error <- start_job "failover.events.vrrp_backup"
             [ifname; event; show_bool force_fenced]
             (vrrp_backup fobj ifname event force_fenced) ;;
  match error with
  | Some _ => v <- get failover_successful ;; ret (Some v)
  | None => ret None
  end.

Definition _event (ifname event : string) : M (option bool) :=
  let forcetakeover := String.eqb event "forcetakeover" in
  fobj <- generate_failover_data ;;
  checked <- soft_checks fobj ifname event forcetakeover ;;
  match checked with
  | None => ret None
  | Some (event, force_fenced) =>
      run_call_method "failover.events.validate" [ifname; event]
                      (validate ifname event) ;;
      if str_mem event ["MASTER"; "forcetakeover"] then
        force_fenced <- local_of force_fenced ;;
        dispatch_master fobj ifname event force_fenced forcetakeover
      else if String.eqb event "BACKUP" then
        force_fenced <- local_of force_fenced ;;
        dispatch_backup fobj ifname event force_fenced
      else ret None
  end.

Definition status_refresh_call : Call := mkCall "failover.status_refresh" [].
Definition fenced_stop_call : Call := mkCall "failover.fenced.stop" [].
Definition check_group_call (ifname : string) : Call :=
  mkCall "failover.vip.check_failover_group" [ifname].

(** Lines 99-108, around a body: [refresh] starts [True]; the handler of
    [IgnoreFailoverEvent] clears it and the method falls off its end; the
    [finally] block runs on every way out. *)
Definition refreshing (body : M (option bool)) : M (option bool) :=
  fun s =>
    let '(r, refresh, s1) :=
      match body s with
      | (Raise IgnoreFailoverEvent, s1) => (Ret None, false, s1)
      | (r, s1) => (r, true, s1)
      end in
    match when refresh (run_call_ "failover.status_refresh" []) s1 with
    | (Ret _, s2) => (r, s2)
    | (Raise e, s2) => (Raise e, s2)
    end.

Definition event (ifname ev : string) : M (option bool) :=
  refreshing (_event ifname ev).

(** *** vrrp_fifo_hook *)

(** A line is a string of characters below U+0100, one [ascii] each.
    Among these [str.isspace] holds of 9 to 13, 28 to 32, 133 and 160. *)
Definition is_space (c : ascii) : bool :=
  let n := nat_of_ascii c in
  (Nat.leb 9 n && Nat.leb n 13) || (Nat.leb 28 n && Nat.leb n 32)
  || Nat.eqb n 133 || Nat.eqb n 160.

(** [str.split()]: the words between runs of white space. *)
Fixpoint split_ws (s : string) (word : string) : list string :=
  match s with
  | EmptyString => if String.eqb word EmptyString then [] else [word]
  | String c s' =>
      if is_space c
      then (if String.eqb word EmptyString then split_ws s' EmptyString
            else word :: split_ws s' EmptyString)
      else split_ws s' (word ++ String c EmptyString)
  end.

Definition dquote : ascii := ascii_of_nat 34.

Fixpoint lstrip (c : ascii) (s : string) : string :=
  match s with
  | String d s' => if Ascii.eqb c d then lstrip c s' else s
  | EmptyString => EmptyString
  end.

Fixpoint string_rev (s : string) : string :=
  match s with
  | EmptyString => EmptyString
  | String c s' => string_rev s' ++ String c EmptyString
  end.

Definition strip (c : ascii) (s : string) : string :=
  string_rev (lstrip c (string_rev (lstrip c s))).

Definition item (l : list string) (n : nat) : M string :=
  match nth_error l n with
  | Some v => ret v
  | None => raise IndexError
  end.

Definition send_event (ifname ev : string) : M unit :=
  modify (fun s => set_published (published s ++ [(ifname, ev)]) s).

Definition vrrp_fifo_hook (line : string) : M unit :=
  let data := split_ws line EmptyString in
  ifname <- item data 1 ;;
  let ifname := strip dquote ifname in
  ev <- item data 2 ;;
  if negb (str_mem ev ["MASTER"; "BACKUP"]) then ret tt
  else
    send_event ifname ev ;;
    event ifname ev ;;
    ret tt.
End Service.

(** ** Scenarios *)

Definition tank (st : string) : Volume := mkVolume "tank" "g1" st.

Definition eth0 : Interface := mkInterface "eth0" true 1.

Definition ha_enabled : FailoverCfg := mkFailoverCfg false true 2.

(** The pool of a name, as a node answers whose pools do not change. *)
Definition find_pool (pools : list Volume) (n : string) : option Volume :=
  find (fun v => String.eqb (name v) n) pools.

(** A healthy node: every collaborator answers at once, fenced starts with
    code 0, imports and unlocks succeed, the peer is not connected. *)
Definition healthy (pools : list Volume) (ifaces : list Interface) : Middleware :=
  mkMiddleware (Some pools) (find_pool pools) (Some []) (Some ha_enabled)
               (Some ifaces) (Some [])
               (Some false) None (Some [])
               (fun _ _ => Some ([], [])) (fun _ => Some 0%Z) (fun _ => true)
               (fun _ => Some (mkUnlockJob None [])) (Some (mkKmipConfig false))
               (fun _ _ => true) (fun _ _ => 0).

Definition with_jobs (jobs : list JobInfo) (mw : Middleware) : Middleware :=
  mkMiddleware (mw_pools mw) (mw_pool_get mw) (mw_services mw) (mw_failover_config mw)
               (mw_interfaces mw) (mw_internal_interfaces mw)
               (mw_remote_connected mw) (mw_remote_status mw) (Some jobs)
               (mw_check_failover_group mw) (mw_fenced_start mw)
               (mw_import_pool mw) (mw_unlock mw) (mw_kmip_config mw)
               (mw_succeeds mw) (mw_duration mw).

Definition master_running : list JobInfo :=
  [mkJobInfo "failover.events.vrrp_master" "RUNNING"].

Definition with_pool_manager (import_ok : string -> bool)
           (duration : string -> list string -> nat) (mw : Middleware) : Middleware :=
  mkMiddleware (mw_pools mw) (mw_pool_get mw) (mw_services mw) (mw_failover_config mw)
               (mw_interfaces mw) (mw_internal_interfaces mw)
               (mw_remote_connected mw) (mw_remote_status mw) (mw_jobs mw)
               (mw_check_failover_group mw) (mw_fenced_start mw)
               import_ok (mw_unlock mw) (mw_kmip_config mw)
               (mw_succeeds mw) duration.

(** The query for one pool is answered by [answer], whatever [pool.query]
    listed before. *)
Definition with_requery (answer : string -> option Volume) (mw : Middleware)
  : Middleware :=
  mkMiddleware (mw_pools mw) answer (mw_services mw) (mw_failover_config mw)
               (mw_interfaces mw) (mw_internal_interfaces mw)
               (mw_remote_connected mw) (mw_remote_status mw) (mw_jobs mw)
               (mw_check_failover_group mw) (mw_fenced_start mw)
               (mw_import_pool mw) (mw_unlock mw) (mw_kmip_config mw)
               (mw_succeeds mw) (mw_duration mw).

Definition with_fenced (code : Z) (mw : Middleware) : Middleware :=
  mkMiddleware (mw_pools mw) (mw_pool_get mw) (mw_services mw) (mw_failover_config mw)
               (mw_interfaces mw) (mw_internal_interfaces mw)
               (mw_remote_connected mw) (mw_remote_status mw) (mw_jobs mw)
               (mw_check_failover_group mw) (fun _ => Some code)
               (mw_import_pool mw) (mw_unlock mw) (mw_kmip_config mw)
               (mw_succeeds mw) (mw_duration mw).

(** The export of a pool hangs for ten seconds. *)
Definition slow_export (m : string) (a : list string) : nat :=
  if String.eqb m "zfs.pool.export" then 10 else 0.

(** The snapshot of a node with the pool tank and one critical interface. *)
Definition tank_snapshot (st : string) : FailoverData :=
  mkFailoverData (Some []) false true 2 [(1, ["eth0"])] (Some [tank st]) [] (Some []).

(** The snapshot of a node without pools. *)
Definition no_pools_snapshot : FailoverData :=
  mkFailoverData (Some []) false true 2 [(1, ["eth0"])] (Some []) [] (Some []).

(** The same when [pool.query] failed while the snapshot was built. *)
Definition no_volumes_snapshot : FailoverData :=
  mkFailoverData (Some []) false true 2 [(1, ["eth0"])] None [] (Some []).

Definition fifo_line (ifname ev : string) : string :=
  "VI_1 " ++ String dquote ifname ++ String dquote (" " ++ ev ++ " 100").

Definition methods (s : State) : list string := map method (calls s).

Definition count_method (m : string) (s : State) : nat :=
  length (filter (String.eqb m) (methods s)).

(** ** Properties of computations *)

Definition exn_of {A} (r : Outcome A) : option Exn :=
  match r with Ret _ => None | Raise e => Some e end.

(** [holds Q m]: every run of [m] relates the state before, the exception
    it ends with (if any) and the state after by [Q]. *)
Definition holds (Q : State -> option Exn -> State -> Prop) {A} (m : M A) : Prop :=
  forall s, Q s (exn_of (fst (m s))) (snd (m s)).

(** The flag is left as it is. *)
Definition flag_kept (s : State) (_ : option Exn) (s' : State) : Prop :=
  failover_successful s' = failover_successful s.

(** The flag is not reset. *)
Definition flag_mono (s : State) (_ : option Exn) (s' : State) : Prop :=
  failover_successful s = true -> failover_successful s' = true.

(** No IgnoreFailoverEvent is raised, inside or out. *)
Definition no_ignore (s : State) (x : option Exn) (s' : State) : Prop :=
  x <> Some IgnoreFailoverEvent /\ ignored s' = ignored s.

(** Nothing reaches the kernel files. *)
Definition kernel_kept (s : State) (_ : option Exn) (s' : State) : Prop :=
  kernel_writes s' = kernel_writes s.

(** The methods that only read: the queries that build the snapshot, the
    probes of the peer, and the status refresh. *)
Definition read_only_methods : list string :=
  ["pool.query"; "datastore.query"; "failover.config"; "interface.query";
   "failover.internal_interfaces"; "failover.remote_connected";
   "failover.call_remote"; "failover.status_refresh"].

Definition is_query (c : Call) : bool := str_mem (method c) read_only_methods.

(** Only read-only calls are made; flag, job, files, kernel files and a
    cleared alarm stay as they are. *)
Definition quiet (s : State) (_ : option Exn) (s' : State) : Prop :=
  (exists new, calls s' = (calls s ++ new)%list /\ forallb is_query new = true) /\
  failover_successful s' = failover_successful s /\
  job_result s' = job_result s /\
  job_progress s' = job_progress s /\
  fs s' = fs s /\
  kernel_writes s' = kernel_writes s /\
  (alarm s = None -> alarm s' = None).

(** A run ends with IgnoreFailoverEvent exactly when it raised one. *)
Definition exact_ignore {A} (m : M A) : Prop :=
  forall s, ignored (snd (m s)) =
            (if match exn_of (fst (m s)) with
                | Some e => is_ignore e
                | None => false
                end
             then S (ignored s) else ignored s).




(** A pool that reports the status ONLINE. *)
Definition online (v : Volume) : bool := String.eqb (status v) "ONLINE".

(** The query for the one pool of the volume's name finds it ONLINE. *)
Definition requery_online (mw : Middleware) (v : Volume) : bool :=
  match mw_pool_get mw (name v) with
  | Some z => online z
  | None => false
  end.

(** ** Properties of the calls made *)

(** Every call made satisfies [P]. *)
Definition only_calls (P : Call -> bool) (s : State) (_ : option Exn) (s' : State)
  : Prop :=
  exists new, calls s' = (calls s ++ new)%list /\ forallb P new = true.

Fixpoint args_eqb (a b : list string) : bool :=
  match a, b with
  | [], [] => true
  | x :: a', y :: b' => String.eqb x y && args_eqb a' b'
  | _, _ => false
  end.

(** What a run of [event] may call: not the check of the failover group,
    not the BACKUP transition, not the export of a pool, and fenced only
    with force. *)
Definition through_event (c : Call) : bool :=
  negb (str_mem (method c)
                ["failover.vip.check_failover_group"; "failover.events.vrrp_backup";
                 "zfs.pool.export"]) &&
  (if String.eqb (method c) "failover.fenced.start"
   then args_eqb (args c) ["force=True"] else true).

(** A restart or stop of a service is marked [ha_propagate: False], save
    those of http and keepalived, which carry no option. *)
Definition local_only (c : Call) : bool :=
  if str_mem (method c) ["service.restart"; "service.stop"] then
    match args c with
    | [n] => str_mem n ["http"; "keepalived"]
    | [_; p] => String.eqb p ha_propagate
    | _ => false
    end
  else true.

(** The five queries of [generate_failover_data], in their order. *)
Definition snapshot_queries : list Call :=
  [mkCall "pool.query" ["[]"; "select=name,guid,status"];
   mkCall "datastore.query" ["services_services"];
   mkCall "failover.config" [];
   mkCall "interface.query" [];
   mkCall "failover.internal_interfaces" []].

(** [groups[g]] of a [defaultdict(list)]: the empty list for a missing key. *)
Fixpoint group_members (g : nat) (groups : Groups) : list string :=
  match groups with
  | [] => []
  | (h, l) :: rest => if Nat.eqb g h then l else group_members g rest
  end.

(** The critical interfaces of one failover group. *)
Definition in_group (g : nat) (i : Interface) : bool :=
  failover_critical i && Nat.eqb (failover_group i) g.

(** A job that stands in the way of an event, as the loop of [validate]
    reads it. *)
Definition conflicts (event : string) (j : JobInfo) : bool :=
  running j &&
  ((String.eqb (job_method j) "failover.events.vrrp_master" &&
    str_mem event ["MASTER"; "forcetakeover"]) ||
   (String.eqb (job_method j) "failover.events.vrrp_backup" &&
    String.eqb event "BACKUP")).

(** The two calls the import loop makes for a volume. *)
Definition import_calls (v : Volume) : list Call :=
  [mkCall "zfs.pool.import_pool"
          [guid v; "altroot=/mnt"; "cachefile=" ++ zpool_cache_file];
   mkCall "failover.unlock_zfs_datasets" [name v]].

Definition forced_fencing_calls : list Call :=
  [mkCall "failover.fenced.stop" []; mkCall "failover.fenced.start" ["force=True"]].

Definition any_call (c : Call) : bool := true.

(** A check of the failover group that finds interfaces on the other side:
    [status[0]] and [status[1]] are the two lists of the answer. *)
Definition with_group_check (answer : list string * list string) (mw : Middleware)
  : Middleware :=
  mkMiddleware (mw_pools mw) (mw_pool_get mw) (mw_services mw) (mw_failover_config mw)
               (mw_interfaces mw) (mw_internal_interfaces mw)
               (mw_remote_connected mw) (mw_remote_status mw) (mw_jobs mw)
               (fun _ _ => Some answer) (mw_fenced_start mw)
               (mw_import_pool mw) (mw_unlock mw) (mw_kmip_config mw)
               (mw_succeeds mw) (mw_duration mw).

(** Starting fenced raises instead of returning a code. *)
Definition with_fenced_raising (mw : Middleware) : Middleware :=
  mkMiddleware (mw_pools mw) (mw_pool_get mw) (mw_services mw) (mw_failover_config mw)
               (mw_interfaces mw) (mw_internal_interfaces mw)
               (mw_remote_connected mw) (mw_remote_status mw) (mw_jobs mw)
               (mw_check_failover_group mw) (fun _ => None)
               (mw_import_pool mw) (mw_unlock mw) (mw_kmip_config mw)
               (mw_succeeds mw) (mw_duration mw).

(** ** The trace of a transition that succeeds *)

Definition restart_call (n : string) : Call :=
  mkCall "service.restart" [n; ha_propagate].

(** The restarts of the critical services: in the order of
    [critical_services], each one for every row of the snapshot that names
    it and is enabled. *)
Definition critical_restarts (services : list ServiceRow) : list Call :=
  flat_map (fun i =>
              flat_map (fun j => if String.eqb i (srv_service j) && srv_enable j
                                 then [restart_call i] else [])
                       services)
           critical_services.

(** The restarts of the other enabled services, in the order of the
    snapshot. *)
Definition is_other_service (i : ServiceRow) : bool :=
  negb (str_mem (srv_service i) critical_services) && srv_enable i.

Definition other_restarts (services : list ServiceRow) : list Call :=
  flat_map (fun i => if is_other_service i then [restart_call (srv_service i)] else [])
           services.

Definition master_trace (vols : list Volume) (services : list ServiceRow)
           (kmip : option KmipConfig) : list Call :=
  (forced_fencing_calls
   ++ flat_map import_calls vols
   ++ [mkCall "failover.status_refresh" [];
       mkCall "etc.generate" ["rc"];
       mkCall "etc.generate" ["system_dataset"];
       mkCall "etc.generate" ["ssl"];
       mkCall "service.restart" ["http"]]
   ++ critical_restarts services
   ++ [mkCall "etc.generate" ["cron"];
       mkCall "disk.sync_all" [];
       mkCall "enclosure.sync_zpool" [];
       restart_call "collectd";
       restart_call "syslogd"]
   ++ other_restarts services
   ++ [mkCall "alert.block_failover_alerts" [];
       mkCall "alert.initialize" ["False"];
       mkCall "kmip.config" []]
   ++ (if match kmip with Some c => kmip_enabled c | None => false end
       then [mkCall "kmip.initialize_keys" []] else []))%list.

(** From [s] to [s'] the calls [cs] were made and nothing else that the
    job or the flag would show; no alarm is pending afterwards. *)
Definition advances (cs : list Call) (s s' : State) : Prop :=
  alarm s' = None /\
  calls s' = (calls s ++ cs)%list /\
  job_result s' = job_result s /\
  job_progress s' = job_progress s /\
  failover_successful s' = failover_successful s.

(** The calls of a MASTER transition after the imports. *)
Definition post_import_trace (services : list ServiceRow) (kmip : option KmipConfig)
  : list Call :=
  ([mkCall "failover.status_refresh" [];
    mkCall "etc.generate" ["rc"];
    mkCall "etc.generate" ["system_dataset"];
    mkCall "etc.generate" ["ssl"];
    mkCall "service.restart" ["http"]]
   ++ critical_restarts services
   ++ [mkCall "etc.generate" ["cron"];
       mkCall "disk.sync_all" [];
       mkCall "enclosure.sync_zpool" [];
       restart_call "collectd";
       restart_call "syslogd"]
   ++ other_restarts services
   ++ [mkCall "alert.block_failover_alerts" [];
       mkCall "alert.initialize" ["False"];
       mkCall "kmip.config" []]
   ++ (if match kmip with Some c => kmip_enabled c | None => false end
       then [mkCall "kmip.initialize_keys" []] else []))%list.

(** ** The trace of a BACKUP transition *)

Definition export_call (v : Volume) : Call :=
  mkCall "zfs.pool.export" [name v; "force=True"].

Definition is_ssh (i : ServiceRow) : bool :=
  String.eqb (srv_service i) "ssh" && srv_enable i.

Definition backup_trace (ifname : string) (vols : list Volume)
           (services : list ServiceRow) : list Call :=
  ([check_group_call ifname;
    fenced_stop_call;
    mkCall "service.restart" ["keepalived"]]
   ++ map export_call vols
   ++ [status_refresh_call;
       restart_call "syslogd";
       mkCall "etc.generate" ["cron"];
       mkCall "service.stop" ["smartd"; ha_propagate];
       mkCall "service.stop" ["collectd"; ha_propagate]]
   ++ flat_map (fun i => if is_ssh i then [restart_call "ssh"] else []) services
   ++ [mkCall "failover.call_remote" ["failover.sync_keys_to_remote_node"]])%list.

(** No alarm is due: none is pending, or its deadline is still ahead. *)
Definition calm (s : State) : Prop :=
  match alarm s with
  | Some t => clock s < t
  | None => True
  end.

(** From [s] to [s'] the calls [cs] were made, in no time, and nothing
    else happened. *)
Definition idles (cs : list Call) (s s' : State) : Prop :=
  alarm s' = alarm s /\
  clock s' = clock s /\
  calls s' = (calls s ++ cs)%list /\
  fs s' = fs s /\
  kernel_writes s' = kernel_writes s /\
  job_result s' = job_result s /\
  failover_successful s' = failover_successful s /\
  main_thread s' = main_thread s /\
  refused s' = refused s.

(** The calls of [master_post_import] up to the loop over the other
    services. *)
Definition post_import_head (services : list ServiceRow) : list Call :=
  ([mkCall "failover.status_refresh" [];
    mkCall "etc.generate" ["rc"];
    mkCall "etc.generate" ["system_dataset"];
    mkCall "etc.generate" ["ssl"];
    mkCall "service.restart" ["http"]]
   ++ critical_restarts services
   ++ [mkCall "etc.generate" ["cron"];
       mkCall "disk.sync_all" [];
       mkCall "enclosure.sync_zpool" [];
       restart_call "collectd";
       restart_call "syslogd"])%list.

(** ** The notifications of the fifo *)

Definition published_kept (s : State) (_ : option Exn) (s' : State) : Prop :=
  published s' = published s.

(** What a line of the fifo makes public. *)
Definition fifo_notification (line : string) : list (string * string) :=
  match split_ws line EmptyString with
  | _ :: ifname :: ev :: _ =>
      if str_mem ev ["MASTER"; "BACKUP"] then [(strip dquote ifname, ev)] else []
  | _ => []
  end.

(** The two questions to the other node. *)
Definition remote_calls : list Call :=
  [mkCall "failover.remote_connected" [];
   mkCall "failover.call_remote" ["failover.status"]].

(** ** Files *)

(** The files the two transitions work on. *)
Definition transition_files : list string :=
  [zpool_killcache; zpool_cache_file; zpool_cache_file_saved; watchdog_alert_file].

Definition files_kept (s : State) (_ : option Exn) (s' : State) : Prop :=
  forall p, str_mem p transition_files = false ->
            fs_lookup p (fs s') = fs_lookup p (fs s).

(** * Theorems *)

(** ** Rules for [holds] *)

Section Holds.

Variable Q : State -> option Exn -> State -> Prop.
Hypothesis Q_ret : forall s, Q s None s.
Hypothesis Q_seq : forall s x1 s1 x2 s2, Q s x1 s1 -> Q s1 x2 s2 -> Q s x2 s2.

Lemma holds_ret : forall (A : Type) (a : A), holds Q (ret a).
Proof. intros A a s. apply Q_ret. Qed.

Lemma holds_get : forall (A : Type) (f : State -> A), holds Q (get f).
Proof. intros A f s. apply Q_ret. Qed.

Lemma holds_bind :
  forall (A B : Type) (m : M A) (f : A -> M B),
    holds Q m -> (forall a, holds Q (f a)) -> holds Q (bind m f).
Proof.
  intros A B m f Hm Hf s. unfold bind.
  specialize (Hm s). destruct (m s) as [[a|e] s1]; simpl in *.
  - eapply Q_seq; [exact Hm | apply Hf].
  - exact Hm.
Qed.

Lemma holds_try_except :
  forall (A : Type) (m : M A) (h : Exn -> M A),
    holds Q m -> (forall e, holds Q (h e)) -> holds Q (try_except m h).
Proof.
  intros A m h Hm Hh s. unfold try_except.
  specialize (Hm s). destruct (m s) as [[a|e] s1]; simpl in *.
  - exact Hm.
  - eapply Q_seq; [exact Hm | apply Hh].
Qed.

Lemma holds_try_except_only :
  forall (A : Type) p (m h : M A),
    holds Q m -> holds Q h -> holds Q (try_except_only p m h).
Proof.
  intros A p m h Hm Hh s. unfold try_except_only.
  specialize (Hm s). destruct (m s) as [[a|e] s1]; simpl in *.
  - exact Hm.
  - destruct (p e); simpl.
    + eapply Q_seq; [exact Hm | apply Hh].
    + exact Hm.
Qed.

Lemma holds_suppress : forall m, holds Q m -> holds Q (suppress m).
Proof.
  intros m Hm. unfold suppress. apply holds_try_except; [exact Hm|].
  intros e. apply holds_ret.
Qed.

Lemma holds_when : forall b m, holds Q m -> holds Q (when b m).
Proof. intros [] m Hm; simpl; [exact Hm | apply holds_ret]. Qed.

Lemma holds_for_each :
  forall (A : Type) (l : list A) body,
    (forall x, holds Q (body x)) -> holds Q (for_each l body).
Proof.
  intros A l body Hb. induction l as [|x l IH]; simpl.
  - apply holds_ret.
  - apply holds_bind; [apply Hb | intros _; exact IH].
Qed.

Lemma holds_job_error :
  forall (A : Type) (body : M A),
    (forall s x s', Q s x s' -> Q s None s') ->
    holds Q body -> holds Q (job_error body).
Proof.
  intros A body Hc Hb s. unfold job_error.
  specialize (Hb s). destruct (body s) as [[a|e] s1]; simpl in *; eauto.
Qed.

End Holds.


Create HintDb failover.
Create HintDb failover_holds.
#[export] Hint Unfold run_call_ run_call call_sync run_call_method start_job
  dispatch_master dispatch_backup refuses signal_signal
  iter_of subscript_of attr_of local_of item send_event
  job_set_progress job_set_result signal_alarm time_sleep time_time
  os_path_exists os_unlink open_w shutil_copy2 text_write kernel_write report_failed
  backup_watchdog_marker backup_export
  master_kill_cache master_saved_cache master_fencing master_post_import
  vrrp_master vrrp_backup filter_list generate_failover_data soft_checks
  _zpool_export_sig_alarm : failover.

(** Breaking a computation into its parts; what is left are the primitive
    operations on the state. *)
Ltac holds_step Hret Hseq Hcatch :=
  first
    [ solve [auto with failover_holds]
    | apply holds_ret; exact Hret
    | apply holds_get; exact Hret
    | apply holds_bind; [exact Hseq | | intros ? ]
    | apply holds_when; [exact Hret | ]
    | apply holds_suppress; [exact Hret | exact Hseq | ]
    | apply holds_for_each; [exact Hret | exact Hseq | intros ? ]
    | apply holds_try_except; [exact Hseq | | intros ? ]
    | apply holds_try_except_only; [exact Hseq | | ]
    | apply holds_job_error; [exact Hcatch | ]
    | match goal with
      | |- holds _ (if ?b then _ else _) => destruct b
      | |- holds _ (match ?x with _ => _ end) => destruct x
      end
    | progress autounfold with failover ].

(** The primitive operations, for a relation that computes. *)
Ltac destruct_match :=
  match goal with
  | |- context [match ?x with _ => _ end] =>
      lazymatch x with
      | context [match _ with _ => _ end] => fail
      | _ => destruct x; simpl
      end
  end.

Ltac holds_prim :=
  let s := fresh "s" in
  intros s; destruct s;
  unfold modify, get, blocking, os_unlink, os_stat_mtime,
         _zpool_export_sig_alarm, fs_exists, raise; simpl;
  repeat destruct_match.


Lemma holds_weaken :
  forall (Q Q' : State -> option Exn -> State -> Prop) (A : Type) (m : M A),
    (forall s x s', Q s x s' -> Q' s x s') -> holds Q m -> holds Q' m.
Proof. intros Q Q' A m H Hm s. apply H, Hm. Qed.

Lemma bind_ret_l :
  forall (A B : Type) (a : A) (f : A -> M B), bind (ret a) f = f a.
Proof. reflexivity. Qed.

Lemma bind_ret_inv :
  forall (A B : Type) (m : M A) (f : A -> M B) s b s',
    bind m f s = (Ret b, s') ->
    exists a s1, m s = (Ret a, s1) /\ f a s1 = (Ret b, s').
Proof.
  intros A B m f s b s' H. unfold bind in H.
  destruct (m s) as [[a|e] s1]; [eauto | discriminate].
Qed.


(** ** run_call *)

(** [run_call] never raises: it returns a value whatever the call does. *)
Lemma run_call_returns :
  forall mw (A : Type) m a (answer : option A) s,
    exists v, fst (run_call mw m a answer s) = Ret v.
Proof.
  intros mw A m a answer s.
  unfold run_call, call_sync, try_except, bind, modify, blocking, ret.
  simpl. destruct (alarm s) as [t|]; simpl.
  - destruct (Nat.leb t (clock s + mw_duration mw m a)); simpl;
      [destruct (main_thread s); simpl; eauto|];
      destruct answer; simpl; eauto.
  - destruct answer; simpl; eauto.
Qed.

Lemma run_call__returns :
  forall mw m a s, fst (run_call_ mw m a s) = Ret tt.
Proof.
  intros mw m a s. unfold run_call_, bind.
  destruct (run_call_returns mw unit m a
              (if mw_succeeds mw m a then Some tt else None) s) as [v Hv].
  destruct (run_call mw m a _ s) as [r s1]. simpl in Hv. subst r. reflexivity.
Qed.

(** With no alarm pending [run_call] returns the collaborator's answer
    ([None] when it raised) after logging the call. *)
Lemma run_call_no_alarm :
  forall mw (A : Type) m a (answer : option A) s,
    alarm s = None ->
    run_call mw m a answer s =
    (Ret answer,
     set_clock (clock s + mw_duration mw m a)
               (set_calls (calls s ++ [mkCall m a]) s)).
Proof.
  intros mw A m a answer s H.
  unfold run_call, call_sync, try_except, bind, modify, blocking, ret, raise.
  simpl. rewrite H. destruct answer; reflexivity.
Qed.

Lemma run_call_answer :
  forall mw (A : Type) m a (answer : option A) s,
    alarm s = None ->
    exists s', run_call mw m a answer s = (Ret answer, s') /\ alarm s' = None.
Proof.
  intros mw A m a answer s H. rewrite run_call_no_alarm by exact H.
  eexists. split; [reflexivity | exact H].
Qed.

(** One [run_call] at the head of a computation, with no alarm pending. *)
Ltac run_call_in H :=
  unfold bind at 1 in H;
  match type of H with
  | context [run_call ?mw ?m ?a ?ans ?s] =>
      match goal with
      | Ha : alarm s = None |- _ =>
          let s' := fresh "s" in
          let E := fresh "E" in
          let Ha' := fresh "Ha" in
          destruct (run_call_answer mw _ m a ans s Ha) as (s' & E & Ha');
          rewrite E in H; clear E
      end
  end.

Ltac run_call_goal :=
  unfold bind at 1;
  match goal with
  | |- context [run_call ?mw ?m ?a ?ans ?s] =>
      match goal with
      | Ha : alarm s = None |- _ =>
          let s' := fresh "s" in
          let E := fresh "E" in
          let Ha' := fresh "Ha" in
          destruct (run_call_answer mw _ m a ans s Ha) as (s' & E & Ha');
          rewrite E; clear E
      end
  end.

(** What one [run_call] whose value is dropped does to the state. *)
Lemma run_call__effect :
  forall mw m a s,
    let s' := snd (run_call_ mw m a s) in
    calls s' = (calls s ++ [mkCall m a])%list /\
    failover_successful s' = failover_successful s /\
    ignored s' = ignored s /\
    job_result s' = job_result s /\
    job_progress s' = job_progress s /\
    fs s' = fs s /\
    kernel_writes s' = kernel_writes s /\
    (alarm s = None -> alarm s' = None).
Proof.
  intros mw m a s. destruct s as [fl cl jp jr fls kw pb clk al ig mt rf].
  unfold run_call_, run_call, call_sync, try_except, bind, modify, blocking, ret,
         _zpool_export_sig_alarm, raise; simpl.
  destruct (mw_succeeds mw m a); destruct al as [t|]; simpl;
    try destruct (Nat.leb t _); simpl; try destruct mt; simpl;
    repeat split; auto; discriminate.
Qed.

(** ** validate *)

(** The loop of [validate] alone does what its comments say: a running
    MASTER job makes it ignore a MASTER event. *)
Lemma validate_job_master_running :
  fst (for_each (filter running master_running) (validate_job "MASTER") initial_state)
  = Raise IgnoreFailoverEvent.
Proof. reflexivity. Qed.

(** Whatever [validate] raises, [_event] calls it through [run_call], which
    turns every exception into the value [None]. *)
Lemma run_call_method_never_raises :
  forall (A : Type) m a (body : M A) s, exists v, fst (run_call_method m a body s) = Ret v.
Proof.
  intros A m a body s. unfold run_call_method, try_except, bind, modify, ret.
  destruct (body _) as [[v|e] s']; simpl; eauto.
Qed.

Lemma validate_raises :
  forall mw ifname ev s, validate mw ifname ev s = (Raise TypeError, s).
Proof. reflexivity. Qed.

(** C1.  With a MASTER job RUNNING, [validate] is to fail with
    IgnoreFailoverEvent on a MASTER or forcetakeover event (and with a BACKUP
    job on a BACKUP event).  It does not: on every input, this one included,
    [validate] raises TypeError while it builds the filter for
    [core.get_jobs], before any job is looked at, and leaves the state as
    it was. *)
Theorem validate_always_TypeError :
  forall mw ifname ev s,
    validate mw ifname ev s = (Raise TypeError, s) /\
    validate (with_jobs master_running mw) "eth0" "MASTER" s = (Raise TypeError, s).
Proof. intros mw ifname ev s. split; reflexivity. Qed.

(** ** The flag *)

Lemma flag_kept_ret : forall s, flag_kept s None s.
Proof. reflexivity. Qed.

Lemma flag_kept_seq :
  forall s x1 s1 x2 s2, flag_kept s x1 s1 -> flag_kept s1 x2 s2 -> flag_kept s x2 s2.
Proof. unfold flag_kept. intros. congruence. Qed.

Lemma flag_kept_catch :
  forall s (x : option Exn) s', flag_kept s x s' -> flag_kept s None s'.
Proof. unfold flag_kept. auto. Qed.

Ltac flag_kept_tac :=
  repeat holds_step flag_kept_ret flag_kept_seq flag_kept_catch;
  try (holds_prim; reflexivity).

Lemma master_import_flag_kept :
  forall mw vols failed, holds flag_kept (master_import mw vols failed).
Proof.
  intros mw vols. induction vols as [|v vols IH]; intros failed; simpl;
    flag_kept_tac; apply IH.
Qed.
#[export] Hint Resolve master_import_flag_kept : failover_holds.

Lemma needs_import_flag_kept :
  forall mw vols, holds flag_kept (needs_import mw vols).
Proof.
  intros mw vols. induction vols as [|v vols IH]; simpl; flag_kept_tac.
Qed.
#[export] Hint Resolve needs_import_flag_kept : failover_holds.

Lemma validate_flag_kept :
  forall mw ifname ev, holds flag_kept (validate mw ifname ev).
Proof. intros mw ifname ev s. rewrite validate_raises. reflexivity. Qed.
#[export] Hint Resolve validate_flag_kept : failover_holds.

(** Rules for [returns_flag] and [flag_post]. *)













(** ** event *)

Lemma refreshing_spec :
  forall mw body s,
    refreshing mw body s =
    match body s with
    | (Raise IgnoreFailoverEvent, s1) => (Ret None, s1)
    | (r, s1) => (r, snd (run_call_ mw "failover.status_refresh" [] s1))
    end.
Proof.
  intros mw body s. unfold refreshing.
  destruct (body s) as [[v|e] s1].
  - simpl. pose proof (run_call__returns mw "failover.status_refresh" [] s1) as H.
    destruct (run_call_ mw "failover.status_refresh" [] s1) as [r s2].
    simpl in H. subst r. reflexivity.
  - pose proof (run_call__returns mw "failover.status_refresh" [] s1) as H.
    destruct (run_call_ mw "failover.status_refresh" [] s1) as [r s2] eqn:E.
    simpl in H. subst r.
    destruct e; simpl; try rewrite E; reflexivity.
Qed.

Lemma event_spec :
  forall mw ifname ev s,
    event mw ifname ev s =
    match _event mw ifname ev s with
    | (Raise IgnoreFailoverEvent, s1) => (Ret None, s1)
    | (r, s1) => (r, snd (run_call_ mw "failover.status_refresh" [] s1))
    end.
Proof. intros mw ifname ev s. apply refreshing_spec. Qed.

(** ** IgnoreFailoverEvent *)

Lemma no_ignore_ret : forall s, no_ignore s None s.
Proof. intros s. split; [discriminate | reflexivity]. Qed.

Lemma no_ignore_seq :
  forall s x1 s1 x2 s2, no_ignore s x1 s1 -> no_ignore s1 x2 s2 -> no_ignore s x2 s2.
Proof. unfold no_ignore. intros s x1 s1 x2 s2 [_ H1] [H2 H3]. split; congruence. Qed.

Lemma no_ignore_catch :
  forall s (x : option Exn) s', no_ignore s x s' -> no_ignore s None s'.
Proof. unfold no_ignore. intros s x s' [_ H]. split; [discriminate | exact H]. Qed.

Ltac no_ignore_tac :=
  repeat holds_step no_ignore_ret no_ignore_seq no_ignore_catch;
  try (holds_prim; (split; [discriminate | reflexivity])).

Lemma master_import_no_ignore :
  forall mw vols failed, holds no_ignore (master_import mw vols failed).
Proof.
  intros mw vols. induction vols as [|v vols IH]; intros failed; simpl;
    no_ignore_tac; apply IH.
Qed.
#[export] Hint Resolve master_import_no_ignore : failover_holds.

Lemma needs_import_no_ignore :
  forall mw vols, holds no_ignore (needs_import mw vols).
Proof.
  intros mw vols. induction vols as [|v vols IH]; simpl; no_ignore_tac.
Qed.
#[export] Hint Resolve needs_import_no_ignore : failover_holds.

Lemma validate_no_ignore :
  forall mw ifname ev, holds no_ignore (validate mw ifname ev).
Proof.
  intros mw ifname ev s. rewrite validate_raises.
  split; [discriminate | reflexivity].
Qed.
#[export] Hint Resolve validate_no_ignore : failover_holds.

(** A forced MASTER transition has no way to raise IgnoreFailoverEvent. *)
Lemma vrrp_master_forced_no_ignore :
  forall mw fobj ifname ev ft,
    holds no_ignore (vrrp_master mw fobj ifname ev true ft).
Proof.
  intros mw fobj ifname ev ft. unfold vrrp_master, master_fencing.
  rewrite orb_true_r. no_ignore_tac.
Qed.

Lemma exact_of_no_ignore :
  forall (A : Type) (m : M A), holds no_ignore m -> exact_ignore m.
Proof.
  intros A m H s. destruct (H s) as [Hx Hi]. rewrite Hi.
  destruct (exn_of (fst (m s))) as [e|]; [|reflexivity].
  destruct e; try reflexivity. congruence.
Qed.

Lemma exact_raise : forall (A : Type) e, exact_ignore (@raise A e).
Proof. intros A e s. unfold raise. simpl. destruct (is_ignore e); reflexivity. Qed.

Lemma exact_bind_val :
  forall (A B : Type) (m : M A) (f : A -> M B) (P : A -> Prop),
    exact_ignore m ->
    (forall s a s', m s = (Ret a, s') -> P a) ->
    (forall a, P a -> exact_ignore (f a)) ->
    exact_ignore (bind m f).
Proof.
  intros A B m f P Hm HP Hf s. unfold bind.
  specialize (Hm s). specialize (HP s).
  destruct (m s) as [[a|e] s1]; simpl in *.
  - rewrite <- Hm. apply Hf. eapply HP. reflexivity.
  - exact Hm.
Qed.

Lemma exact_bind :
  forall (A B : Type) (m : M A) (f : A -> M B),
    exact_ignore m -> (forall a, exact_ignore (f a)) -> exact_ignore (bind m f).
Proof.
  intros A B m f Hm Hf.
  apply (exact_bind_val A B m f (fun _ => True)); auto.
Qed.

Lemma exact_when_raise :
  forall b e, exact_ignore (when b (raise e)).
Proof.
  intros [] e; simpl; [apply exact_raise|].
  apply exact_of_no_ignore. no_ignore_tac.
Qed.

(** What the soft checks hand on: nothing, a MASTER event with
    [force_fenced] set, or the forced event with [force_fenced] unbound. *)
Lemma soft_checks_value :
  forall mw fobj ifname ev ft s a s',
    soft_checks mw fobj ifname ev ft s = (Ret a, s') ->
    a = None \/
    (ft = false /\ a = Some ("MASTER", Some true)) \/
    (ft = true /\ a = Some (ev, None)).
Proof.
  intros mw fobj ifname ev ft s a s' H. unfold soft_checks in H.
  destruct ft; simpl in H.
  - unfold ret in H. inversion H. auto.
  - cbv zeta in H.
    repeat (apply bind_ret_inv in H; destruct H as (? & ? & _ & H)).
    match type of H with
    | (if negb ?b then _ else _) _ = _ => destruct b
    end; simpl in H; unfold ret in H; inversion H; auto.
Qed.

Lemma soft_checks_exact :
  forall mw fobj ifname ev ft, exact_ignore (soft_checks mw fobj ifname ev ft).
Proof.
  intros mw fobj ifname ev ft. unfold soft_checks.
  destruct ft; simpl.
  - apply exact_of_no_ignore. no_ignore_tac.
  - apply exact_bind; [apply exact_when_raise | intros _].
    apply exact_bind; [apply exact_when_raise | intros _].
    apply exact_bind; [apply exact_of_no_ignore; no_ignore_tac | intros rc].
    apply exact_bind.
    + destruct (truthy rc); simpl; [|apply exact_of_no_ignore; no_ignore_tac].
      apply exact_bind; [apply exact_of_no_ignore; no_ignore_tac | intros r].
      apply exact_when_raise.
    + intros _. apply exact_of_no_ignore. no_ignore_tac.
Qed.

Lemma _event_exact :
  forall mw ifname ev, exact_ignore (_event mw ifname ev).
Proof.
  intros mw ifname ev. unfold _event.
  apply exact_bind; [apply exact_of_no_ignore; no_ignore_tac | intros fobj].
  eapply exact_bind_val;
    [apply soft_checks_exact | intros s a s' H; exact (soft_checks_value _ _ _ _ _ _ _ _ H) |].
  intros a [Ha | [[Hf Ha] | [Hf Ha]]]; subst a.
  - apply exact_of_no_ignore. no_ignore_tac.
  - rewrite Hf. apply exact_of_no_ignore. simpl.
    pose proof (vrrp_master_forced_no_ignore mw fobj ifname "MASTER" false).
    apply holds_bind; [exact no_ignore_seq | no_ignore_tac | intros _].
    unfold local_of. rewrite bind_ret_l. no_ignore_tac.
  - apply String.eqb_eq in Hf. subst ev. simpl.
    apply exact_of_no_ignore. no_ignore_tac.
Qed.

(** The two ways out of [event]. *)
Lemma event_cases :
  forall mw ifname ev s,
    let s1 := snd (_event mw ifname ev s) in
    (event mw ifname ev s = (Ret None, s1) /\ ignored s1 = S (ignored s)) \/
    (exists s2,
        event mw ifname ev s = (fst (_event mw ifname ev s), s2) /\
        calls s2 = (calls s1 ++ [status_refresh_call])%list /\
        ignored s2 = ignored s /\
        failover_successful s2 = failover_successful s1).
Proof.
  intros mw ifname ev s. simpl.
  pose proof (_event_exact mw ifname ev s) as Hx.
  rewrite event_spec.
  destruct (_event mw ifname ev s) as [[v|e] s1]; simpl in *.
  - right. eexists. split; [reflexivity|].
    destruct (run_call__effect mw "failover.status_refresh" [] s1)
      as (Hc & Hf & Hi & _).
    repeat split; [exact Hc | congruence | exact Hf].
  - destruct (run_call__effect mw "failover.status_refresh" [] s1)
      as (Hc & Hf & Hi & _).
    destruct e; simpl in *;
      try (right; eexists; split; [reflexivity|];
           repeat split; [exact Hc | congruence | exact Hf]).
    left. split; [reflexivity | exact Hx].
Qed.







(** ** The flag across events *)




Lemma flag_kept_mono :
  forall (A : Type) (m : M A), holds flag_kept m -> holds flag_mono m.
Proof.
  intros A m. apply holds_weaken. unfold flag_kept, flag_mono. congruence.
Qed.

Lemma master_import_flag_mono :
  forall mw vols failed, holds flag_mono (master_import mw vols failed).
Proof. intros. apply flag_kept_mono, master_import_flag_kept. Qed.

Lemma needs_import_flag_mono :
  forall mw vols, holds flag_mono (needs_import mw vols).
Proof. intros. apply flag_kept_mono, needs_import_flag_kept. Qed.

Lemma validate_flag_mono :
  forall mw ifname ev, holds flag_mono (validate mw ifname ev).
Proof. intros. apply flag_kept_mono, validate_flag_kept. Qed.
#[export] Hint Resolve master_import_flag_mono needs_import_flag_mono
  validate_flag_mono : failover_holds.








(** ** Imports that fail *)

(** The handler of the import loop is therefore never entered: the list of
    failed volumes comes out of the loop as it went in. *)
Lemma master_import_records_no_failure :
  forall mw vols failed s l s',
    master_import mw vols failed s = (Ret l, s') -> l = failed.
Proof.
  intros mw vols. induction vols as [|vol rest IH]; intros failed s l s' H.
  - simpl in H. unfold ret in H. congruence.
  - simpl in H. unfold bind at 1 in H. unfold try_except in H.
    unfold bind at 1 in H.
    destruct (run_call_returns mw unit "zfs.pool.import_pool"
                [guid vol; "altroot=/mnt"; "cachefile=" ++ zpool_cache_file]
                (if mw_import_pool mw (guid vol) then Some tt else None) s) as [v Hv].
    destruct (run_call mw _ _ _ s) as [o s1] eqn:E. simpl in Hv. subst o.
    unfold ret at 1 in H.
    unfold bind at 1 in H.
    destruct (run_call mw "failover.unlock_zfs_datasets" _ _ s1) as [[u|e] s2].
    + unfold bind at 1 in H. destruct u as [u|]; simpl in H.
      * eapply IH; eauto.
      * discriminate.
    + discriminate.
Qed.

(** C3.  A MASTER event arrives while the only pool, tank, is not imported,
    and the import of tank raises.  All N = 1 imports have failed, so the
    result is to be ERROR and no post-import step is to run.  Instead the
    job's result is never set, every post-import step runs (status refresh,
    configuration, service restarts), and the flag ends up True. *)
Theorem event_all_imports_fail :
  let mw := with_pool_manager (fun _ => false) (fun _ _ => 0)
                              (healthy [tank "OFFLINE"] [eth0]) in
  let '(r, s) := event mw "eth0" "MASTER" initial_state in
  r = Ret None /\
  job_result s = None /\
  failover_successful s = true /\
  methods s =
    ["pool.query"; "datastore.query"; "failover.config"; "interface.query";
     "failover.internal_interfaces"; "failover.remote_connected"; "pool.query";
     "failover.events.validate"; "failover.events.vrrp_master";
     "failover.fenced.stop"; "failover.fenced.start";
     "zfs.pool.import_pool"; "failover.unlock_zfs_datasets";
     "failover.status_refresh"; "etc.generate"; "etc.generate"; "etc.generate";
     "service.restart"; "etc.generate"; "disk.sync_all"; "enclosure.sync_zpool";
     "service.restart"; "service.restart"; "alert.block_failover_alerts";
     "alert.initialize"; "kmip.config"; "failover.status_refresh"].
Proof. vm_compute. repeat split. Qed.

(** The same with two pools of which one fails to import: the result is
    not set to ERROR either. *)
Lemma vrrp_master_one_import_fails :
  let mw := with_pool_manager (fun g => String.eqb g "g2") (fun _ _ => 0)
              (healthy [tank "OFFLINE"; mkVolume "dozer" "g2" "OFFLINE"] [eth0]) in
  let fobj := mkFailoverData (Some []) false true 2 [(1, ["eth0"])]
                (Some [tank "OFFLINE"; mkVolume "dozer" "g2" "OFFLINE"]) [] (Some []) in
  let '(r, s) := vrrp_master mw fobj "eth0" "MASTER" true false initial_state in
  r = Ret true /\ job_result s = None /\ count_method "service.restart" s = 3.
Proof. vm_compute. repeat split. Qed.

(** ** Fencing that fails *)

(** X1.  In a MASTER transition fenced is never started without having
    been stopped just before, on the forced path and on the normal one;
    the only other way out of the fencing step is after the check of the
    failover group alone. *)
Theorem master_fencing_stops_before_start :
  forall mw fobj ifname ff ft s,
    let s' := snd (master_fencing mw fobj ifname ff ft s) in
    (exists start,
        method start = "failover.fenced.start" /\
        (calls s' = (calls s ++ [fenced_stop_call; start])%list \/
         calls s' = (calls s ++ [check_group_call ifname; fenced_stop_call; start])%list)) \/
    calls s' = (calls s ++ [check_group_call ifname])%list.
Proof.
  intros mw fobj ifname ff ft s. simpl.
  destruct s as [fl cl jp jr fls kw pb clk al ig mt rf].
  unfold master_fencing, run_call_, run_call, call_sync, try_except, bind, modify,
         blocking, ret, subscript_of, job_set_result, _zpool_export_sig_alarm, raise.
  simpl.
  repeat destruct_match;
    repeat rewrite <- app_assoc; simpl;
    first [ right; reflexivity
          | left; eexists; split; [| left; reflexivity]; reflexivity
          | left; eexists; split; [| right; reflexivity]; reflexivity ].
Qed.

(** Any exit code of fenced other than 0 ends the transition where it
    stands, returning the flag. *)
Lemma vrrp_master_fencing_error :
  forall mw fobj ifname ev ff ft s code s1,
    master_fencing mw fobj ifname ff ft (set_job_progress (Some "ELECTING") s)
    = (Ret code, s1) ->
    truthy_code code = true ->
    vrrp_master mw fobj ifname ev ff ft s = (Ret (failover_successful s1), s1).
Proof.
  intros mw fobj ifname ev ff ft s code s1 Hf Hc.
  unfold vrrp_master. unfold bind at 1. unfold job_set_progress at 1, modify at 1.
  unfold bind at 1. rewrite Hf, Hc. reflexivity.
Qed.

(** C4.  Fenced exits with code 3 on a node whose flag is True from an
    earlier transition.  No import and no restart follows, as the claim
    says; but the result of the job is never set to ERROR and the
    transition returns True, the stale flag. *)
Theorem vrrp_master_fencing_fails :
  let mw := with_fenced 3 (healthy [tank "OFFLINE"] [eth0]) in
  let s0 := set_failover_successful true initial_state in
  let '(r, s) := vrrp_master mw (tank_snapshot "OFFLINE") "eth0" "MASTER" true false s0 in
  r = Ret true /\
  job_result s = None /\
  methods s = ["failover.fenced.stop"; "failover.fenced.start"] /\
  fst (event mw "eth0" "MASTER" s0) = Ret None.
Proof. vm_compute. repeat split. Qed.

(** ** forcetakeover *)

(** Whenever the snapshot can be built, a forcetakeover event ends in
    UnboundLocalError right after the call of [validate]. *)
Lemma _event_forcetakeover :
  forall mw ifname s fobj s0,
    generate_failover_data mw s = (Ret fobj, s0) ->
    _event mw ifname "forcetakeover" s =
    (Raise UnboundLocalError,
     set_calls (calls s0 ++ [mkCall "failover.events.validate" [ifname; "forcetakeover"]]) s0).
Proof.
  intros mw ifname s fobj s0 Hg. unfold _event. simpl String.eqb.
  unfold bind at 1. rewrite Hg. reflexivity.
Qed.

(** C5.  A forcetakeover event skips the soft checks, but [force_fenced] is
    only assigned on the path that is not forced: reading it for the call of
    [vrrp_master] raises UnboundLocalError.  No MASTER transition is started
    and fenced is neither stopped nor started. *)
Theorem event_forcetakeover_unbound :
  let mw := healthy [tank "OFFLINE"] [eth0] in
  let '(r, s) := event mw "eth0" "forcetakeover" initial_state in
  r = Raise UnboundLocalError /\
  methods s =
    ["pool.query"; "datastore.query"; "failover.config"; "interface.query";
     "failover.internal_interfaces"; "failover.events.validate";
     "failover.status_refresh"] /\
  count_method "failover.events.vrrp_master" s = 0 /\
  count_method "failover.fenced.start" s = 0.
Proof. vm_compute. repeat split. Qed.

(** The transition itself, called with the flag of a forced takeover,
    stops fenced and then starts it with force. *)
Lemma vrrp_master_forced_fencing :
  forall mw fobj ifname ff ft s,
    (ft || ff = true)%bool -> alarm s = None ->
    let '(r, s') := master_fencing mw fobj ifname ff ft s in
    r = Ret (mw_fenced_start mw true) /\
    calls s' = (calls s ++ [mkCall "failover.fenced.stop" [];
                            mkCall "failover.fenced.start" ["force=True"]])%list.
Proof.
  intros mw fobj ifname ff ft s Hf Ha. unfold master_fencing. rewrite Hf.
  destruct s; simpl in *; subst.
  unfold run_call_, run_call, call_sync, try_except, bind, modify, blocking, ret; simpl.
  destruct (mw_succeeds mw "failover.fenced.stop" []); simpl;
    destruct (mw_fenced_start mw true); simpl; rewrite <- app_assoc; auto.
Qed.

(** ** Non-critical interfaces *)

Lemma prefix_refl : forall s, prefix s s = true.
Proof.
  induction s as [|c s IH]; simpl; [reflexivity|].
  destruct (ascii_dec c c); [exact IH | congruence].
Qed.

Lemma str_in_refl : forall s, str_in s s = true.
Proof.
  intros s. unfold str_in. destruct s as [|c s]; [reflexivity|].
  simpl index. 
  assert (H : prefix (String c s) (String c s) = true) by apply prefix_refl.
  simpl in H. rewrite H. reflexivity.
Qed.

(** An event on an interface of the non-critical set is ignored (unless
    the check before already ignored it). *)
Lemma soft_checks_non_critical :
  forall mw fobj ifname ev s,
    In ifname (fo_non_crit_interfaces fobj) ->
    fst (soft_checks mw fobj ifname ev false s) = Raise IgnoreFailoverEvent.
Proof.
  intros mw fobj ifname ev s Hi. unfold soft_checks. simpl negb. cbv iota zeta.
  unfold bind at 1.
  destruct (fo_disabled fobj && negb (fo_master fobj))%bool; simpl; [reflexivity|].
  unfold bind at 1.
  destruct (filter (fun i => str_in i ifname) (fo_non_crit_interfaces fobj))
    as [|x l] eqn:E; simpl; [|reflexivity].
  exfalso.
  assert (H : In ifname (filter (fun i => str_in i ifname) (fo_non_crit_interfaces fobj))).
  { apply filter_In. split; [exact Hi | apply str_in_refl]. }
  rewrite E in H. exact H.
Qed.

(** C7.  eth1 is the only non-critical interface; a MASTER event arrives for
    eth10, which is critical and not in the non-critical set.  The event is
    to pass this check.  It is ignored by it: the test is whether the name
    of a non-critical interface occurs inside the name of the event's
    interface. *)
Theorem event_on_eth10_ignored :
  let mw := healthy [tank "OFFLINE"]
                    [mkInterface "eth1" false 0; mkInterface "eth10" true 1] in
  let '(r, s) := vrrp_fifo_hook mw (fifo_line "eth10" "MASTER") initial_state in
  str_mem "eth10" ["eth1"] = false /\
  r = Ret tt /\
  ignored s = 1 /\
  published s = [("eth10", "MASTER")] /\
  methods s =
    ["pool.query"; "datastore.query"; "failover.config"; "interface.query";
     "failover.internal_interfaces"].
Proof. vm_compute. repeat split. Qed.

(** ** The export deadline *)

Lemma kernel_kept_ret : forall s, kernel_kept s None s.
Proof. reflexivity. Qed.

Lemma kernel_kept_seq :
  forall s x1 s1 x2 s2,
    kernel_kept s x1 s1 -> kernel_kept s1 x2 s2 -> kernel_kept s x2 s2.
Proof. unfold kernel_kept. intros. congruence. Qed.

Lemma kernel_kept_catch :
  forall s (x : option Exn) s', kernel_kept s x s' -> kernel_kept s None s'.
Proof. unfold kernel_kept. auto. Qed.

Ltac kernel_kept_tac :=
  repeat holds_step kernel_kept_ret kernel_kept_seq kernel_kept_catch;
  try (holds_prim; reflexivity).

(** X2.  On no input does a BACKUP transition get anything into the kernel
    files: the reboot is never triggered. *)
Theorem vrrp_backup_never_reboots :
  forall mw fobj ifname ev ff, holds kernel_kept (vrrp_backup mw fobj ifname ev ff).
Proof. intros. kernel_kept_tac. Qed.

(** C2.  BACKUP transition of a node whose pool tank takes ten seconds to
    export, so that the alarm of four seconds expires during the export.
    The reboot trigger is to be invoked once and the removal of the marker
    never reached.  Instead the exception of the alarm handler ends inside
    [run_call], nothing is written to the kernel files, the marker is
    removed and the transition completes as a success. *)
Theorem vrrp_backup_export_overruns :
  let mw := with_pool_manager (fun _ => true) slow_export
                              (healthy [tank "ONLINE"] [eth0]) in
  let '(r, s) := vrrp_backup mw (tank_snapshot "ONLINE") "eth0" "BACKUP" false
                             initial_state in
  r = Ret true /\
  Nat.leb zpool_export_timeout (clock s) = true /\
  kernel_writes s = [] /\
  fs_exists watchdog_alert_file s = false /\
  count_method "zfs.pool.export" s = 1 /\
  count_method "failover.status_refresh" s = 1.
Proof. vm_compute. repeat split. Qed.

(** When the handler of the timeout is reached (here the export loop raises
    at once, the code sleeps five seconds and the alarm expires), it cannot
    write either: both kernel files are opened read-only. *)
Lemma vrrp_backup_timeout_handler :
  let mw := healthy [tank "ONLINE"] [eth0] in
  let '(r, s) := vrrp_backup mw no_volumes_snapshot "eth0" "BACKUP" false
                             initial_state in
  r = Raise UnsupportedOperation /\
  kernel_writes s = [] /\
  fs_exists watchdog_alert_file s = true.
Proof. vm_compute. repeat split. Qed.

(** ** The cache files *)

Lemma set_fs_same : forall s, set_fs (fs s) s = s.
Proof. intros []; reflexivity. Qed.

Lemma set_fs_twice : forall a b s, set_fs a (set_fs b s) = set_fs a s.
Proof. intros a b []; reflexivity. Qed.

Lemma suppress_unlink_fs :
  forall p s, exists l, suppress (os_unlink p) s = (Ret tt, set_fs l s).
Proof.
  intros p s.
  unfold suppress, try_except, os_unlink, os_path_exists, refuses, bind, get,
         modify, raise, ret.
  destruct (fs_exists p s); [destruct (refused s (OpUnlink p))|];
    try (exists (fs s); rewrite set_fs_same; reflexivity).
  eexists. reflexivity.
Qed.

Lemma suppress_open_w_fs :
  forall p s, exists l, suppress (open_w p) s = (Ret tt, set_fs l s).
Proof.
  intros p s.
  unfold suppress, try_except, open_w, refuses, bind, get, modify, raise, ret.
  destruct (refused s (OpOpenW p)).
  - exists (fs s). rewrite set_fs_same. reflexivity.
  - eexists. reflexivity.
Qed.

(** The bookkeeping of the cache files never fails and touches nothing
    but files. *)
Lemma master_kill_cache_fs :
  forall s, exists l, master_kill_cache s = (Ret tt, set_fs l s).
Proof.
  intros s. unfold master_kill_cache, bind, os_path_exists, get.
  destruct (fs_exists zpool_killcache s).
  - simpl for_each. unfold bind.
    destruct (suppress_unlink_fs zpool_cache_file s) as [l1 H1]. rewrite H1.
    destruct (suppress_unlink_fs zpool_cache_file_saved (set_fs l1 s)) as [l2 H2].
    rewrite H2. unfold ret. rewrite set_fs_twice. eexists. reflexivity.
  - apply suppress_open_w_fs.
Qed.

Lemma master_saved_cache_fs :
  forall s, exists l, master_saved_cache s = (Ret tt, set_fs l s).
Proof.
  intros s. unfold master_saved_cache.
  generalize zpool_cache_file_saved, zpool_cache_file. intros p q.
  unfold bind, os_path_exists, get, fs_exists.
  destruct (fs_lookup p (fs s)) as [t1|] eqn:E1;
    destruct (fs_lookup q (fs s)) as [t2|] eqn:E2; simpl;
    try (exists (fs s); rewrite set_fs_same; reflexivity).
  unfold os_stat_mtime. cbv beta. rewrite E2. cbv beta iota. rewrite E1.
  destruct (Nat.ltb t1 t2); simpl.
  - unfold suppress, try_except, shutil_copy2, refuses, bind, os_stat_mtime,
           get, modify, raise, ret.
    rewrite E2. destruct (refused s (OpCopy q p)).
    + exists (fs s). rewrite set_fs_same. reflexivity.
    + eexists. reflexivity.
  - exists (fs s). rewrite set_fs_same. reflexivity.
Qed.

(** C10.  With no volume in the snapshot, a MASTER transition that got past
    fenced takes the branch of the total failure: the job's result becomes
    ERROR and the transition returns the flag, with no call made after the
    start of fenced: no import and no post-import step. *)
Theorem vrrp_master_no_volumes :
  forall mw fobj ifname ev ff ft s code s1,
    fo_volumes fobj = Some [] ->
    master_fencing mw fobj ifname ff ft (set_job_progress (Some "ELECTING") s)
    = (Ret code, s1) ->
    truthy_code code = false ->
    let '(r, s') := vrrp_master mw fobj ifname ev ff ft s in
    r = Ret (failover_successful s1) /\
    job_result s' = Some "ERROR" /\
    job_progress s' = Some "IMPORTING" /\
    calls s' = calls s1 /\
    failover_successful s' = failover_successful s1.
Proof.
  intros mw fobj ifname ev ff ft s code s1 Hv Hf Hc.
  unfold vrrp_master. unfold bind at 1. unfold job_set_progress at 1, modify at 1.
  unfold bind at 1. rewrite Hf, Hc.
  unfold bind at 1. destruct (master_kill_cache_fs s1) as [l1 H1]. rewrite H1.
  unfold bind at 1. destruct (master_saved_cache_fs (set_fs l1 s1)) as [l2 H2].
  rewrite H2, Hv. destruct s1; simpl. repeat split.
Qed.

(** The theorem at work: a forced MASTER transition on a healthy node
    without pools. *)
Lemma vrrp_master_no_volumes_witness :
  let mw := healthy [] [eth0] in
  let after_fencing :=
    mkState false
            [mkCall "failover.fenced.stop" [];
             mkCall "failover.fenced.start" ["force=True"]]
            (Some "ELECTING") None [] [] [] 0 None 0 true (fun _ => false) in
  fo_volumes no_pools_snapshot = Some [] /\
  master_fencing mw no_pools_snapshot "eth0" true false
                 (set_job_progress (Some "ELECTING") initial_state)
  = (Ret (Some 0%Z), after_fencing) /\
  truthy_code (Some 0%Z) = false /\
  let '(r, s') := vrrp_master mw no_pools_snapshot "eth0" "MASTER" true false
                              initial_state in
  r = Ret false /\
  job_result s' = Some "ERROR" /\
  job_progress s' = Some "IMPORTING" /\
  calls s' = calls after_fencing /\
  failover_successful s' = false.
Proof.
  split; [reflexivity|]. split; [reflexivity|]. split; [reflexivity|].
  exact (vrrp_master_no_volumes (healthy [] [eth0]) no_pools_snapshot
           "eth0" "MASTER" true false initial_state (Some 0%Z)
           (mkState false
                    [mkCall "failover.fenced.stop" [];
                     mkCall "failover.fenced.start" ["force=True"]]
                    (Some "ELECTING") None [] [] [] 0 None 0 true (fun _ => false))
           eq_refl eq_refl eq_refl).
Defined.

(** ** Pools that are already imported *)

Lemma quiet_ret : forall s, quiet s None s.
Proof.
  intros s. unfold quiet. repeat split; auto.
  exists []. rewrite app_nil_r. split; reflexivity.
Qed.

Lemma quiet_seq :
  forall s x1 s1 x2 s2, quiet s x1 s1 -> quiet s1 x2 s2 -> quiet s x2 s2.
Proof.
  unfold quiet.
  intros s x1 s1 x2 s2 ((n1 & Hc1 & Hq1) & Hf1 & Hr1 & Hp1 & Hs1 & Hk1 & Ha1)
         ((n2 & Hc2 & Hq2) & Hf2 & Hr2 & Hp2 & Hs2 & Hk2 & Ha2).
  repeat split; try congruence; auto.
  exists (n1 ++ n2)%list. rewrite Hc2, Hc1, app_assoc, forallb_app, Hq1, Hq2.
  split; reflexivity.
Qed.

Lemma quiet_catch :
  forall s (x : option Exn) s', quiet s x s' -> quiet s None s'.
Proof. unfold quiet. auto. Qed.

(** Logging a read-only call is quiet. *)
Lemma quiet_log :
  forall m a,
    is_query (mkCall m a) = true ->
    holds quiet (modify (fun s => set_calls (calls s ++ [mkCall m a]) s)).
Proof.
  intros m a H s. destruct s. unfold quiet, modify. simpl.
  repeat split; auto. eexists. split; [reflexivity|]. simpl. rewrite H. reflexivity.
Qed.

Ltac quiet_tac :=
  repeat first
    [ apply quiet_log; reflexivity
    | holds_step quiet_ret quiet_seq quiet_catch ];
  try (holds_prim; unfold quiet; simpl; repeat split; auto;
       try discriminate;
       exists []; rewrite app_nil_r; split; reflexivity).

Lemma needs_import_quiet :
  forall mw vols, holds quiet (needs_import mw vols).
Proof.
  intros mw vols. induction vols as [|v vols IH]; simpl; quiet_tac.
Qed.
#[export] Hint Resolve needs_import_quiet : failover_holds.

Lemma generate_failover_data_quiet :
  forall mw, holds quiet (generate_failover_data mw).
Proof. intros mw. quiet_tac. Qed.

Lemma soft_checks_quiet :
  forall mw fobj ifname ev ft, holds quiet (soft_checks mw fobj ifname ev ft).
Proof. intros. quiet_tac. Qed.


Lemma generate_failover_data_volumes :
  forall mw s fobj s0,
    alarm s = None ->
    generate_failover_data mw s = (Ret fobj, s0) ->
    fo_volumes fobj = mw_pools mw.
Proof.
  intros mw s fobj s0 Ha H. unfold generate_failover_data in H.
  do 5 run_call_in H.
  repeat (apply bind_ret_inv in H; destruct H as (? & ? & _ & H)).
  unfold ret in H. inversion H. reflexivity.
Qed.

Lemma needs_import_online :
  forall mw vols s,
    forallb (requery_online mw) vols = true ->
    alarm s = None ->
    fst (needs_import mw vols s) = Ret false.
Proof.
  intros mw vols.
  induction vols as [|v vols IH]; intros s Ho Ha; [reflexivity|].
  cbn [forallb] in Ho. apply andb_true_iff in Ho. destruct Ho as [Hv Ho].
  unfold requery_online in Hv.
  simpl. run_call_goal.
  destruct (mw_pool_get mw (name v)) as [z|]; [|discriminate].
  unfold bind, subscript_of, ret. unfold online in Hv.
  rewrite Hv. simpl. apply IH; assumption.
Qed.

(** With every pool found ONLINE the soft checks end in an ignored event
    or in the plain return. *)
Lemma soft_checks_online :
  forall mw fobj ifname ev pools s,
    fo_volumes fobj = Some pools ->
    forallb (requery_online mw) pools = true ->
    alarm s = None ->
    match fst (soft_checks mw fobj ifname ev false s) with
    | Ret None => True
    | Raise IgnoreFailoverEvent => True
    | _ => False
    end.
Proof.
  intros mw fobj ifname ev pools s Hv Ho Ha.
  assert (Hn : forall s2, alarm s2 = None ->
            fst ((volumes <- iter_of (fo_volumes fobj) ;;
                  needs_imported <- needs_import mw volumes ;;
                  if negb needs_imported
                  then ret (@None (string * option bool))
                  else ret (Some ("MASTER", Some needs_imported))) s2) = Ret None).
  { intros s2 Ha2. rewrite Hv. unfold iter_of. rewrite bind_ret_l.
    unfold bind.
    pose proof (needs_import_online mw pools s2 Ho Ha2) as Hni.
    destruct (needs_import mw pools s2) as [r s3]. simpl in Hni. subst r.
    reflexivity. }
  unfold soft_checks. simpl negb. cbv iota zeta.
  unfold bind at 1.
  destruct (fo_disabled fobj && negb (fo_master fobj))%bool; simpl;
    [exact I|].
  unfold bind at 1.
  destruct (negb (is_nil (filter (fun i => str_in i ifname)
                                 (fo_non_crit_interfaces fobj)))); simpl;
    [exact I|].
  run_call_goal.
  unfold bind at 1.
  destruct (truthy (mw_remote_connected mw)); simpl.
  - run_call_goal.
    destruct (match mw_remote_status mw with
              | Some r => String.eqb r "MASTER"
              | None => false
              end); simpl; [exact I|].
    rewrite Hn by assumption. exact I.
  - rewrite Hn by assumption. exact I.
Qed.

(** C6, as amended.  An event that is not forced arrives when the query
    for each volume of the snapshot, made by name once the snapshot is
    built, finds the pool ONLINE, whatever status the snapshot itself
    holds: [event] returns None without error, the only collaborator calls
    made are read-only ones, no transition is dispatched, fenced and the
    pools are left alone, no service is restarted, and flag, job result and
    files are as before. *)
Theorem event_pools_online_noop :
  forall mw ifname ev s fobj s0 vols,
    String.eqb ev "forcetakeover" = false ->
    alarm s = None ->
    generate_failover_data mw s = (Ret fobj, s0) ->
    fo_volumes fobj = Some vols ->
    forallb (requery_online mw) vols = true ->
    let '(r, s') := event mw ifname ev s in
    r = Ret None /\
    (exists new, calls s' = (calls s ++ new)%list /\ forallb is_query new = true) /\
    failover_successful s' = failover_successful s /\
    job_result s' = job_result s /\
    fs s' = fs s /\
    kernel_writes s' = kernel_writes s.
Proof.
  intros mw ifname ev s fobj s0 vols Hev Ha Hg Hv Ho.
  pose proof (generate_failover_data_quiet mw s) as Q0.
  rewrite Hg in Q0. simpl in Q0.
  assert (Ha0 : alarm s0 = None) by (apply Q0, Ha).
  pose proof (soft_checks_quiet mw fobj ifname ev false s0) as Q1.
  pose proof (soft_checks_online mw fobj ifname ev vols s0 Hv Ho Ha0) as Hs.
  assert (He : _event mw ifname ev s =
               (let '(r, s1) := soft_checks mw fobj ifname ev false s0 in
                match r with
                | Ret _ => (Ret None, s1)
                | Raise e => (Raise e, s1)
                end)).
  { unfold _event. rewrite Hev. unfold bind at 1. rewrite Hg.
    unfold bind at 1.
    destruct (soft_checks mw fobj ifname ev false s0) as [[a|e] s1]; simpl in *.
    - destruct a; [contradiction | reflexivity].
    - reflexivity. }
  rewrite event_spec, He.
  destruct (soft_checks mw fobj ifname ev false s0) as [[a|e] s1]; simpl in *.
  - pose proof (quiet_seq _ _ _ _ _ Q0 Q1) as Q2.
    assert (Q3 : quiet s1 None (snd (run_call_ mw "failover.status_refresh" [] s1))).
    { assert (H : holds quiet (run_call_ mw "failover.status_refresh" [])) by quiet_tac.
      pose proof (H s1) as H1. eapply quiet_catch. exact H1. }
    pose proof (quiet_seq _ _ _ _ _ Q2 Q3) as (Hc & Hf & Hr & _ & Hfs & Hk & _).
    repeat split; assumption.
  - destruct e; try contradiction.
    pose proof (quiet_seq _ _ _ _ _ Q0 Q1) as (Hc & Hf & Hr & _ & Hfs & Hk & _).
    repeat split; assumption.
Qed.

(** The theorem at work: a MASTER event on a node whose snapshot lists the
    pool tank as OFFLINE while the query for tank finds it ONLINE. *)
Lemma event_pools_online_noop_witness :
  let mw := with_requery (fun _ => Some (tank "ONLINE"))
                         (healthy [tank "OFFLINE"] [eth0]) in
  let s0 := snd (generate_failover_data mw initial_state) in
  String.eqb "MASTER" "forcetakeover" = false /\
  alarm initial_state = None /\
  generate_failover_data mw initial_state = (Ret (tank_snapshot "OFFLINE"), s0) /\
  fo_volumes (tank_snapshot "OFFLINE") = Some [tank "OFFLINE"] /\
  forallb (requery_online mw) [tank "OFFLINE"] = true /\
  let '(r, s') := event mw "eth0" "MASTER" initial_state in
  r = Ret None /\
  (exists new, calls s' = (calls initial_state ++ new)%list /\
               forallb is_query new = true) /\
  failover_successful s' = failover_successful initial_state /\
  job_result s' = job_result initial_state /\
  fs s' = fs initial_state /\
  kernel_writes s' = kernel_writes initial_state.
Proof.
  split; [reflexivity|]. split; [reflexivity|].
  split; [vm_compute; reflexivity|].
  split; [reflexivity|]. split; [reflexivity|].
  apply (event_pools_online_noop
           (with_requery (fun _ => Some (tank "ONLINE"))
                         (healthy [tank "OFFLINE"] [eth0]))
           "eth0" "MASTER" initial_state (tank_snapshot "OFFLINE")
           (snd (generate_failover_data
                   (with_requery (fun _ => Some (tank "ONLINE"))
                                 (healthy [tank "OFFLINE"] [eth0]))
                   initial_state))
           [tank "OFFLINE"]); vm_compute; reflexivity.
Defined.

(** C6 as it is stated fails: the snapshot lists tank as ONLINE, the query
    for tank made afterwards finds it OFFLINE, and the event starts a
    MASTER transition that starts fenced with force, imports the pool,
    restarts services and sets the flag. *)
Lemma event_snapshot_online_dispatches :
  let mw := with_requery (fun _ => Some (tank "OFFLINE"))
                         (healthy [tank "ONLINE"] [eth0]) in
  let s0 := snd (generate_failover_data mw initial_state) in
  let s' := snd (event mw "eth0" "MASTER" initial_state) in
  String.eqb "MASTER" "forcetakeover" = false /\
  generate_failover_data mw initial_state = (Ret (tank_snapshot "ONLINE"), s0) /\
  fo_volumes (tank_snapshot "ONLINE") = Some [tank "ONLINE"] /\
  forallb online [tank "ONLINE"] = true /\
  count_method "failover.events.vrrp_master" s' = 1 /\
  In (mkCall "failover.fenced.start" ["force=True"]) (calls s') /\
  count_method "zfs.pool.import_pool" s' = 1 /\
  In (mkCall "service.restart" ["http"]) (calls s') /\
  failover_successful s' = true /\
  failover_successful initial_state = false.
Proof. vm_compute. intuition. Qed.

(** ** The calls a run can make *)

Lemma only_calls_ret : forall P s, only_calls P s None s.
Proof. intros P s. exists []. rewrite app_nil_r. split; reflexivity. Qed.

Lemma only_calls_seq :
  forall P s x1 s1 x2 s2,
    only_calls P s x1 s1 -> only_calls P s1 x2 s2 -> only_calls P s x2 s2.
Proof.
  intros P s x1 s1 x2 s2 (n1 & H1 & Q1) (n2 & H2 & Q2).
  exists (n1 ++ n2)%list. rewrite H2, H1, app_assoc, forallb_app, Q1, Q2.
  split; reflexivity.
Qed.

Lemma only_calls_catch :
  forall P s (x : option Exn) s', only_calls P s x s' -> only_calls P s None s'.
Proof. intros P s x s' H. exact H. Qed.

Lemma holds_bind_val :
  forall (Q : State -> option Exn -> State -> Prop),
    (forall s x1 s1 x2 s2, Q s x1 s1 -> Q s1 x2 s2 -> Q s x2 s2) ->
    forall (A B : Type) (m : M A) (f : A -> M B) (V : A -> Prop),
      holds Q m ->
      (forall s a s', m s = (Ret a, s') -> V a) ->
      (forall a, V a -> holds Q (f a)) ->
      holds Q (bind m f).
Proof.
  intros Q Hseq A B m f V Hm HV Hf s. unfold bind.
  specialize (Hm s). specialize (HV s).
  destruct (m s) as [[a|e] s1]; simpl in *.
  - eapply Hseq; [exact Hm | apply Hf; eapply HV; reflexivity].
  - exact Hm.
Qed.

(** The leaves: a logged call that satisfies the predicate, or an
    operation that logs nothing. *)
Ltac only_calls_tac P :=
  repeat holds_step (only_calls_ret P) (only_calls_seq P) (only_calls_catch P);
  try (holds_prim; unfold only_calls; simpl;
       first [ exists []; split; [symmetry; apply app_nil_r | reflexivity]
             | eexists; split; [reflexivity | reflexivity] ]).

Lemma master_import_through_event :
  forall mw vols failed, holds (only_calls through_event) (master_import mw vols failed).
Proof.
  intros mw vols. induction vols as [|v vols IH]; intros failed; simpl;
    only_calls_tac through_event; apply IH.
Qed.

#[export] Hint Resolve master_import_through_event : failover_holds.

Lemma needs_import_through_event :
  forall mw vols, holds (only_calls through_event) (needs_import mw vols).
Proof.
  intros mw vols. induction vols as [|v vols IH]; simpl;
    only_calls_tac through_event.
Qed.

#[export] Hint Resolve needs_import_through_event : failover_holds.

Lemma validate_through_event :
  forall mw ifname ev, holds (only_calls through_event) (validate mw ifname ev).
Proof.
  intros mw ifname ev s. rewrite validate_raises. apply only_calls_ret.
Qed.

#[export] Hint Resolve validate_through_event : failover_holds.

Lemma vrrp_master_forced_through_event :
  forall mw fobj ifname ev ft,
    holds (only_calls through_event) (vrrp_master mw fobj ifname ev true ft).
Proof.
  intros mw fobj ifname ev ft.
  unfold vrrp_master, master_fencing. rewrite orb_true_r.
  only_calls_tac through_event.
Qed.

Lemma _event_through_event :
  forall mw ifname ev, holds (only_calls through_event) (_event mw ifname ev).
Proof.
  intros mw ifname ev. unfold _event.
  apply holds_bind; [apply only_calls_seq | only_calls_tac through_event | intros fobj].
  eapply holds_bind_val;
    [ apply only_calls_seq
    | only_calls_tac through_event
    | intros s a s' H; exact (soft_checks_value _ _ _ _ _ _ _ _ H) |].
  intros a [Ha | [[Hf Ha] | [Hf Ha]]]; subst a.
  - apply holds_ret, only_calls_ret.
  - rewrite Hf. simpl.
    pose proof (vrrp_master_forced_through_event mw fobj ifname "MASTER" false).
    apply holds_bind; [apply only_calls_seq | only_calls_tac through_event | intros _].
    unfold local_of. rewrite bind_ret_l. only_calls_tac through_event.
  - apply String.eqb_eq in Hf. subst ev. simpl.
    only_calls_tac through_event.
Qed.

(** X3.  Whatever the event and whatever the collaborators answer, a run
    of [event] never asks for the check of the failover group, never starts
    a BACKUP transition, never exports a pool, and starts fenced, if at all,
    with force. *)
Theorem event_never_backup_never_unforced :
  forall mw ifname ev s,
    exists new,
      calls (snd (event mw ifname ev s)) = (calls s ++ new)%list /\
      forallb through_event new = true.
Proof.
  intros mw ifname ev s.
  pose proof (_event_through_event mw ifname ev s) as H1.
  destruct (event_cases mw ifname ev s) as [[He _] | (s2 & He & Hc & _)];
    rewrite He; simpl.
  - exact H1.
  - destruct H1 as (new & Hn & Hq). exists (new ++ [status_refresh_call])%list.
    rewrite Hc, Hn, app_assoc, forallb_app, Hq. split; reflexivity.
Qed.

Lemma master_import_local_only :
  forall mw vols failed, holds (only_calls local_only) (master_import mw vols failed).
Proof.
  intros mw vols. induction vols as [|v vols IH]; intros failed; simpl;
    only_calls_tac local_only; apply IH.
Qed.

(** X4.  On every path of both transitions, each restart or stop of a
    service carries [ha_propagate: False]; the two exceptions are the
    restart of http in the MASTER transition and of keepalived in the
    BACKUP transition, which carry no option. *)
Theorem transitions_restart_locally :
  forall mw fobj ifname ev ff ft s,
    (exists new,
        calls (snd (vrrp_master mw fobj ifname ev ff ft s)) = (calls s ++ new)%list /\
        forallb local_only new = true) /\
    (exists new,
        calls (snd (vrrp_backup mw fobj ifname ev ff s)) = (calls s ++ new)%list /\
        forallb local_only new = true).
Proof.
  intros mw fobj ifname ev ff ft s.
  pose proof (master_import_local_only mw) as Hi.
  split.
  - assert (H : holds (only_calls local_only) (vrrp_master mw fobj ifname ev ff ft))
      by only_calls_tac local_only.
    exact (H s).
  - assert (H : holds (only_calls local_only) (vrrp_backup mw fobj ifname ev ff))
      by only_calls_tac local_only.
    exact (H s).
Qed.

(** X5.  [event] never lets IgnoreFailoverEvent out: an ignored event
    returns None.  Any other exception of [_event] goes on to the caller,
    and a value of [_event] is returned as it is. *)
Theorem event_outcome :
  forall mw ifname ev s,
    fst (event mw ifname ev s) <> Raise IgnoreFailoverEvent /\
    (fst (_event mw ifname ev s) = Raise IgnoreFailoverEvent ->
     fst (event mw ifname ev s) = Ret None) /\
    (fst (_event mw ifname ev s) <> Raise IgnoreFailoverEvent ->
     fst (event mw ifname ev s) = fst (_event mw ifname ev s)).
Proof.
  intros mw ifname ev s. rewrite event_spec.
  destruct (_event mw ifname ev s) as [[v|e] s1]; simpl.
  - repeat split; [discriminate | discriminate].
  - destruct e; simpl; repeat split; try discriminate; try congruence.
Qed.

(** X6.  The token of an event that is not forcetakeover plays no part:
    two such events on the same interface are handled in exactly the same
    way, a BACKUP event like a MASTER event. *)
Theorem event_token_irrelevant :
  forall mw ifname ev1 ev2 s,
    ev1 <> "forcetakeover" -> ev2 <> "forcetakeover" ->
    event mw ifname ev1 s = event mw ifname ev2 s.
Proof.
  intros mw ifname ev1 ev2 s H1 H2.
  apply String.eqb_neq in H1. apply String.eqb_neq in H2.
  assert (H : _event mw ifname ev1 s = _event mw ifname ev2 s).
  { unfold _event. rewrite H1, H2. reflexivity. }
  rewrite !event_spec, H. reflexivity.
Qed.

Lemma event_token_irrelevant_witness :
  "BACKUP" <> "forcetakeover" /\ "MASTER" <> "forcetakeover" /\
  event (healthy [tank "OFFLINE"] [eth0]) "eth0" "BACKUP" initial_state
  = event (healthy [tank "OFFLINE"] [eth0]) "eth0" "MASTER" initial_state.
Proof.
  split; [discriminate|]. split; [discriminate|].
  apply (event_token_irrelevant (healthy [tank "OFFLINE"] [eth0]) "eth0"
           "BACKUP" "MASTER" initial_state); discriminate.
Defined.

(** ** The snapshot *)

(** A [run_call] logs its call, whatever becomes of it. *)
Lemma run_call_logs :
  forall mw (A : Type) m a (answer : option A) s,
    exists v s', run_call mw m a answer s = (Ret v, s') /\
                 calls s' = (calls s ++ [mkCall m a])%list /\
                 (v = None \/ v = answer) /\
                 (alarm s = None -> v = answer /\ alarm s' = None).
Proof.
  intros mw A m a answer s. destruct s as [fl cl jp jr fls kw pb clk al ig mt rf].
  unfold run_call, call_sync, try_except, bind, modify, blocking, ret,
         _zpool_export_sig_alarm, raise; simpl.
  destruct al as [t|]; simpl.
  - destruct (Nat.leb t _); simpl.
    + destruct mt; simpl.
      * do 2 eexists. repeat split; auto; discriminate.
      * destruct answer; simpl; do 2 eexists; repeat split; auto; discriminate.
    + destruct answer; simpl; do 2 eexists; repeat split; auto; discriminate.
  - destruct answer; simpl; do 2 eexists; repeat split; auto.
Qed.

Ltac run_call_logs_goal :=
  unfold bind at 1;
  match goal with
  | |- context [run_call ?mw ?m ?a ?ans ?s] =>
      let v := fresh "v" in
      let s' := fresh "s" in
      let E := fresh "E" in
      let Hc := fresh "Hc" in
      let Hv := fresh "Hv" in
      let Ha := fresh "Hal" in
      destruct (run_call_logs mw _ m a ans s) as (v & s' & E & Hc & Hv & Ha);
      rewrite E; clear E
  end.

(** X7.  Building the snapshot always makes the same five queries in the
    same order, also when one of them fails or the snapshot cannot be
    built. *)
Theorem generate_failover_data_queries :
  forall mw s,
    calls (snd (generate_failover_data mw s)) = (calls s ++ snapshot_queries)%list.
Proof.
  intros mw s. unfold generate_failover_data.
  do 5 run_call_logs_goal.
  assert (Hc4 : calls s4 = (calls s ++ snapshot_queries)%list).
  { rewrite Hc3, Hc2, Hc1, Hc0, Hc. repeat rewrite <- app_assoc. reflexivity. }
  unfold bind, subscript_of, filter_list, iter_of, ret, raise.
  destruct v1; simpl; [|exact Hc4].
  destruct v2; simpl; exact Hc4.
Qed.

Lemma group_members_append_same :
  forall g i groups,
    group_members g (groups_append g i groups) = (group_members g groups ++ [i])%list.
Proof.
  intros g i groups. induction groups as [|[h l] rest IH]; simpl.
  - rewrite Nat.eqb_refl. reflexivity.
  - destruct (Nat.eqb g h) eqn:E; simpl; rewrite E; [reflexivity | exact IH].
Qed.

Lemma group_members_append_other :
  forall g g' i groups,
    g' <> g ->
    group_members g' (groups_append g i groups) = group_members g' groups.
Proof.
  intros g g' i groups Hne. induction groups as [|[h l] rest IH]; simpl.
  - apply Nat.eqb_neq in Hne. rewrite Hne. reflexivity.
  - destruct (Nat.eqb g h) eqn:E; simpl.
    + apply Nat.eqb_eq in E. subst h.
      apply Nat.eqb_neq in Hne. rewrite Hne. reflexivity.
    + rewrite IH. reflexivity.
Qed.

Lemma groups_append_keys :
  forall g i groups,
    map fst (groups_append g i groups) = map fst groups \/
    (~ In g (map fst groups) /\
     map fst (groups_append g i groups) = (map fst groups ++ [g])%list).
Proof.
  intros g i groups. induction groups as [|[h l] rest IH]; simpl.
  - right. split; [tauto | reflexivity].
  - destruct (Nat.eqb g h) eqn:E; simpl.
    + left. reflexivity.
    + apply Nat.eqb_neq in E. destruct IH as [IH | [Hn IH]].
      * left. rewrite IH. reflexivity.
      * right. split; [intros [H|H]; [congruence | tauto] | rewrite IH; reflexivity].
Qed.

Lemma groups_append_NoDup :
  forall g i groups,
    NoDup (map fst groups) -> NoDup (map fst (groups_append g i groups)).
Proof.
  intros g i groups H. destruct (groups_append_keys g i groups) as [E | [Hn E]];
    rewrite E; [exact H|].
  apply NoDup_app; [exact H | constructor; [tauto | constructor] |].
  intros x Hx [Hg | []]. subst x. tauto.
Qed.

(** The groups built from a list of interfaces, starting from [groups]. *)
Lemma fold_groups :
  forall ifs groups,
    NoDup (map fst groups) ->
    let built := fold_left (fun g i => groups_append (failover_group i) (id i) g)
                           ifs groups in
    NoDup (map fst built) /\
    forall g, group_members g built =
              (group_members g groups ++
               map id (filter (fun i => Nat.eqb (failover_group i) g) ifs))%list.
Proof.
  intros ifs. induction ifs as [|i ifs IH]; intros groups Hnd; simpl.
  - split; [exact Hnd | intros g; rewrite app_nil_r; reflexivity].
  - destruct (IH (groups_append (failover_group i) (id i) groups)
                 (groups_append_NoDup _ _ _ Hnd)) as [H1 H2].
    split; [exact H1|]. intros g. rewrite H2.
    destruct (Nat.eqb (failover_group i) g) eqn:E.
    + apply Nat.eqb_eq in E. subst g. rewrite group_members_append_same.
      simpl. rewrite <- app_assoc. reflexivity.
    + apply Nat.eqb_neq in E.
      rewrite group_members_append_other by congruence. reflexivity.
Qed.

Lemma filter_filter :
  forall (A : Type) (p q : A -> bool) l,
    filter q (filter p l) = filter (fun x => p x && q x) l.
Proof.
  intros A p q l. induction l as [|x l IH]; simpl; [reflexivity|].
  destruct (p x); simpl; [destruct (q x); rewrite IH; reflexivity | exact IH].
Qed.

(** X8.  A snapshot that is built takes its HA settings from
    [failover.config] and sorts every interface of [interface.query] into
    exactly one place: the non-critical ones, in their order, into
    [non_crit_interfaces]; the critical ones, in their order, into the
    group of their [failover_group], and no group is listed twice.  Volumes
    and services are the answers of their queries, or None. *)
Theorem generate_failover_data_snapshot :
  forall mw s fobj s0,
    generate_failover_data mw s = (Ret fobj, s0) ->
    exists cfg ifs,
      mw_failover_config mw = Some cfg /\
      mw_interfaces mw = Some ifs /\
      fo_disabled fobj = cfg_disabled cfg /\
      fo_master fobj = cfg_master cfg /\
      fo_timeout fobj = cfg_timeout cfg /\
      fo_non_crit_interfaces fobj
      = map id (filter (fun i => negb (failover_critical i)) ifs) /\
      (forall g, group_members g (fo_groups fobj) = map id (filter (in_group g) ifs)) /\
      NoDup (map fst (fo_groups fobj)) /\
      (fo_volumes fobj = None \/ fo_volumes fobj = mw_pools mw) /\
      (fo_services fobj = None \/ fo_services fobj = mw_services mw).
Proof.
  intros mw s fobj s0 H. unfold generate_failover_data in H.
  repeat match type of H with
         | bind (run_call ?mw ?m ?a ?ans) _ ?s = _ =>
             unfold bind at 1 in H;
             let v := fresh "v" in
             let s' := fresh "s" in
             let E := fresh "E" in
             let Hc := fresh "Hc" in
             let Hv := fresh "Hv" in
             let Ha := fresh "Hal" in
             destruct (run_call_logs mw _ m a ans s) as (v & s' & E & Hc & Hv & Ha);
             rewrite E in H; clear E Hc Ha
         end.
  unfold bind, subscript_of, filter_list, iter_of, ret, raise in H.
  destruct v1 as [cfg|]; simpl in H; [|discriminate].
  destruct v2 as [ifs|]; simpl in H; [|discriminate].
  inversion H; subst; clear H. simpl.
  destruct Hv1 as [Hv1|Hv1]; [discriminate|].
  destruct Hv2 as [Hv2|Hv2]; [discriminate|].
  exists cfg, ifs. repeat split; auto.
  - intros g.
    destruct (fold_groups (filter failover_critical ifs) [] (NoDup_nil _)) as [_ Hg].
    rewrite Hg. simpl. rewrite filter_filter. reflexivity.
  - destruct (fold_groups (filter failover_critical ifs) [] (NoDup_nil _)) as [Hn _].
    exact Hn.
Qed.

Lemma generate_failover_data_snapshot_witness :
  let mw := healthy [tank "ONLINE"] [eth0; mkInterface "eth1" false 0] in
  let fobj := mkFailoverData (Some []) false true 2 [(1, ["eth0"])]
                             (Some [tank "ONLINE"]) ["eth1"] (Some []) in
  generate_failover_data mw initial_state
  = (Ret fobj, snd (generate_failover_data mw initial_state)) /\
  exists cfg ifs,
    mw_failover_config mw = Some cfg /\
    mw_interfaces mw = Some ifs /\
    fo_disabled fobj = cfg_disabled cfg /\
    fo_master fobj = cfg_master cfg /\
    fo_timeout fobj = cfg_timeout cfg /\
    fo_non_crit_interfaces fobj
    = map id (filter (fun i => negb (failover_critical i)) ifs) /\
    (forall g, group_members g (fo_groups fobj) = map id (filter (in_group g) ifs)) /\
    NoDup (map fst (fo_groups fobj)) /\
    (fo_volumes fobj = None \/ fo_volumes fobj = mw_pools mw) /\
    (fo_services fobj = None \/ fo_services fobj = mw_services mw).
Proof.
  split; [vm_compute; reflexivity|].
  apply (generate_failover_data_snapshot
           (healthy [tank "ONLINE"] [eth0; mkInterface "eth1" false 0]) initial_state
           (mkFailoverData (Some []) false true 2 [(1, ["eth0"])]
                           (Some [tank "ONLINE"]) ["eth1"] (Some []))
           (snd (generate_failover_data
                   (healthy [tank "ONLINE"] [eth0; mkInterface "eth1" false 0])
                   initial_state))).
  vm_compute. reflexivity.
Defined.

(** The outcome of [generate_failover_data] when no alarm is pending. *)
Lemma generate_failover_data_outcome :
  forall mw s,
    alarm s = None ->
    fst (generate_failover_data mw s) =
    match mw_failover_config mw, mw_interfaces mw with
    | Some cfg, Some ifs =>
        Ret (mkFailoverData
               (mw_services mw) (cfg_disabled cfg) (cfg_master cfg) (cfg_timeout cfg)
               (fold_left (fun g i => groups_append (failover_group i) (id i) g)
                          (filter failover_critical ifs) [])
               (mw_pools mw)
               (map id (filter (fun i => negb (failover_critical i)) ifs))
               (mw_internal_interfaces mw))
    | _, _ => Raise TypeError
    end.
Proof.
  intros mw s Ha. unfold generate_failover_data.
  do 5 run_call_goal.
  unfold bind, subscript_of, filter_list, iter_of, ret, raise.
  destruct (mw_failover_config mw) as [cfg|]; simpl; [|reflexivity].
  destruct (mw_interfaces mw) as [ifs|]; reflexivity.
Qed.

(** X9.  With no alarm pending the snapshot fails to build exactly when
    [failover.config] or [interface.query] raises, and then with TypeError;
    a failure of [pool.query], of the services query or of the query of the
    internal interfaces does not stop it: the field is None. *)
Theorem generate_failover_data_fails_iff :
  forall mw s,
    alarm s = None ->
    (fst (generate_failover_data mw s) = Raise TypeError <->
     mw_failover_config mw = None \/ mw_interfaces mw = None) /\
    (forall e, fst (generate_failover_data mw s) = Raise e -> e = TypeError) /\
    (forall fobj, fst (generate_failover_data mw s) = Ret fobj ->
                  fo_volumes fobj = mw_pools mw /\
                  fo_services fobj = mw_services mw /\
                  fo_internal_interfaces fobj = mw_internal_interfaces mw).
Proof.
  intros mw s Ha. rewrite (generate_failover_data_outcome mw s Ha).
  destruct (mw_failover_config mw) as [cfg|].
  - destruct (mw_interfaces mw) as [ifs|].
    + split; [split; [intros H; discriminate H | intros [H|H]; discriminate H]|].
      split; [intros e H; discriminate H|].
      intros fobj H. inversion H. simpl. auto.
    + split; [split; auto|].
      split; [congruence | intros fobj H; discriminate H].
  - split; [split; auto|].
    split; [congruence | intros fobj H; discriminate H].
Qed.

Lemma generate_failover_data_fails_iff_witness :
  let mw := healthy [tank "ONLINE"] [eth0] in
  alarm initial_state = None /\
  (fst (generate_failover_data mw initial_state) = Raise TypeError <->
   mw_failover_config mw = None \/ mw_interfaces mw = None) /\
  (forall e, fst (generate_failover_data mw initial_state) = Raise e -> e = TypeError) /\
  (forall fobj, fst (generate_failover_data mw initial_state) = Ret fobj ->
                fo_volumes fobj = mw_pools mw /\
                fo_services fobj = mw_services mw /\
                fo_internal_interfaces fobj = mw_internal_interfaces mw).
Proof.
  split; [reflexivity|].
  apply (generate_failover_data_fails_iff (healthy [tank "ONLINE"] [eth0]) initial_state).
  reflexivity.
Defined.

(** ** The loop of validate *)

Lemma validate_job_outcome :
  forall ev j s,
    validate_job ev j s =
    if (String.eqb (job_method j) "failover.events.vrrp_master" &&
        str_mem ev ["MASTER"; "forcetakeover"]) ||
       (String.eqb (job_method j) "failover.events.vrrp_backup" &&
        String.eqb ev "BACKUP")
    then (Raise IgnoreFailoverEvent, set_ignored (S (ignored s)) s)
    else (Ret tt, s).
Proof.
  intros ev j s. unfold validate_job, bind, when, raise, ret.
  destruct (String.eqb (job_method j) "failover.events.vrrp_master") eqn:Em.
  - apply String.eqb_eq in Em. rewrite Em. simpl.
    destruct (String.eqb ev "MASTER"); simpl; [reflexivity|].
    destruct (String.eqb ev "forcetakeover"); reflexivity.
  - simpl. destruct (String.eqb (job_method j) "failover.events.vrrp_backup");
      [|reflexivity].
    destruct (String.eqb ev "BACKUP"); reflexivity.
Qed.

(** X10.  The loop of [validate] over the jobs, taken by itself, raises
    IgnoreFailoverEvent exactly when some RUNNING job is a MASTER
    transition and the event is MASTER or forcetakeover, or is a BACKUP
    transition and the event is BACKUP; jobs in other states and the order
    of the jobs play no part, and nothing else is changed. *)
Theorem validate_loop_conflicts :
  forall ev jobs s,
    for_each (filter running jobs) (validate_job ev) s =
    if existsb (conflicts ev) jobs
    then (Raise IgnoreFailoverEvent, set_ignored (S (ignored s)) s)
    else (Ret tt, s).
Proof.
  intros ev jobs s. induction jobs as [|j jobs IH]; [reflexivity|].
  simpl filter. simpl existsb. unfold conflicts at 1.
  destruct (running j).
  - rewrite andb_true_l. simpl for_each. unfold bind.
    rewrite validate_job_outcome.
    destruct ((String.eqb (job_method j) "failover.events.vrrp_master" &&
               str_mem ev ["MASTER"; "forcetakeover"]) ||
              (String.eqb (job_method j) "failover.events.vrrp_backup" &&
               String.eqb ev "BACKUP"))%bool; cbn [orb]; [reflexivity | exact IH].
  - rewrite andb_false_l. cbn [orb]. exact IH.
Qed.

(** ** The check of the failover group *)

(** X11.  A MASTER transition that is not forced and finds other
    interfaces of the group still BACKUP ([status[1]] not empty) sets the
    job's result to IGNORED and raises IgnoreFailoverEvent, having made the
    check and nothing else: fenced is not touched, no file, no pool. *)
Theorem vrrp_master_stale_group :
  forall mw fobj ifname ev s working waiting,
    alarm s = None ->
    mw_check_failover_group mw ifname (fo_groups fobj) = Some (working, waiting) ->
    waiting <> [] ->
    let '(r, s') := vrrp_master mw fobj ifname ev false false s in
    r = Raise IgnoreFailoverEvent /\
    job_result s' = Some "IGNORED" /\
    job_progress s' = Some "ELECTING" /\
    calls s' = (calls s ++ [check_group_call ifname])%list /\
    fs s' = fs s /\
    failover_successful s' = failover_successful s.
Proof.
  intros mw fobj ifname ev s working waiting Ha Hc Hw.
  unfold vrrp_master, master_fencing. simpl orb. cbv iota.
  unfold bind at 1. unfold job_set_progress at 1, modify at 1.
  unfold bind at 1. unfold bind at 1.
  rewrite run_call_no_alarm by exact Ha. rewrite Hc.
  unfold subscript_of, bind, ret. simpl snd.
  destruct waiting as [|w ws]; [congruence|].
  destruct s; simpl. repeat split.
Qed.

Lemma vrrp_master_stale_group_witness :
  let mw := with_group_check ([], ["eth1"]) (healthy [tank "OFFLINE"] [eth0]) in
  alarm initial_state = None /\
  mw_check_failover_group mw "eth0" (fo_groups (tank_snapshot "OFFLINE"))
  = Some ([], ["eth1"]) /\
  ["eth1"] <> [] /\
  let '(r, s') := vrrp_master mw (tank_snapshot "OFFLINE") "eth0" "MASTER" false false
                              initial_state in
  r = Raise IgnoreFailoverEvent /\
  job_result s' = Some "IGNORED" /\
  job_progress s' = Some "ELECTING" /\
  calls s' = (calls initial_state ++ [check_group_call "eth0"])%list /\
  fs s' = fs initial_state /\
  failover_successful s' = failover_successful initial_state.
Proof.
  split; [reflexivity|]. split; [reflexivity|]. split; [discriminate|].
  apply (vrrp_master_stale_group
           (with_group_check ([], ["eth1"]) (healthy [tank "OFFLINE"] [eth0]))
           (tank_snapshot "OFFLINE") "eth0" "MASTER" initial_state [] ["eth1"]);
    [reflexivity | reflexivity | discriminate].
Defined.

(** X12.  A BACKUP transition that finds other interfaces of the group
    still MASTER ([status[0]] not empty) sets the job's result to IGNORED
    and raises IgnoreFailoverEvent, having made the check and nothing else:
    fenced is not stopped, no marker is written, no alarm is set, no pool
    is exported. *)
Theorem vrrp_backup_stale_group :
  forall mw fobj ifname ev ff s working waiting,
    alarm s = None ->
    mw_check_failover_group mw ifname (fo_groups fobj) = Some (working, waiting) ->
    working <> [] ->
    let '(r, s') := vrrp_backup mw fobj ifname ev ff s in
    r = Raise IgnoreFailoverEvent /\
    job_result s' = Some "IGNORED" /\
    calls s' = (calls s ++ [check_group_call ifname])%list /\
    fs s' = fs s /\
    alarm s' = None /\
    failover_successful s' = failover_successful s.
Proof.
  intros mw fobj ifname ev ff s working waiting Ha Hc Hw.
  unfold vrrp_backup.
  unfold bind at 1.
  rewrite run_call_no_alarm by exact Ha. rewrite Hc.
  unfold subscript_of, bind, ret. simpl fst.
  destruct working as [|w ws]; [congruence|].
  destruct s; simpl in *. repeat split. exact Ha.
Qed.

Lemma vrrp_backup_stale_group_witness :
  let mw := with_group_check (["eth1"], []) (healthy [tank "ONLINE"] [eth0]) in
  alarm initial_state = None /\
  mw_check_failover_group mw "eth0" (fo_groups (tank_snapshot "ONLINE"))
  = Some (["eth1"], []) /\
  ["eth1"] <> [] /\
  let '(r, s') := vrrp_backup mw (tank_snapshot "ONLINE") "eth0" "BACKUP" false
                              initial_state in
  r = Raise IgnoreFailoverEvent /\
  job_result s' = Some "IGNORED" /\
  calls s' = (calls initial_state ++ [check_group_call "eth0"])%list /\
  fs s' = fs initial_state /\
  alarm s' = None /\
  failover_successful s' = failover_successful initial_state.
Proof.
  split; [reflexivity|]. split; [reflexivity|]. split; [discriminate|].
  apply (vrrp_backup_stale_group
           (with_group_check (["eth1"], []) (healthy [tank "ONLINE"] [eth0]))
           (tank_snapshot "ONLINE") "eth0" "BACKUP" false initial_state ["eth1"] []);
    [reflexivity | reflexivity | discriminate].
Defined.

(** ** The import loop *)

Lemma run_call__logs :
  forall mw m a s,
    exists s', run_call_ mw m a s = (Ret tt, s') /\
               calls s' = (calls s ++ [mkCall m a])%list /\
               (alarm s = None -> alarm s' = None).
Proof.
  intros mw m a s.
  pose proof (run_call__returns mw m a s) as Hr.
  destruct (run_call__effect mw m a s) as (Hc & _ & _ & _ & _ & _ & _ & Ha).
  destruct (run_call_ mw m a s) as [r s']. simpl in *. subst r.
  exists s'. auto.
Qed.

Lemma master_import_step :
  forall mw vol rest failed s,
    alarm s = None ->
    exists s1,
      alarm s1 = None /\
      calls s1 = (calls s ++ import_calls vol)%list /\
      master_import mw (vol :: rest) failed s =
      match mw_unlock mw (name vol) with
      | Some _ => master_import mw rest failed s1
      | None => (Raise AttributeError, s1)
      end.
Proof.
  intros mw vol rest failed s Ha. cbn [master_import].
  unfold bind at 1. unfold try_except. unfold bind at 1.
  match goal with
  | |- context [run_call ?w ?m ?a ?ans s] =>
      destruct (run_call_logs w _ m a ans s) as (v & s1 & E & Hc & _ & Hal)
  end.
  rewrite E. destruct (Hal Ha) as [_ Ha1]. unfold ret at 1.
  unfold bind at 1.
  match goal with
  | |- context [run_call ?w ?m ?a ?ans s1] =>
      destruct (run_call_logs w _ m a ans s1) as (u & s2 & E2 & Hc2 & _ & Hal2)
  end.
  rewrite E2. destruct (Hal2 Ha1) as [Hu Ha2]. subst u.
  exists s2. split; [exact Ha2|]. split.
  - rewrite Hc2, Hc. unfold import_calls. rewrite <- app_assoc. reflexivity.
  - unfold bind, attr_of. destruct (mw_unlock mw (name vol)); reflexivity.
Qed.

(** X13.  The import loop does not stop at a failed import: with an unlock
    job available for every volume, each volume of the snapshot is
    imported and its datasets unlocked, in the order of the snapshot, and
    the list of failed volumes comes back as it went in. *)
Theorem master_import_every_volume :
  forall mw vols failed s,
    alarm s = None ->
    (forall v, In v vols -> mw_unlock mw (name v) <> None) ->
    exists s',
      master_import mw vols failed s = (Ret failed, s') /\
      calls s' = (calls s ++ flat_map import_calls vols)%list /\
      alarm s' = None.
Proof.
  intros mw vols. induction vols as [|vol rest IH]; intros failed s Ha Hu.
  - exists s. simpl. rewrite app_nil_r. auto.
  - destruct (master_import_step mw vol rest failed s Ha) as (s1 & Ha1 & Hc1 & E).
    rewrite E.
    destruct (mw_unlock mw (name vol)) eqn:Eu.
    + destruct (IH failed s1 Ha1) as (s' & E' & Hc' & Ha').
      { intros v Hv. apply Hu. right. exact Hv. }
      exists s'. split; [exact E'|]. split; [|exact Ha'].
      rewrite Hc', Hc1. simpl flat_map. rewrite <- app_assoc. reflexivity.
    + exfalso. apply (Hu vol); [left; reflexivity | exact Eu].
Qed.

Lemma master_import_every_volume_witness :
  let mw := with_pool_manager (fun _ => false) (fun _ _ => 0)
                              (healthy [tank "OFFLINE"] [eth0]) in
  alarm initial_state = None /\
  (forall v, In v [tank "OFFLINE"] -> mw_unlock mw (name v) <> None) /\
  exists s',
    master_import mw [tank "OFFLINE"] [] initial_state = (Ret [], s') /\
    calls s' = (calls initial_state ++ flat_map import_calls [tank "OFFLINE"])%list /\
    alarm s' = None.
Proof.
  split; [reflexivity|]. split; [intros v _; discriminate|].
  apply (master_import_every_volume
           (with_pool_manager (fun _ => false) (fun _ _ => 0)
                              (healthy [tank "OFFLINE"] [eth0]))
           [tank "OFFLINE"] [] initial_state); [reflexivity|].
  intros v _. discriminate.
Defined.

(** X14.  A volume whose unlock job cannot be started ends the loop with
    AttributeError right after its import: the volumes before it have been
    imported and unlocked, the volumes after it are not imported. *)
Theorem master_import_unlock_unavailable :
  forall mw before vol after failed s,
    alarm s = None ->
    (forall v, In v before -> mw_unlock mw (name v) <> None) ->
    mw_unlock mw (name vol) = None ->
    exists s',
      master_import mw (before ++ vol :: after) failed s = (Raise AttributeError, s') /\
      calls s' = (calls s ++ flat_map import_calls before ++ import_calls vol)%list.
Proof.
  intros mw before. induction before as [|b before IH];
    intros vol after failed s Ha Hb Hv.
  - simpl app.
    destruct (master_import_step mw vol after failed s Ha) as (s1 & Ha1 & Hc1 & E).
    rewrite E, Hv. exists s1. split; [reflexivity | exact Hc1].
  - simpl app.
    destruct (master_import_step mw b (before ++ vol :: after) failed s Ha)
      as (s1 & Ha1 & Hc1 & E).
    rewrite E. destruct (mw_unlock mw (name b)) eqn:Eu.
    + destruct (IH vol after failed s1 Ha1) as (s' & E' & Hc').
      { intros v Hin. apply Hb. right. exact Hin. }
      { exact Hv. }
      exists s'. split; [exact E'|].
      rewrite Hc', Hc1. simpl flat_map. repeat rewrite <- app_assoc. reflexivity.
    + exfalso. apply (Hb b); [left; reflexivity | exact Eu].
Qed.

Lemma master_import_unlock_unavailable_witness :
  let mw := mkMiddleware (Some [tank "OFFLINE"])
                         (find_pool [tank "OFFLINE"]) (Some []) (Some ha_enabled)
                         (Some [eth0]) (Some []) (Some false) None (Some [])
                         (fun _ _ => Some ([], [])) (fun _ => Some 0%Z)
                         (fun _ => true) (fun _ => None) (Some (mkKmipConfig false))
                         (fun _ _ => true) (fun _ _ => 0) in
  alarm initial_state = None /\
  (forall v : Volume, In v [] -> mw_unlock mw (name v) <> None) /\
  mw_unlock mw (name (tank "OFFLINE")) = None /\
  exists s',
    master_import mw ([] ++ tank "OFFLINE" :: [mkVolume "dozer" "g2" "OFFLINE"]) []
                  initial_state
    = (Raise AttributeError, s') /\
    calls s' = (calls initial_state ++ flat_map import_calls []
                ++ import_calls (tank "OFFLINE"))%list.
Proof.
  split; [reflexivity|]. split; [intros v []|]. split; [reflexivity|].
  apply (master_import_unlock_unavailable
           (mkMiddleware (Some [tank "OFFLINE"])
                         (find_pool [tank "OFFLINE"]) (Some []) (Some ha_enabled)
                         (Some [eth0]) (Some []) (Some false) None (Some [])
                         (fun _ _ => Some ([], [])) (fun _ => Some 0%Z)
                         (fun _ => true) (fun _ => None) (Some (mkKmipConfig false))
                         (fun _ _ => true) (fun _ _ => 0))
           [] (tank "OFFLINE") [mkVolume "dozer" "g2" "OFFLINE"] [] initial_state);
    [reflexivity | intros v [] | reflexivity].
Defined.

(** ** A MASTER transition that succeeds *)

Lemma advances_nil : forall s, alarm s = None -> advances [] s s.
Proof. intros s H. unfold advances. rewrite app_nil_r. auto. Qed.

Lemma advances_app :
  forall c1 c2 s s1 s2,
    advances c1 s s1 -> advances c2 s1 s2 -> advances (c1 ++ c2) s s2.
Proof.
  unfold advances.
  intros c1 c2 s s1 s2 (A1 & C1 & R1 & P1 & F1) (A2 & C2 & R2 & P2 & F2).
  repeat split; try congruence. rewrite C2, C1, app_assoc. reflexivity.
Qed.

Lemma run_call_advances :
  forall mw (A : Type) m a (answer : option A) s,
    alarm s = None ->
    exists s', run_call mw m a answer s = (Ret answer, s') /\
               advances [mkCall m a] s s'.
Proof.
  intros mw A m a answer s H. rewrite run_call_no_alarm by exact H.
  eexists. split; [reflexivity|]. unfold advances. destruct s; simpl in *. auto.
Qed.

Lemma run_call__advances :
  forall mw m a s,
    alarm s = None ->
    exists s', run_call_ mw m a s = (Ret tt, s') /\ advances [mkCall m a] s s'.
Proof.
  intros mw m a s H. unfold run_call_, bind.
  destruct (run_call_advances mw unit m a
              (if mw_succeeds mw m a then Some tt else None) s H) as (s' & E & Hs).
  rewrite E. exists s'. split; [reflexivity | exact Hs].
Qed.

(** A loop that restarts the elements that pass a test. *)
Lemma for_each_restarts :
  forall mw (A : Type) (test : A -> bool) (n : A -> string) (l : list A) s,
    alarm s = None ->
    exists s',
      for_each l (fun x => when (test x) (run_call_ mw "service.restart"
                                                   [n x; ha_propagate])) s
      = (Ret tt, s') /\
      advances (flat_map (fun x => if test x then [restart_call (n x)] else []) l) s s'.
Proof.
  intros mw A test n l. induction l as [|x l IH]; intros s Ha.
  - exists s. split; [reflexivity | apply advances_nil, Ha].
  - simpl for_each. unfold bind at 1. destruct (test x) eqn:Et; simpl when.
    + destruct (run_call__advances mw "service.restart" [n x; ha_propagate] s Ha)
        as (s1 & E1 & H1).
      rewrite E1. destruct (IH s1 (proj1 H1)) as (s' & E' & H').
      exists s'. split; [exact E'|]. simpl flat_map. rewrite Et.
      eapply advances_app; eauto.
    + unfold ret at 1. destruct (IH s Ha) as (s' & E' & H').
      exists s'. split; [exact E'|]. simpl flat_map. rewrite Et. exact H'.
Qed.

Lemma master_import_advances :
  forall mw vols failed s,
    alarm s = None ->
    (forall v, In v vols -> mw_unlock mw (name v) <> None) ->
    exists s',
      master_import mw vols failed s = (Ret failed, s') /\
      advances (flat_map import_calls vols) s s'.
Proof.
  intros mw vols. induction vols as [|vol rest IH]; intros failed s Ha Hu.
  - exists s. split; [reflexivity | apply advances_nil, Ha].
  - cbn [master_import].
    unfold bind at 1. unfold try_except. unfold bind at 1.
    match goal with
    | |- context [run_call ?w ?m ?a ?ans s] =>
        destruct (run_call_advances w _ m a ans s Ha) as (s1 & E1 & H1)
    end.
    rewrite E1. unfold ret at 1. unfold bind at 1.
    match goal with
    | |- context [run_call ?w ?m ?a ?ans s1] =>
        destruct (run_call_advances w _ m a ans s1 (proj1 H1)) as (s2 & E2 & H2)
    end.
    rewrite E2. unfold bind at 1, attr_of.
    destruct (mw_unlock mw (name vol)) eqn:Eu.
    + cbv beta iota delta [ret].
      destruct (IH failed s2 (proj1 H2)) as (s' & E' & H').
      { intros v Hv. apply Hu. right. exact Hv. }
      exists s'. split; [exact E'|].
      exact (advances_app _ _ _ _ _ H1 (advances_app _ _ _ _ _ H2 H')).
    + exfalso. apply (Hu vol); [left; reflexivity | exact Eu].
Qed.

(** One call at the head of a computation, after the calls made so far. *)
Ltac step_call_0 :=
  match goal with
  | Hrun : advances ?cs ?s0 ?s |- context [run_call_ ?w ?m ?a ?s] =>
      let s' := fresh "s" in
      let E := fresh "E" in
      let H := fresh "H" in
      let Hn := fresh "Hrun" in
      destruct (run_call__advances w m a s (proj1 Hrun)) as (s' & E & H);
      rewrite E; clear E;
      pose proof (advances_app _ _ _ _ _ Hrun H) as Hn; clear Hrun H;
      cbv beta iota
  | Hrun : advances ?cs ?s0 ?s |- context [run_call ?w ?m ?a ?ans ?s] =>
      let s' := fresh "s" in
      let E := fresh "E" in
      let H := fresh "H" in
      let Hn := fresh "Hrun" in
      destruct (run_call_advances w _ m a ans s (proj1 Hrun)) as (s' & E & H);
      rewrite E; clear E;
      pose proof (advances_app _ _ _ _ _ Hrun H) as Hn; clear Hrun H;
      cbv beta iota
  end.

Ltac step_call_ := unfold bind at 1; step_call_0.

Ltac step_loop lem :=
  unfold bind at 1;
  match goal with
  | Hrun : advances ?cs ?s0 ?s |- _ =>
      let s' := fresh "s" in
      let E := fresh "E" in
      let H := fresh "H" in
      let Hn := fresh "Hrun" in
      destruct (lem s (proj1 Hrun)) as (s' & E & H);
      rewrite E; clear E;
      pose proof (advances_app _ _ _ _ _ Hrun H) as Hn; clear Hrun H;
      cbv beta iota
  end.

(** The loop over the services that are not critical: a row that is to be
    restarted must have the key [service]. *)
Lemma other_services_advances :
  forall mw services,
    (forall i, In i services -> is_other_service i = true -> service i <> None) ->
    forall s,
      alarm s = None ->
      exists s',
        for_each services
          (fun i => when (negb (str_mem (srv_service i) critical_services) && srv_enable i)
                         (_ <- match service i with
                               | Some v => ret v
                               | None => raise KeyError
                               end ;;
                          run_call_ mw "service.restart" [srv_service i; ha_propagate])) s
        = (Ret tt, s') /\
        advances (other_restarts services) s s'.
Proof.
  intros mw services. induction services as [|i l IH]; intros Hk s Ha.
  - exists s. split; [reflexivity | apply advances_nil, Ha].
  - cbn [for_each]. unfold bind at 1.
    unfold other_restarts. cbn [flat_map]. fold (other_restarts l).
    unfold is_other_service at 1.
    pose proof (Hk i (or_introl eq_refl)) as Hi. unfold is_other_service in Hi.
    destruct (negb (str_mem (srv_service i) critical_services) && srv_enable i)%bool;
      cbn [when].
    + destruct (service i) as [v|]; [|exfalso; apply Hi; reflexivity].
      rewrite bind_ret_l.
      destruct (run_call__advances mw "service.restart"
                  [srv_service i; ha_propagate] s Ha) as (s1 & E1 & H1).
      rewrite E1.
      destruct (IH (fun j Hj => Hk j (or_intror Hj)) s1 (proj1 H1)) as (s' & E' & H').
      exists s'. split; [exact E'|]. eapply advances_app; eauto.
    + unfold ret at 1.
      destruct (IH (fun j Hj => Hk j (or_intror Hj)) s Ha) as (s' & E' & H').
      exists s'. split; [exact E' | exact H'].
Qed.

Lemma critical_services_advances :
  forall mw fobj services,
    fo_services fobj = Some services ->
    forall s,
      alarm s = None ->
      exists s',
        for_each critical_services
          (fun i =>
             services <- iter_of (fo_services fobj) ;;
             for_each services
               (fun j => when (String.eqb i (srv_service j) && srv_enable j)
                              (run_call_ mw "service.restart" [i; ha_propagate]))) s
        = (Ret tt, s') /\
        advances (critical_restarts services) s s'.
Proof.
  intros mw fobj services Hs s Ha. rewrite Hs.
  unfold critical_restarts.
  generalize critical_services. intros l. revert s Ha.
  induction l as [|i l IH]; intros s Ha.
  - exists s. split; [reflexivity | apply advances_nil, Ha].
  - cbn [for_each flat_map]. unfold bind at 1. unfold iter_of. rewrite bind_ret_l.
    destruct (for_each_restarts mw ServiceRow
                (fun j => String.eqb i (srv_service j) && srv_enable j)
                (fun _ => i) services s Ha) as (s1 & E1 & H1).
    rewrite E1.
    destruct (IH s1 (proj1 H1)) as (s' & E' & H').
    exists s'. split; [exact E'|]. eapply advances_app; eauto.
Qed.

Lemma master_post_import_trace :
  forall mw fobj services s,
    alarm s = None ->
    fo_services fobj = Some services ->
    (forall i, In i services -> is_other_service i = true -> service i <> None) ->
    exists s',
      master_post_import mw fobj s = (Ret true, s') /\
      calls s' = (calls s ++ post_import_trace services (mw_kmip_config mw))%list /\
      job_result s' = job_result s /\
      job_progress s' = job_progress s /\
      failover_successful s' = true /\
      alarm s' = None.
Proof.
  intros mw fobj services s Ha Hs Hk.
  pose proof (advances_nil s Ha) as Hrun.
  unfold master_post_import.
  do 5 step_call_.
  step_loop constr:(critical_services_advances mw fobj services Hs).
  do 5 step_call_.
  rewrite Hs. unfold iter_of at 1. rewrite bind_ret_l.
  step_loop constr:(other_services_advances mw services Hk).
  do 3 step_call_.
  unfold bind at 1.
  destruct (match mw_kmip_config mw with
            | Some c => kmip_enabled c
            | None => false
            end) eqn:Ek; cbn [when].
  - step_call_0.
    match goal with
    | Hrun : advances _ _ _ |- _ => destruct Hrun as (A & C & R & P & F)
    end.
    unfold bind, modify, get. eexists. split; [reflexivity|]. simpl.
    repeat split; auto.
    rewrite C. unfold post_import_trace. rewrite Ek.
    repeat rewrite <- app_assoc. reflexivity.
  - match goal with
    | Hrun : advances _ _ _ |- _ => destruct Hrun as (A & C & R & P & F)
    end.
    unfold ret at 1. unfold bind, modify, get. eexists. split; [reflexivity|]. simpl.
    repeat split; auto.
    rewrite C. unfold post_import_trace. rewrite Ek.
    repeat rewrite <- app_assoc. reflexivity.
Qed.

(** X15.  A forced MASTER transition in which fenced starts with code 0 (or
    its start raises, which the code takes for the same), an unlock job is
    available for every volume and every row to be restarted has its key
    [service], with no alarm pending and at least one volume: it returns
    True, sets the flag, leaves the job's result alone, and has made
    exactly these calls in this order: stop and forced start of fenced; for
    every volume its import and unlock; status refresh, configuration and
    the restart of http; the enabled critical services in their fixed
    order; cron, disks, enclosure, collectd, syslogd; the other enabled
    services; the alert system; the KMIP configuration and, if KMIP is
    enabled, the keys. *)
Theorem vrrp_master_success :
  forall mw fobj ifname ev ff ft s vols services,
    (ft || ff)%bool = true ->
    alarm s = None ->
    truthy_code (mw_fenced_start mw true) = false ->
    fo_volumes fobj = Some vols ->
    vols <> [] ->
    (forall v, In v vols -> mw_unlock mw (name v) <> None) ->
    fo_services fobj = Some services ->
    (forall i, In i services -> is_other_service i = true -> service i <> None) ->
    let '(r, s') := vrrp_master mw fobj ifname ev ff ft s in
    r = Ret true /\
    failover_successful s' = true /\
    calls s' = (calls s ++ master_trace vols services (mw_kmip_config mw))%list /\
    job_result s' = job_result s /\
    job_progress s' = Some "IMPORTING".
Proof.
  intros mw fobj ifname ev ff ft s vols services Hf Ha Hc Hv Hne Hu Hs Hk.
  unfold vrrp_master. unfold bind at 1. unfold job_set_progress at 1, modify at 1.
  assert (Hrun : advances [] (set_job_progress (Some "ELECTING") s)
                          (set_job_progress (Some "ELECTING") s))
    by (apply advances_nil; exact Ha).
  unfold bind at 1. unfold master_fencing. rewrite Hf.
  do 2 step_call_. rewrite Hc.
  match goal with
  | H : advances _ _ ?x |- _ => destruct H as (A1 & C1 & R1 & P1 & F1); rename x into sf
  end.
  unfold bind at 1. destruct (master_kill_cache_fs sf) as [l1 E1]. rewrite E1.
  unfold bind at 1. destruct (master_saved_cache_fs (set_fs l1 sf)) as [l2 E2].
  rewrite E2. rewrite set_fs_twice.
  unfold bind at 1. unfold job_set_progress at 1, modify at 1.
  rewrite Hv. unfold iter_of at 1. unfold ret at 1. cbv beta iota.
  set (si := set_job_progress (Some "IMPORTING") (set_fs l2 sf)).
  assert (Ai : alarm si = None) by exact A1.
  unfold bind at 1.
  destruct (master_import_advances mw vols [] si Ai Hu) as (sm & Em & Am & Cm & Rm & Pm & Fm).
  rewrite Em.
  replace (Nat.eqb (length (@nil (Volume * Exn))) (length vols)) with false
    by (destruct vols; [congruence | reflexivity]).
  cbn [length Nat.eqb negb when]. rewrite bind_ret_l.
  destruct (master_post_import_trace mw fobj services sm Am Hs Hk)
    as (s' & E' & C' & R' & P' & F' & A').
  rewrite E'. split; [reflexivity|]. split; [exact F'|].
  split; [|split].
  - rewrite C', Cm. subst si. cbn [calls set_job_progress set_fs].
    destruct sf; simpl in *. rewrite C1. unfold master_trace, post_import_trace.
    destruct s; simpl. repeat rewrite <- app_assoc. reflexivity.
  - rewrite R', Rm. subst si. destruct sf; simpl in *. rewrite R1.
    destruct s; reflexivity.
  - rewrite P', Pm. subst si. destruct sf; reflexivity.
Qed.

Lemma vrrp_master_success_witness :
  let mw := with_fenced_raising (healthy [tank "OFFLINE"] [eth0]) in
  let fobj := tank_snapshot "OFFLINE" in
  (false || true)%bool = true /\
  alarm initial_state = None /\
  truthy_code (mw_fenced_start mw true) = false /\
  fo_volumes fobj = Some [tank "OFFLINE"] /\
  [tank "OFFLINE"] <> [] /\
  (forall v, In v [tank "OFFLINE"] -> mw_unlock mw (name v) <> None) /\
  fo_services fobj = Some [] /\
  (forall i : ServiceRow, In i [] -> is_other_service i = true -> service i <> None) /\
  let '(r, s') := vrrp_master mw fobj "eth0" "MASTER" true false initial_state in
  r = Ret true /\
  failover_successful s' = true /\
  calls s' = (calls initial_state
              ++ master_trace [tank "OFFLINE"] [] (mw_kmip_config mw))%list /\
  job_result s' = job_result initial_state /\
  job_progress s' = Some "IMPORTING".
Proof.
  split; [reflexivity|]. split; [reflexivity|]. split; [reflexivity|].
  split; [reflexivity|]. split; [discriminate|].
  split; [intros v _; discriminate|]. split; [reflexivity|].
  split; [intros i []|].
  apply (vrrp_master_success
           (with_fenced_raising (healthy [tank "OFFLINE"] [eth0]))
           (tank_snapshot "OFFLINE") "eth0" "MASTER" true false initial_state
           [tank "OFFLINE"] []);
    [ reflexivity | reflexivity | reflexivity | reflexivity | discriminate
    | intros v _; discriminate | reflexivity | intros i [] ].
Defined.

(** ** A service row without the key [service] *)

Lemma other_services_key_error :
  forall mw before row after,
    (forall i, In i before -> is_other_service i = true -> service i <> None) ->
    is_other_service row = true ->
    service row = None ->
    forall s,
      alarm s = None ->
      exists s',
        for_each (before ++ row :: after)
          (fun i => when (negb (str_mem (srv_service i) critical_services) && srv_enable i)
                         (_ <- match service i with
                               | Some v => ret v
                               | None => raise KeyError
                               end ;;
                          run_call_ mw "service.restart" [srv_service i; ha_propagate])) s
        = (Raise KeyError, s') /\
        advances (other_restarts before) s s'.
Proof.
  intros mw before row after. induction before as [|i l IH]; intros Hk Hr Hn s Ha.
  - cbn [app for_each]. unfold bind at 1.
    unfold is_other_service in Hr. rewrite Hr. cbn [when]. rewrite Hn.
    unfold bind at 1. unfold raise at 1.
    exists s. split; [reflexivity | apply advances_nil, Ha].
  - cbn [app for_each]. unfold bind at 1.
    unfold other_restarts. cbn [flat_map]. fold (other_restarts l).
    unfold is_other_service at 1.
    pose proof (Hk i (or_introl eq_refl)) as Hi. unfold is_other_service in Hi.
    destruct (negb (str_mem (srv_service i) critical_services) && srv_enable i)%bool;
      cbn [when].
    + destruct (service i) as [v|]; [|exfalso; apply Hi; reflexivity].
      rewrite bind_ret_l.
      destruct (run_call__advances mw "service.restart"
                  [srv_service i; ha_propagate] s Ha) as (s1 & E1 & H1).
      rewrite E1.
      destruct (IH (fun j Hj => Hk j (or_intror Hj)) Hr Hn s1 (proj1 H1))
        as (s' & E' & H').
      exists s'. split; [exact E'|]. eapply advances_app; eauto.
    + unfold ret at 1.
      destruct (IH (fun j Hj => Hk j (or_intror Hj)) Hr Hn s Ha) as (s' & E' & H').
      exists s'. split; [exact E' | exact H'].
Qed.

(** X16.  An enabled service that is not critical and whose row has no key
    [service] ends the part of a MASTER transition after the imports with
    KeyError: the services before it in the snapshot have been restarted,
    that service and the ones after it have not, the alert system and KMIP
    are not initialised, and the flag is not set. *)
Theorem master_post_import_missing_key :
  forall mw fobj before row after s,
    alarm s = None ->
    fo_services fobj = Some (before ++ row :: after)%list ->
    (forall i, In i before -> is_other_service i = true -> service i <> None) ->
    is_other_service row = true ->
    service row = None ->
    let '(r, s') := master_post_import mw fobj s in
    r = Raise KeyError /\
    failover_successful s' = failover_successful s /\
    calls s' = (calls s ++ post_import_head (before ++ row :: after)
                        ++ other_restarts before)%list.
Proof.
  intros mw fobj before row after s Ha Hs Hk Hr Hn.
  pose proof (advances_nil s Ha) as Hrun.
  unfold master_post_import.
  do 5 step_call_.
  step_loop constr:(critical_services_advances mw fobj _ Hs).
  do 5 step_call_.
  rewrite Hs. unfold iter_of at 1. rewrite bind_ret_l.
  unfold bind at 1.
  match goal with
  | Hrun : advances _ _ ?x |- _ =>
      destruct (other_services_key_error mw before row after Hk Hr Hn x (proj1 Hrun))
        as (s' & E' & H');
      pose proof (advances_app _ _ _ _ _ Hrun H') as (A & C & R & P & F)
  end.
  rewrite E'. split; [reflexivity|]. split; [exact F|].
  rewrite C. unfold post_import_head. repeat rewrite <- app_assoc. reflexivity.
Qed.

Lemma master_post_import_missing_key_witness :
  let row := mkServiceRow "ssh" true None in
  let fobj := mkFailoverData (Some [row]) false true 2 [(1, ["eth0"])]
                             (Some [tank "OFFLINE"]) [] (Some []) in
  let mw := healthy [tank "OFFLINE"] [eth0] in
  alarm initial_state = None /\
  fo_services fobj = Some ([] ++ row :: [])%list /\
  (forall i : ServiceRow, In i [] -> is_other_service i = true -> service i <> None) /\
  is_other_service row = true /\
  service row = None /\
  let '(r, s') := master_post_import mw fobj initial_state in
  r = Raise KeyError /\
  failover_successful s' = failover_successful initial_state /\
  calls s' = (calls initial_state ++ post_import_head ([] ++ row :: [])
                                  ++ other_restarts [])%list.
Proof.
  split; [reflexivity|]. split; [reflexivity|]. split; [intros i []|].
  split; [reflexivity|]. split; [reflexivity|].
  apply (master_post_import_missing_key
           (healthy [tank "OFFLINE"] [eth0])
           (mkFailoverData (Some [mkServiceRow "ssh" true None]) false true 2
                           [(1, ["eth0"])] (Some [tank "OFFLINE"]) [] (Some []))
           [] (mkServiceRow "ssh" true None) [] initial_state);
    [ reflexivity | reflexivity | intros i [] | reflexivity | reflexivity ].
Defined.

(** ** A BACKUP transition that succeeds *)

Lemma idles_nil : forall s, idles [] s s.
Proof. intros s. unfold idles. rewrite app_nil_r. repeat split. Qed.

Lemma idles_app :
  forall c1 c2 s s1 s2,
    idles c1 s s1 -> idles c2 s1 s2 -> idles (c1 ++ c2) s s2.
Proof.
  unfold idles.
  intros c1 c2 s s1 s2 (A1 & K1 & C1 & F1 & W1 & R1 & S1 & M1 & O1)
         (A2 & K2 & C2 & F2 & W2 & R2 & S2 & M2 & O2).
  repeat split; try congruence. rewrite C2, C1, app_assoc. reflexivity.
Qed.

Lemma idles_calm : forall cs s s', idles cs s s' -> calm s -> calm s'.
Proof.
  unfold idles, calm. intros cs s s' (A & K & _) H. rewrite A, K. exact H.
Qed.

Section NoTime.

Variable mw : Middleware.
Hypothesis at_once : forall m a, mw_duration mw m a = 0.

Lemma run_call_idles :
  forall (A : Type) m a (answer : option A) s,
    calm s ->
    exists s', run_call mw m a answer s = (Ret answer, s') /\
               idles [mkCall m a] s s'.
Proof.
  intros A m a answer s H.
  unfold run_call, try_except, call_sync, bind, modify, blocking.
  rewrite at_once. unfold calm in H.
  destruct s as [fl cl jp jr fls kw pb clk al ig mt rf]; simpl in *.
  rewrite Nat.add_0_r.
  destruct al as [t|].
  - destruct (Nat.leb_spec t clk) as [Hle|Hlt]; [lia|].
    destruct answer; simpl; eexists; (split; [reflexivity|]);
      unfold idles; simpl; repeat split.
  - destruct answer; simpl; eexists; (split; [reflexivity|]);
      unfold idles; simpl; repeat split.
Qed.

Lemma run_call__idles :
  forall m a s,
    calm s ->
    exists s', run_call_ mw m a s = (Ret tt, s') /\ idles [mkCall m a] s s'.
Proof.
  intros m a s H. unfold run_call_, bind.
  destruct (run_call_idles unit m a
              (if mw_succeeds mw m a then Some tt else None) s H) as (s' & E & Hs).
  rewrite E. exists s'. split; [reflexivity | exact Hs].
Qed.

Lemma export_loop_idles :
  forall vols s,
    calm s ->
    exists s',
      for_each vols (fun vol => run_call_ mw "zfs.pool.export" [name vol; "force=True"]) s
      = (Ret tt, s') /\
      idles (map export_call vols) s s'.
Proof.
  induction vols as [|v vols IH]; intros s H.
  - exists s. split; [reflexivity | apply idles_nil].
  - cbn [for_each map]. unfold bind at 1.
    destruct (run_call__idles "zfs.pool.export" [name v; "force=True"] s H)
      as (s1 & E1 & H1).
    rewrite E1.
    destruct (IH s1 (idles_calm _ _ _ H1 H)) as (s' & E' & H').
    exists s'. split; [exact E'|].
    exact (idles_app [export_call v] _ _ _ _ H1 H').
Qed.

Lemma ssh_loop_idles :
  forall services s,
    calm s ->
    exists s',
      for_each services
        (fun i => when (String.eqb (srv_service i) "ssh" && srv_enable i)
                       (run_call_ mw "service.restart" ["ssh"; ha_propagate])) s
      = (Ret tt, s') /\
      idles (flat_map (fun i => if is_ssh i then [restart_call "ssh"] else []) services)
            s s'.
Proof.
  induction services as [|i l IH]; intros s H.
  - exists s. split; [reflexivity | apply idles_nil].
  - cbn [for_each flat_map]. unfold bind at 1. unfold is_ssh at 1.
    destruct (String.eqb (srv_service i) "ssh" && srv_enable i)%bool; cbn [when].
    + destruct (run_call__idles "service.restart" ["ssh"; ha_propagate] s H)
        as (s1 & E1 & H1).
      rewrite E1.
      destruct (IH s1 (idles_calm _ _ _ H1 H)) as (s' & E' & H').
      exists s'. split; [exact E'|].
      exact (idles_app [restart_call "ssh"] _ _ _ _ H1 H').
    + unfold ret at 1. destruct (IH s H) as (s' & E' & H').
      exists s'. split; [exact E' | exact H'].
Qed.

Lemma backup_export_idles :
  forall fobj vols s,
    main_thread s = true ->
    fo_volumes fobj = Some vols ->
    exists s',
      backup_export mw fobj s = (Ret tt, s') /\
      alarm s' = Some (clock s + zpool_export_timeout) /\
      idles (map export_call vols) (set_alarm (Some (clock s + zpool_export_timeout)) s) s'.
Proof.
  intros fobj vols s Hm Hv.
  unfold backup_export. unfold bind at 1.
  unfold signal_signal at 1. unfold bind at 1, get at 1. rewrite Hm.
  unfold ret at 1. cbv beta iota.
  unfold try_except_only. unfold bind at 1.
  unfold signal_alarm at 1, modify at 1. unfold try_except.
  rewrite Hv. unfold iter_of at 1. rewrite bind_ret_l.
  destruct (export_loop_idles vols (set_alarm (Some (clock s + zpool_export_timeout)) s))
    as (s' & E' & H').
  { unfold calm, zpool_export_timeout. destruct s; simpl. lia. }
  rewrite E'. exists s'. split; [reflexivity|]. split; [|exact H'].
  destruct H' as (A & _). rewrite A. destruct s; reflexivity.
Qed.

End NoTime.

(** The marker of the watchdog is created unless the operating system
    refuses; the time is never written into it, [f.write] taking no
    number. *)
Lemma backup_watchdog_marker_effect :
  forall s,
    backup_watchdog_marker s
    = (Ret tt,
       if refused s (OpOpenW watchdog_alert_file) then s
       else set_fs (fs_put watchdog_alert_file (clock s) (fs s)) s).
Proof.
  intros s.
  unfold backup_watchdog_marker, suppress, try_except, open_w, refuses, bind,
         get, modify, raise, ret, time_time, text_write.
  destruct (refused s (OpOpenW watchdog_alert_file)); reflexivity.
Qed.

Lemma fs_lookup_remove :
  forall p l, fs_lookup p (fs_remove p l) = None.
Proof.
  intros p l. induction l as [|[q t] l IH]; simpl; [reflexivity|].
  destruct (String.eqb p q) eqn:E; [exact IH|]. simpl. rewrite E. exact IH.
Qed.

Lemma fs_remove_twice :
  forall p l, fs_remove p (fs_remove p l) = fs_remove p l.
Proof.
  intros p l. induction l as [|[q t] l IH]; simpl; [reflexivity|].
  destruct (String.eqb p q) eqn:E; [exact IH|]. simpl. rewrite E, IH. reflexivity.
Qed.

Lemma unlink_put :
  forall p t s l,
    fs s = fs_put p t l ->
    refused s (OpUnlink p) = false ->
    suppress (os_unlink p) s = (Ret tt, set_fs (fs_remove p l) s).
Proof.
  intros p t s l H Hr.
  unfold suppress, try_except, os_unlink, os_path_exists, refuses, bind, get,
         modify, fs_exists.
  rewrite H. unfold fs_put at 1. cbn [fs_lookup]. rewrite String.eqb_refl.
  cbv beta iota. rewrite Hr. cbv beta iota. rewrite H.
  unfold fs_put. cbn [fs_remove]. rewrite String.eqb_refl, fs_remove_twice.
  reflexivity.
Qed.

Ltac idle_call_0 :=
  match goal with
  | Hz : (forall m a, mw_duration ?w m a = 0), Hc : calm ?s, Hrun : idles ?cs ?s0 ?s
    |- context [run_call_ ?w ?m ?a ?s] =>
      let s' := fresh "s" in
      let E := fresh "E" in
      let H := fresh "H" in
      let Hn := fresh "Hrun" in
      let Hc' := fresh "Hcalm" in
      destruct (run_call__idles w Hz m a s Hc) as (s' & E & H);
      rewrite E; clear E;
      pose proof (idles_calm _ _ _ H Hc) as Hc';
      pose proof (idles_app _ _ _ _ _ Hrun H) as Hn; clear Hrun H Hc;
      cbv beta iota
  | Hz : (forall m a, mw_duration ?w m a = 0), Hc : calm ?s, Hrun : idles ?cs ?s0 ?s
    |- context [run_call ?w ?m ?a ?ans ?s] =>
      let s' := fresh "s" in
      let E := fresh "E" in
      let H := fresh "H" in
      let Hn := fresh "Hrun" in
      let Hc' := fresh "Hcalm" in
      destruct (run_call_idles w Hz _ m a ans s Hc) as (s' & E & H);
      rewrite E; clear E;
      pose proof (idles_calm _ _ _ H Hc) as Hc';
      pose proof (idles_app _ _ _ _ _ Hrun H) as Hn; clear Hrun H Hc;
      cbv beta iota
  end.

Ltac idle_call := unfold bind at 1; idle_call_0.

(** X17.  A BACKUP transition on the main thread whose calls all answer
    at once, with no conflict in the failover group, no alarm pending and
    an operating system that refuses neither to create nor to remove the
    marker of the watchdog: it returns True and sets the flag; it has made
    the check of the group, stopped fenced, restarted keepalived, exported
    every volume of the snapshot, refreshed the status, restarted syslogd,
    regenerated cron, stopped smartd and collectd, restarted ssh for every
    enabled row of that name and asked the other node for its keys, in
    this order; the marker of the watchdog does not exist afterwards; and
    the alarm set for the export is still pending when the transition is
    over, four seconds after its start: nothing cancels it. *)
Theorem vrrp_backup_success :
  forall mw fobj ifname ev ff s waiting vols services,
    (forall m a, mw_duration mw m a = 0) ->
    alarm s = None ->
    main_thread s = true ->
    refused s (OpOpenW watchdog_alert_file) = false ->
    refused s (OpUnlink watchdog_alert_file) = false ->
    mw_check_failover_group mw ifname (fo_groups fobj) = Some ([], waiting) ->
    fo_volumes fobj = Some vols ->
    fo_services fobj = Some services ->
    let '(r, s') := vrrp_backup mw fobj ifname ev ff s in
    r = Ret true /\
    failover_successful s' = true /\
    calls s' = (calls s ++ backup_trace ifname vols services)%list /\
    fs s' = fs_remove watchdog_alert_file (fs s) /\
    kernel_writes s' = kernel_writes s /\
    job_result s' = job_result s /\
    clock s' = clock s /\
    alarm s' = Some (clock s + zpool_export_timeout).
Proof.
  intros mw fobj ifname ev ff s waiting vols services Hz Ha Hm Ho Hu Hg Hv Hs.
  assert (Hcalm : calm s) by (unfold calm; rewrite Ha; exact I).
  pose proof (idles_nil s) as Hrun.
  unfold vrrp_backup.
  idle_call. rewrite Hg. unfold subscript_of at 1. rewrite bind_ret_l.
  cbn [fst is_nil negb].
  do 2 idle_call.
  match goal with
  | H : idles _ _ ?x |- _ =>
      destruct H as (A1 & K1 & C1 & F1 & W1 & R1 & S1 & M1 & O1); rename x into sa
  end.
  unfold bind at 1. rewrite backup_watchdog_marker_effect.
  rewrite O1, Ho.
  unfold bind at 1.
  destruct (backup_export_idles mw Hz fobj vols
              (set_fs (fs_put watchdog_alert_file (clock sa) (fs sa)) sa))
    as (sb & E2 & A2 & H2);
    [rewrite <- Hm, <- M1; destruct sa; reflexivity | exact Hv |].
  rewrite E2.
  destruct H2 as (_ & K2 & C2 & F2 & W2 & R2 & S2 & M2 & O2).
  unfold bind at 1.
  rewrite (unlink_put watchdog_alert_file (clock sa) sb (fs sa))
    by (first [ rewrite F2; destruct sa; reflexivity
              | rewrite O2; rewrite <- Hu, <- O1; destruct sa; reflexivity ]).
  set (sc := set_fs (fs_remove watchdog_alert_file (fs sa)) sb).
  assert (Hcalm3 : calm sc).
  { unfold calm. subst sc. destruct sb; simpl in *. rewrite A2.
    destruct sa; simpl in *. subst. unfold zpool_export_timeout. lia. }
  pose proof (idles_nil sc) as Hrun.
  clear Hcalm0.
  do 5 idle_call.
  rewrite Hs. unfold iter_of at 1. rewrite bind_ret_l.
  unfold bind at 1.
  match goal with
  | Hc : calm ?x, Hrun : idles _ _ ?x |- _ =>
      let Hn := fresh "Hrun" in
      destruct (ssh_loop_idles mw Hz services x Hc) as (sd & E4 & H4);
      rewrite E4;
      pose proof (idles_calm _ _ _ H4 Hc) as Hcalm4;
      pose proof (idles_app _ _ _ _ _ Hrun H4) as Hn; clear Hrun H4 Hc
  end.
  idle_call.
  match goal with
  | H : idles _ sc ?x |- _ =>
      destruct H as (A5 & K5 & C5 & F5 & W5 & R5 & S5 & M5 & O5); rename x into se
  end.
  unfold bind, modify, get.
  split; [reflexivity|]. split; [reflexivity|].
  assert (K1' : clock sa = clock s) by exact K1.
  clear M1 O1 M2 O2 M5 O5 Hm Ho Hu.
  subst sc. destruct se, sb, sa, s; simpl in *. subst.
  repeat split.
  unfold backup_trace. simpl. repeat rewrite <- app_assoc. reflexivity.
Qed.

Lemma vrrp_backup_success_witness :
  let mw := healthy [tank "ONLINE"] [eth0] in
  let fobj := tank_snapshot "ONLINE" in
  (forall m a, mw_duration mw m a = 0) /\
  alarm initial_state = None /\
  main_thread initial_state = true /\
  refused initial_state (OpOpenW watchdog_alert_file) = false /\
  refused initial_state (OpUnlink watchdog_alert_file) = false /\
  mw_check_failover_group mw "eth0" (fo_groups fobj) = Some ([], []) /\
  fo_volumes fobj = Some [tank "ONLINE"] /\
  fo_services fobj = Some [] /\
  let '(r, s') := vrrp_backup mw fobj "eth0" "BACKUP" false initial_state in
  r = Ret true /\
  failover_successful s' = true /\
  calls s' = (calls initial_state ++ backup_trace "eth0" [tank "ONLINE"] [])%list /\
  fs s' = fs_remove watchdog_alert_file (fs initial_state) /\
  kernel_writes s' = kernel_writes initial_state /\
  job_result s' = job_result initial_state /\
  clock s' = clock initial_state /\
  alarm s' = Some (clock initial_state + zpool_export_timeout).
Proof.
  split; [reflexivity|]. split; [reflexivity|]. split; [reflexivity|].
  split; [reflexivity|]. split; [reflexivity|]. split; [reflexivity|].
  split; [reflexivity|]. split; [reflexivity|].
  apply (vrrp_backup_success
           (healthy [tank "ONLINE"] [eth0]) (tank_snapshot "ONLINE")
           "eth0" "BACKUP" false initial_state [] [tank "ONLINE"] []);
    reflexivity.
Defined.

(** ** The notifications of the fifo *)

Lemma published_kept_ret : forall s, published_kept s None s.
Proof. reflexivity. Qed.

Lemma published_kept_seq :
  forall s x1 s1 x2 s2,
    published_kept s x1 s1 -> published_kept s1 x2 s2 -> published_kept s x2 s2.
Proof. unfold published_kept. intros. congruence. Qed.

Lemma published_kept_catch :
  forall s (x : option Exn) s', published_kept s x s' -> published_kept s None s'.
Proof. unfold published_kept. auto. Qed.

Ltac published_kept_tac :=
  repeat holds_step published_kept_ret published_kept_seq published_kept_catch;
  try (holds_prim; reflexivity).

Lemma master_import_published_kept :
  forall mw vols failed, holds published_kept (master_import mw vols failed).
Proof.
  intros mw vols. induction vols as [|v vols IH]; intros failed; simpl;
    published_kept_tac; apply IH.
Qed.
#[export] Hint Resolve master_import_published_kept : failover_holds.

Lemma needs_import_published_kept :
  forall mw vols, holds published_kept (needs_import mw vols).
Proof.
  intros mw vols. induction vols as [|v vols IH]; simpl; published_kept_tac.
Qed.
#[export] Hint Resolve needs_import_published_kept : failover_holds.

Lemma validate_published_kept :
  forall mw ifname ev, holds published_kept (validate mw ifname ev).
Proof. intros mw ifname ev s. rewrite validate_raises. reflexivity. Qed.
#[export] Hint Resolve validate_published_kept : failover_holds.

Lemma _event_published_kept :
  forall mw ifname ev, holds published_kept (_event mw ifname ev).
Proof. intros mw ifname ev. unfold _event. published_kept_tac. Qed.

Lemma event_published_kept :
  forall mw ifname ev, holds published_kept (event mw ifname ev).
Proof.
  intros mw ifname ev s. rewrite event_spec.
  pose proof (_event_published_kept mw ifname ev s) as H.
  assert (Hr : holds published_kept (run_call_ mw "failover.status_refresh" []))
    by published_kept_tac.
  destruct (_event mw ifname ev s) as [[v|e] s1]; simpl in H.
  - specialize (Hr s1). unfold published_kept in *. simpl. congruence.
  - specialize (Hr s1). unfold published_kept in *.
    destruct e; simpl; congruence.
Qed.

(** White space that is not ASCII's: the separators 28 to 31, the next
    line 133 and the no-break space 160 split a line like a blank. *)
Lemma split_ws_separators :
  split_ws ("VI_1" ++ String (ascii_of_nat 28)
              ("eth0" ++ String (ascii_of_nat 133)
                 ("MASTER" ++ String (ascii_of_nat 160) "100")))
           EmptyString
  = ["VI_1"; "eth0"; "MASTER"; "100"].
Proof. reflexivity. Qed.

(** X18.  A line of the fifo, of characters below U+0100, makes one
    notification public, with the interface stripped of its quotes, when
    its third word is MASTER or BACKUP, and none otherwise; words are what
    [str.split()] makes of the line, separated by any white space, the
    information separators 28 to 31, 133 and 160 included.  Handling the
    event itself publishes nothing.  A line that publishes nothing changes
    nothing at all: with fewer than three words the hook raises
    IndexError, with another third word it returns. *)
Theorem vrrp_fifo_hook_publishes :
  forall mw line s,
    let '(r, s') := vrrp_fifo_hook mw line s in
    published s' = (published s ++ fifo_notification line)%list /\
    (fifo_notification line = [] ->
     s' = s /\
     r = if Nat.ltb (length (split_ws line EmptyString)) 3
         then Raise IndexError else Ret tt).
Proof.
  intros mw line s. unfold vrrp_fifo_hook, fifo_notification, item.
  destruct (split_ws line EmptyString) as [|w0 [|w1 [|w2 rest]]];
    try (cbn; rewrite app_nil_r; split; [reflexivity | intros _; split; reflexivity]).
  cbn [nth_error length Nat.ltb Nat.leb]. rewrite !bind_ret_l.
  destruct (str_mem w2 ["MASTER"; "BACKUP"]); cbn [negb].
  - unfold bind at 1. unfold send_event at 1, modify at 1.
    unfold bind at 1.
    pose proof (event_published_kept mw (strip dquote w1) w2
                  (set_published (published s ++ [(strip dquote w1, w2)]) s)) as H.
    destruct (event mw (strip dquote w1) w2
                (set_published (published s ++ [(strip dquote w1, w2)]) s))
      as [[v|e] s1]; unfold published_kept in H; simpl in H.
    + split; [rewrite H; destruct s; reflexivity | intros D; discriminate D].
    + split; [rewrite H; destruct s; reflexivity | intros D; discriminate D].
  - rewrite app_nil_r. split; [reflexivity | intros _; split; reflexivity].
Qed.

(** ** Events that end before a transition *)

Lemma generate_failover_data_advances :
  forall mw s,
    alarm s = None ->
    exists s',
      generate_failover_data mw s =
      (match mw_failover_config mw, mw_interfaces mw with
       | Some cfg, Some ifs =>
           Ret (mkFailoverData
                  (mw_services mw) (cfg_disabled cfg) (cfg_master cfg) (cfg_timeout cfg)
                  (fold_left (fun g i => groups_append (failover_group i) (id i) g)
                             (filter failover_critical ifs) [])
                  (mw_pools mw)
                  (map id (filter (fun i => negb (failover_critical i)) ifs))
                  (mw_internal_interfaces mw))
       | _, _ => Raise TypeError
       end, s') /\
      advances snapshot_queries s s'.
Proof.
  intros mw s Ha. pose proof (advances_nil s Ha) as Hrun.
  unfold generate_failover_data.
  do 5 step_call_.
  eexists. split; [|eassumption].
  unfold bind, subscript_of, filter_list, iter_of, ret, raise.
  destruct (mw_failover_config mw) as [cfg|]; simpl; [|reflexivity].
  destruct (mw_interfaces mw) as [ifs|]; reflexivity.
Qed.

(** X19.  When [failover.config] or [interface.query] raises, every event,
    forced or not, ends with TypeError: the five queries of the snapshot
    and the status refresh at the end are the only calls; no check is made,
    no transition is started, the flag and the job are left alone. *)
Theorem event_snapshot_failure :
  forall mw ifname ev s,
    alarm s = None ->
    mw_failover_config mw = None \/ mw_interfaces mw = None ->
    let '(r, s') := event mw ifname ev s in
    r = Raise TypeError /\
    calls s' = (calls s ++ snapshot_queries ++ [status_refresh_call])%list /\
    failover_successful s' = failover_successful s /\
    job_result s' = job_result s /\
    job_progress s' = job_progress s.
Proof.
  intros mw ifname ev s Ha Hn. rewrite event_spec. unfold _event.
  unfold bind at 1.
  destruct (generate_failover_data_advances mw s Ha) as (s1 & E1 & H1).
  rewrite E1.
  replace (match mw_failover_config mw with
           | Some cfg =>
               match mw_interfaces mw with
               | Some ifs => _
               | None => Raise TypeError
               end
           | None => Raise TypeError
           end) with (@Raise FailoverData TypeError)
    by (destruct Hn as [Hn|Hn]; rewrite Hn; [|destruct (mw_failover_config mw)];
        reflexivity).
  destruct (run_call__advances mw "failover.status_refresh" [] s1 (proj1 H1))
    as (s2 & E2 & H2).
  rewrite E2. cbn [snd].
  destruct (advances_app _ _ _ _ _ H1 H2) as (A & C & R & P & F).
  repeat split; assumption.
Qed.

Lemma event_snapshot_failure_witness :
  let mw := mkMiddleware (Some [tank "OFFLINE"])
                         (find_pool [tank "OFFLINE"]) (Some []) None (Some [eth0]) (Some [])
                         (Some false) None (Some [])
                         (fun _ _ => Some ([], [])) (fun _ => Some 0%Z) (fun _ => true)
                         (fun _ => Some (mkUnlockJob None [])) (Some (mkKmipConfig false))
                         (fun _ _ => true) (fun _ _ => 0) in
  alarm initial_state = None /\
  (mw_failover_config mw = None \/ mw_interfaces mw = None) /\
  let '(r, s') := event mw "eth0" "MASTER" initial_state in
  r = Raise TypeError /\
  calls s' = (calls initial_state ++ snapshot_queries ++ [status_refresh_call])%list /\
  failover_successful s' = failover_successful initial_state /\
  job_result s' = job_result initial_state /\
  job_progress s' = job_progress initial_state.
Proof.
  split; [reflexivity|]. split; [left; reflexivity|].
  apply (event_snapshot_failure
           (mkMiddleware (Some [tank "OFFLINE"])
                         (find_pool [tank "OFFLINE"]) (Some []) None (Some [eth0]) (Some [])
                         (Some false) None (Some [])
                         (fun _ _ => Some ([], [])) (fun _ => Some 0%Z) (fun _ => true)
                         (fun _ => Some (mkUnlockJob None [])) (Some (mkKmipConfig false))
                         (fun _ _ => true) (fun _ _ => 0))
           "eth0" "MASTER" initial_state);
    [reflexivity | left; reflexivity].
Defined.

Lemma filter_none :
  forall (A : Type) (p : A -> bool) (l : list A),
    (forall x, In x l -> p x = false) -> filter p l = [].
Proof.
  intros A p l. induction l as [|x l IH]; intros H; simpl; [reflexivity|].
  rewrite (H x (or_introl eq_refl)). apply IH. intros y Hy. apply H. right. exact Hy.
Qed.

(** X20.  With failover disabled and this node not marked as the master,
    every event that is not a forced takeover is dropped as soon as the
    snapshot is built: the five queries of the snapshot are the only
    calls, the other node is not asked, no pool is looked at, no transition
    is started and the status is not refreshed. *)
Theorem event_disabled_backup :
  forall mw ifname ev s cfg ifs,
    alarm s = None ->
    mw_failover_config mw = Some cfg ->
    mw_interfaces mw = Some ifs ->
    cfg_disabled cfg = true ->
    cfg_master cfg = false ->
    ev <> "forcetakeover" ->
    let '(r, s') := event mw ifname ev s in
    r = Ret None /\
    calls s' = (calls s ++ snapshot_queries)%list /\
    failover_successful s' = failover_successful s /\
    job_result s' = job_result s /\
    job_progress s' = job_progress s.
Proof.
  intros mw ifname ev s cfg ifs Ha Hc Hi Hd Hm Hev.
  apply String.eqb_neq in Hev.
  rewrite event_spec. unfold _event. rewrite Hev.
  unfold bind at 1.
  destruct (generate_failover_data_advances mw s Ha) as (s1 & E1 & H1).
  rewrite E1, Hc, Hi.
  unfold bind at 1. unfold soft_checks. cbn [negb fo_disabled fo_master].
  rewrite Hd, Hm. cbn [negb andb when].
  unfold bind at 1.
  destruct H1 as (A & C & R & P & F).
  destruct s1; simpl in *. repeat split; assumption.
Qed.

Lemma event_disabled_backup_witness :
  let mw := mkMiddleware (Some [tank "OFFLINE"])
                         (find_pool [tank "OFFLINE"]) (Some [])
                         (Some (mkFailoverCfg true false 2)) (Some [eth0]) (Some [])
                         (Some false) None (Some [])
                         (fun _ _ => Some ([], [])) (fun _ => Some 0%Z) (fun _ => true)
                         (fun _ => Some (mkUnlockJob None [])) (Some (mkKmipConfig false))
                         (fun _ _ => true) (fun _ _ => 0) in
  alarm initial_state = None /\
  mw_failover_config mw = Some (mkFailoverCfg true false 2) /\
  mw_interfaces mw = Some [eth0] /\
  cfg_disabled (mkFailoverCfg true false 2) = true /\
  cfg_master (mkFailoverCfg true false 2) = false /\
  "MASTER" <> "forcetakeover" /\
  let '(r, s') := event mw "eth0" "MASTER" initial_state in
  r = Ret None /\
  calls s' = (calls initial_state ++ snapshot_queries)%list /\
  failover_successful s' = failover_successful initial_state /\
  job_result s' = job_result initial_state /\
  job_progress s' = job_progress initial_state.
Proof.
  split; [reflexivity|]. split; [reflexivity|]. split; [reflexivity|].
  split; [reflexivity|]. split; [reflexivity|]. split; [discriminate|].
  apply (event_disabled_backup
           (mkMiddleware (Some [tank "OFFLINE"])
                         (find_pool [tank "OFFLINE"]) (Some [])
                         (Some (mkFailoverCfg true false 2)) (Some [eth0]) (Some [])
                         (Some false) None (Some [])
                         (fun _ _ => Some ([], [])) (fun _ => Some 0%Z) (fun _ => true)
                         (fun _ => Some (mkUnlockJob None [])) (Some (mkKmipConfig false))
                         (fun _ _ => true) (fun _ _ => 0))
           "eth0" "MASTER" initial_state (mkFailoverCfg true false 2) [eth0]);
    [reflexivity | reflexivity | reflexivity | reflexivity | reflexivity | discriminate].
Defined.

(** X21.  When the other node is connected and says it is MASTER, an event
    that is not a forced takeover and that passed the two checks before is
    dropped: after the snapshot the two questions to the other node are the
    only calls; no pool is looked at, no transition is started and the
    status is not refreshed. *)
Theorem event_remote_master :
  forall mw ifname ev s cfg ifs,
    alarm s = None ->
    mw_failover_config mw = Some cfg ->
    mw_interfaces mw = Some ifs ->
    (cfg_disabled cfg && negb (cfg_master cfg))%bool = false ->
    (forall i, In i ifs -> failover_critical i = false -> str_in (id i) ifname = false) ->
    mw_remote_connected mw = Some true ->
    mw_remote_status mw = Some "MASTER" ->
    ev <> "forcetakeover" ->
    let '(r, s') := event mw ifname ev s in
    r = Ret None /\
    calls s' = (calls s ++ snapshot_queries ++ remote_calls)%list /\
    failover_successful s' = failover_successful s /\
    job_result s' = job_result s /\
    job_progress s' = job_progress s.
Proof.
  intros mw ifname ev s cfg ifs Ha Hc Hi Hd Hn Hr Hs Hev.
  apply String.eqb_neq in Hev.
  rewrite event_spec. unfold _event. rewrite Hev.
  unfold bind at 1.
  destruct (generate_failover_data_advances mw s Ha) as (s1 & E1 & Hrun).
  rewrite E1, Hc, Hi.
  unfold bind at 1. unfold soft_checks.
  cbn [negb fo_disabled fo_master fo_non_crit_interfaces].
  rewrite Hd. cbn [when]. rewrite bind_ret_l.
  rewrite (filter_none _ (fun i => str_in i ifname)
             (map id (filter (fun i => negb (failover_critical i)) ifs))).
  2:{ intros x Hx. apply in_map_iff in Hx. destruct Hx as (i & <- & Hx).
      apply filter_In in Hx. destruct Hx as [Hx Hcr].
      apply Hn; [exact Hx | destruct (failover_critical i); [discriminate | reflexivity]]. }
  cbn [is_nil negb when]. rewrite bind_ret_l.
  step_call_. rewrite Hr. cbn [truthy when].
  unfold bind at 1. step_call_. rewrite Hs.
  cbn [String.eqb Ascii.eqb Bool.eqb when].
  match goal with
  | H : advances _ _ ?x |- _ => destruct H as (A & C & R & P & F); destruct x
  end.
  simpl in *. repeat split; assumption.
Qed.

Lemma event_remote_master_witness :
  let mw := mkMiddleware (Some [tank "OFFLINE"])
                         (find_pool [tank "OFFLINE"]) (Some [])
                         (Some ha_enabled) (Some [eth0]) (Some [])
                         (Some true) (Some "MASTER") (Some [])
                         (fun _ _ => Some ([], [])) (fun _ => Some 0%Z) (fun _ => true)
                         (fun _ => Some (mkUnlockJob None [])) (Some (mkKmipConfig false))
                         (fun _ _ => true) (fun _ _ => 0) in
  alarm initial_state = None /\
  mw_failover_config mw = Some ha_enabled /\
  mw_interfaces mw = Some [eth0] /\
  (cfg_disabled ha_enabled && negb (cfg_master ha_enabled))%bool = false /\
  (forall i, In i [eth0] -> failover_critical i = false -> str_in (id i) "eth0" = false) /\
  mw_remote_connected mw = Some true /\
  mw_remote_status mw = Some "MASTER" /\
  "BACKUP" <> "forcetakeover" /\
  let '(r, s') := event mw "eth0" "BACKUP" initial_state in
  r = Ret None /\
  calls s' = (calls initial_state ++ snapshot_queries ++ remote_calls)%list /\
  failover_successful s' = failover_successful initial_state /\
  job_result s' = job_result initial_state /\
  job_progress s' = job_progress initial_state.
Proof.
  split; [reflexivity|]. split; [reflexivity|]. split; [reflexivity|].
  split; [reflexivity|].
  split; [intros i [<-|[]] H; discriminate H|].
  split; [reflexivity|]. split; [reflexivity|]. split; [discriminate|].
  apply (event_remote_master
           (mkMiddleware (Some [tank "OFFLINE"])
                         (find_pool [tank "OFFLINE"]) (Some [])
                         (Some ha_enabled) (Some [eth0]) (Some [])
                         (Some true) (Some "MASTER") (Some [])
                         (fun _ _ => Some ([], [])) (fun _ => Some 0%Z) (fun _ => true)
                         (fun _ => Some (mkUnlockJob None [])) (Some (mkKmipConfig false))
                         (fun _ _ => true) (fun _ _ => 0))
           "eth0" "BACKUP" initial_state ha_enabled [eth0]);
    [ reflexivity | reflexivity | reflexivity | reflexivity
    | intros i [<-|[]] H; discriminate H | reflexivity | reflexivity | discriminate ].
Defined.

(** ** Files *)

Lemma fs_lookup_remove_other :
  forall p q l, String.eqb p q = false -> fs_lookup p (fs_remove q l) = fs_lookup p l.
Proof.
  intros p q l H. induction l as [|[r t] l IH]; simpl; [reflexivity|].
  destruct (String.eqb q r) eqn:E.
  - apply String.eqb_eq in E. subst r. rewrite H. exact IH.
  - simpl. rewrite IH. reflexivity.
Qed.

Lemma fs_lookup_put :
  forall p q t l,
    fs_lookup p (fs_put q t l) = if String.eqb p q then Some t else fs_lookup p l.
Proof.
  intros p q t l. unfold fs_put. simpl.
  destruct (String.eqb p q) eqn:E; [reflexivity|].
  apply fs_lookup_remove_other. exact E.
Qed.

Lemma files_kept_ret : forall s, files_kept s None s.
Proof. intros s p _. reflexivity. Qed.

Lemma files_kept_seq :
  forall s x1 s1 x2 s2,
    files_kept s x1 s1 -> files_kept s1 x2 s2 -> files_kept s x2 s2.
Proof.
  unfold files_kept. intros s x1 s1 x2 s2 H1 H2 p Hp.
  rewrite (H2 p Hp). apply H1. exact Hp.
Qed.

Lemma files_kept_catch :
  forall s (x : option Exn) s', files_kept s x s' -> files_kept s None s'.
Proof. unfold files_kept. auto. Qed.

Lemma raise_files_kept :
  forall (A : Type) e, holds files_kept (@raise A e).
Proof. intros A e s x Hx. unfold raise. destruct e; destruct s; reflexivity. Qed.

Lemma remove_files_kept :
  forall q,
    str_mem q transition_files = true ->
    holds files_kept (modify (fun s => set_fs (fs_remove q (fs s)) s)).
Proof.
  intros q Hq s x Hx. unfold modify. destruct s; simpl.
  apply fs_lookup_remove_other.
  destruct (String.eqb x q) eqn:E; [|reflexivity].
  apply String.eqb_eq in E. subst x. congruence.
Qed.

Lemma unlink_files_kept :
  forall q, str_mem q transition_files = true -> holds files_kept (os_unlink q).
Proof.
  intros q Hq. unfold os_unlink, os_path_exists, refuses.
  apply holds_bind;
    [exact files_kept_seq | apply holds_get, files_kept_ret | intros []];
    [|apply raise_files_kept].
  apply holds_bind;
    [exact files_kept_seq | apply holds_get, files_kept_ret | intros []];
    [apply raise_files_kept | exact (remove_files_kept q Hq)].
Qed.

Lemma put_files_kept :
  forall q (f : State -> nat),
    str_mem q transition_files = true ->
    holds files_kept (modify (fun s => set_fs (fs_put q (f s) (fs s)) s)).
Proof.
  intros q f Hq s x Hx. unfold modify. destruct s; simpl.
  destruct (String.eqb x q) eqn:E.
  - apply String.eqb_eq in E. subst x. congruence.
  - apply fs_lookup_remove_other. exact E.
Qed.

Lemma open_w_files_kept :
  forall q, str_mem q transition_files = true -> holds files_kept (open_w q).
Proof.
  intros q Hq. unfold open_w, refuses.
  apply holds_bind;
    [exact files_kept_seq | apply holds_get, files_kept_ret | intros []];
    [apply raise_files_kept | exact (put_files_kept q clock Hq)].
Qed.

Lemma copy2_files_kept :
  forall p q, str_mem q transition_files = true -> holds files_kept (shutil_copy2 p q).
Proof.
  intros p q Hq. unfold shutil_copy2.
  apply holds_bind; [exact files_kept_seq | |].
  - intros s. unfold os_stat_mtime. destruct (fs_lookup p (fs s)); apply files_kept_ret.
  - intros t. unfold refuses.
    apply holds_bind;
      [exact files_kept_seq | apply holds_get, files_kept_ret | intros []];
      [apply raise_files_kept | exact (put_files_kept q (fun _ => t) Hq)].
Qed.

Ltac files_kept_tac :=
  repeat first
    [ apply unlink_files_kept; reflexivity
    | apply open_w_files_kept; reflexivity
    | apply copy2_files_kept; reflexivity
    | holds_step files_kept_ret files_kept_seq files_kept_catch ];
  try (holds_prim; intros ? ?; reflexivity).

Lemma master_kill_cache_files_kept : holds files_kept master_kill_cache.
Proof.
  unfold master_kill_cache.
  apply holds_bind; [exact files_kept_seq | files_kept_tac | intros []].
  - cbn [for_each]. files_kept_tac.
  - files_kept_tac.
Qed.
#[export] Hint Resolve master_kill_cache_files_kept : failover_holds.

Lemma master_import_files_kept :
  forall mw vols failed, holds files_kept (master_import mw vols failed).
Proof.
  intros mw vols. induction vols as [|v vols IH]; intros failed; simpl;
    files_kept_tac; apply IH.
Qed.
#[export] Hint Resolve master_import_files_kept : failover_holds.

Lemma needs_import_files_kept :
  forall mw vols, holds files_kept (needs_import mw vols).
Proof.
  intros mw vols. induction vols as [|v vols IH]; simpl; files_kept_tac.
Qed.
#[export] Hint Resolve needs_import_files_kept : failover_holds.

Lemma validate_files_kept :
  forall mw ifname ev, holds files_kept (validate mw ifname ev).
Proof. intros mw ifname ev s. rewrite validate_raises. apply files_kept_ret. Qed.
#[export] Hint Resolve validate_files_kept : failover_holds.

Lemma vrrp_master_files_kept :
  forall mw fobj ifname ev ff ft,
    holds files_kept (vrrp_master mw fobj ifname ev ff ft).
Proof. intros. files_kept_tac. Qed.

Lemma vrrp_backup_files_kept :
  forall mw fobj ifname ev ff,
    holds files_kept (vrrp_backup mw fobj ifname ev ff).
Proof. intros. files_kept_tac. Qed.

#[export] Hint Resolve vrrp_master_files_kept vrrp_backup_files_kept : failover_holds.

Lemma _event_files_kept :
  forall mw ifname ev, holds files_kept (_event mw ifname ev).
Proof. intros mw ifname ev. unfold _event. files_kept_tac. Qed.

(** X22.  The two transitions, and the handling of an event as a whole,
    leave every file alone but the kill-cache marker, the pool cache, its
    saved copy and the marker of the watchdog, on every input and whatever
    is raised. *)
Theorem transitions_touch_own_files :
  forall mw fobj ifname ev ff ft,
    holds files_kept (vrrp_master mw fobj ifname ev ff ft) /\
    holds files_kept (vrrp_backup mw fobj ifname ev ff) /\
    holds files_kept (event mw ifname ev).
Proof.
  intros mw fobj ifname ev ff ft.
  split; [apply vrrp_master_files_kept|]. split; [apply vrrp_backup_files_kept|].
  intros s. rewrite event_spec.
  pose proof (_event_files_kept mw ifname ev s) as H.
  assert (Hr : holds files_kept (run_call_ mw "failover.status_refresh" []))
    by files_kept_tac.
  destruct (_event mw ifname ev s) as [[v|e] s1]; simpl in H.
  - specialize (Hr s1). simpl. eapply files_kept_seq; [exact H | exact Hr].
  - specialize (Hr s1).
    destruct e; simpl;
      first [ exact H | eapply files_kept_seq; [exact H | exact Hr] ].
Qed.

Lemma fs_set_fs : forall l s, fs (set_fs l s) = l.
Proof. intros l s. reflexivity. Qed.

Lemma suppress_unlink_lookup :
  forall p s,
    exists s',
      suppress (os_unlink p) s = (Ret tt, s') /\
      refused s' = refused s /\
      clock s' = clock s /\
      (forall q, fs_lookup q (fs s') =
                 if String.eqb q p && negb (refused s (OpUnlink p))
                 then None else fs_lookup q (fs s)).
Proof.
  intros p s.
  unfold suppress, try_except, os_unlink, os_path_exists, refuses, bind, get,
         modify, raise, ret, fs_exists.
  destruct (fs_lookup p (fs s)) eqn:E; [destruct (refused s (OpUnlink p))|];
    cbn [is_ignore]; eexists; (split; [reflexivity|]);
    (split; [destruct s; reflexivity|]); (split; [destruct s; reflexivity|]);
    intros q; rewrite ?fs_set_fs.
  - rewrite andb_false_r. reflexivity.
  - rewrite andb_true_r. destruct (String.eqb q p) eqn:Eq.
    + apply String.eqb_eq in Eq. subst q. apply fs_lookup_remove.
    + apply fs_lookup_remove_other, Eq.
  - destruct (String.eqb q p) eqn:Eq; [|reflexivity].
    apply String.eqb_eq in Eq. subst q. rewrite E.
    destruct (negb (refused s (OpUnlink p))); reflexivity.
Qed.

Lemma suppress_open_w_lookup :
  forall p s,
    exists s',
      suppress (open_w p) s = (Ret tt, s') /\
      (forall q, fs_lookup q (fs s') =
                 if String.eqb q p && negb (refused s (OpOpenW p))
                 then Some (clock s) else fs_lookup q (fs s)).
Proof.
  intros p s.
  unfold suppress, try_except, open_w, refuses, bind, get, modify, raise, ret.
  destruct (refused s (OpOpenW p)); cbn [is_ignore]; eexists;
    (split; [reflexivity|]); intros q.
  - rewrite andb_false_r. reflexivity.
  - rewrite andb_true_r, fs_set_fs, fs_lookup_put. reflexivity.
Qed.

(** X23.  The kill-cache block of a MASTER transition never raises.  When
    the marker is there, each of the pool cache and its saved copy is gone
    afterwards unless the operating system refuses to remove it, in which
    case it stays as it was; when the marker is not there, it is created
    unless the operating system refuses.  No other file changes. *)
Theorem master_kill_cache_marker :
  forall s,
    let '(r, s') := master_kill_cache s in
    r = Ret tt /\
    if fs_exists zpool_killcache s
    then forall q,
        fs_lookup q (fs s') =
        if (String.eqb q zpool_cache_file
            && negb (refused s (OpUnlink zpool_cache_file)))
           || (String.eqb q zpool_cache_file_saved
               && negb (refused s (OpUnlink zpool_cache_file_saved)))
        then None else fs_lookup q (fs s)
    else forall q,
        fs_lookup q (fs s') =
        if String.eqb q zpool_killcache && negb (refused s (OpOpenW zpool_killcache))
        then Some (clock s) else fs_lookup q (fs s).
Proof.
  intros s. unfold master_kill_cache, os_path_exists. unfold bind at 1, get at 1.
  destruct (fs_exists zpool_killcache s) eqn:Ek.
  - cbn [for_each]. unfold bind at 1.
    destruct (suppress_unlink_lookup zpool_cache_file s) as (s1 & E1 & R1 & K1 & L1).
    rewrite E1. unfold bind at 1.
    destruct (suppress_unlink_lookup zpool_cache_file_saved s1)
      as (s2 & E2 & R2 & K2 & L2).
    rewrite E2. unfold ret. split; [reflexivity|].
    intros q. rewrite L2, L1, R1.
    destruct (String.eqb q zpool_cache_file
              && negb (refused s (OpUnlink zpool_cache_file)))%bool;
      destruct (String.eqb q zpool_cache_file_saved
                && negb (refused s (OpUnlink zpool_cache_file_saved)))%bool;
      reflexivity.
  - destruct (suppress_open_w_lookup zpool_killcache s) as (s1 & E1 & L1).
    rewrite E1. split; [reflexivity | exact L1].
Qed.

Lemma saved_cache_generic :
  forall saved cache s,
    exists s',
      (saved_ <- os_path_exists saved ;;
       cache_ <- os_path_exists cache ;;
       when (saved_ && cache_)
            (zpool_cache_mtime <- os_stat_mtime cache ;;
             zpool_cache_saved_mtime <- os_stat_mtime saved ;;
             when (Nat.ltb zpool_cache_saved_mtime zpool_cache_mtime)
                  (suppress (shutil_copy2 cache saved)))) s = (Ret tt, s') /\
      (forall q,
          fs_lookup q (fs s') =
          if String.eqb q saved then
            match fs_lookup saved (fs s), fs_lookup cache (fs s) with
            | Some ts, Some tc =>
                if refused s (OpCopy cache saved) then Some ts
                else Some (Nat.max ts tc)
            | o, _ => o
            end
          else fs_lookup q (fs s)).
Proof.
  intros p q s.
  assert (Hsame : forall r o,
             fs_lookup p (fs s) = o ->
             fs_lookup r (fs s) = if String.eqb r p then o else fs_lookup r (fs s)).
  { intros r o Ho. destruct (String.eqb r p) eqn:Er; [|reflexivity].
    apply String.eqb_eq in Er. subst r. exact Ho. }
  unfold bind, os_path_exists, get, fs_exists.
  destruct (fs_lookup p (fs s)) as [t1|] eqn:E1;
    destruct (fs_lookup q (fs s)) as [t2|] eqn:E2; simpl;
    try (exists s; split; [reflexivity | intros r; apply Hsame; reflexivity]).
  unfold os_stat_mtime. cbv beta. rewrite E2. cbv beta iota. rewrite E1.
  destruct (Nat.ltb_spec t1 t2) as [Hlt|Hge]; simpl.
  - unfold suppress, try_except, shutil_copy2, refuses, bind, os_stat_mtime,
           get, modify, raise, ret.
    rewrite E2. destruct (refused s (OpCopy q p)); cbn [is_ignore].
    + exists s. split; [reflexivity | intros r; apply Hsame; reflexivity].
    + eexists. split; [reflexivity|]. intros r.
      rewrite fs_set_fs, fs_lookup_put.
      destruct (String.eqb r p); [f_equal; lia | reflexivity].
  - exists s. split; [reflexivity|]. intros r.
    destruct (String.eqb r p) eqn:Er; [|reflexivity].
    apply String.eqb_eq in Er. subst r. rewrite E1.
    destruct (refused s (OpCopy q p)); f_equal; lia.
Qed.

(** X24.  The saved-cache block of a MASTER transition never raises,
    changes no file but the saved copy of the pool cache, and creates
    none.  A saved copy that exists beside a pool cache ends with the newer
    of the two modification times unless the operating system refuses the
    copy, in which case it stays as it was; so where the copy is not
    refused, the saved copy is afterwards never older than the cache. *)
Theorem master_saved_cache_fresh :
  forall s,
    let '(r, s') := master_saved_cache s in
    r = Ret tt /\
    (forall q,
        fs_lookup q (fs s') =
        if String.eqb q zpool_cache_file_saved then
          match fs_lookup zpool_cache_file_saved (fs s),
                fs_lookup zpool_cache_file (fs s) with
          | Some ts, Some tc =>
              if refused s (OpCopy zpool_cache_file zpool_cache_file_saved)
              then Some ts else Some (Nat.max ts tc)
          | o, _ => o
          end
        else fs_lookup q (fs s)) /\
    if refused s (OpCopy zpool_cache_file zpool_cache_file_saved) then True
    else match fs_lookup zpool_cache_file_saved (fs s'),
               fs_lookup zpool_cache_file (fs s') with
         | Some ts, Some tc => tc <= ts
         | _, _ => True
         end.
Proof.
  intros s. unfold master_saved_cache.
  destruct (saved_cache_generic zpool_cache_file_saved zpool_cache_file s)
    as (s' & E & L).
  rewrite E. split; [reflexivity|]. split; [exact L|].
  rewrite (L zpool_cache_file_saved), (L zpool_cache_file).
  cbn [String.eqb Ascii.eqb Bool.eqb].
  change (String.eqb zpool_cache_file_saved zpool_cache_file_saved) with true.
  change (String.eqb zpool_cache_file zpool_cache_file_saved) with false.
  cbv iota.
  destruct (refused s (OpCopy zpool_cache_file zpool_cache_file_saved));
    [exact I|].
  destruct (fs_lookup zpool_cache_file_saved (fs s)) as [ts|];
    destruct (fs_lookup zpool_cache_file (fs s)) as [tc|]; try exact I.
  apply Nat.le_max_r.
Qed.

(** ** A BACKUP transition off the main thread *)

Lemma run_call__no_alarm :
  forall mw m a s,
    alarm s = None ->
    run_call_ mw m a s =
    (Ret tt,
     set_clock (clock s + mw_duration mw m a)
               (set_calls (calls s ++ [mkCall m a]) s)).
Proof.
  intros mw m a s H. unfold run_call_, bind.
  rewrite (run_call_no_alarm mw unit m a _ s H). reflexivity.
Qed.

(** X25.  A BACKUP transition that does not run on the main thread, with
    no conflict in the failover group and no alarm pending, ends with
    ValueError where it sets the handler of the alarm: it has made the
    check of the group, stopped fenced and restarted keepalived, and
    nothing else; no alarm is set and no pool is exported; the marker of
    the watchdog has been created, unless the operating system refused,
    and is left behind; the flag is as it was. *)
Theorem vrrp_backup_off_main_thread :
  forall mw fobj ifname ev ff s waiting,
    alarm s = None ->
    main_thread s = false ->
    mw_check_failover_group mw ifname (fo_groups fobj) = Some ([], waiting) ->
    let '(r, s') := vrrp_backup mw fobj ifname ev ff s in
    r = Raise ValueError /\
    failover_successful s' = failover_successful s /\
    calls s' = (calls s ++ [check_group_call ifname;
                            fenced_stop_call;
                            mkCall "service.restart" ["keepalived"]])%list /\
    alarm s' = None /\
    kernel_writes s' = kernel_writes s /\
    forall q,
      fs_lookup q (fs s') =
      if String.eqb q watchdog_alert_file
         && negb (refused s (OpOpenW watchdog_alert_file))
      then Some (clock s') else fs_lookup q (fs s).
Proof.
  intros mw fobj ifname ev ff s waiting Ha Hm Hg.
  destruct s as [fl cl jp jr fls kw pb clk al ig mt rf].
  cbn [alarm main_thread] in Ha, Hm. subst al mt.
  unfold vrrp_backup. unfold bind at 1.
  rewrite run_call_no_alarm by reflexivity. rewrite Hg.
  unfold subscript_of at 1. rewrite bind_ret_l. cbn [fst is_nil negb].
  unfold bind at 1. rewrite run_call__no_alarm by reflexivity.
  unfold bind at 1. rewrite run_call__no_alarm by reflexivity.
  unfold bind at 1. rewrite backup_watchdog_marker_effect.
  unfold bind at 1. unfold backup_export. unfold bind at 1.
  unfold signal_signal, bind, get, raise.
  cbn [refused fs calls clock alarm main_thread kernel_writes failover_successful
       set_clock set_calls set_fs is_ignore].
  destruct (rf (OpOpenW watchdog_alert_file));
    cbn [refused fs calls clock alarm main_thread kernel_writes failover_successful
         set_clock set_calls set_fs is_ignore fst snd negb];
    (split; [reflexivity|]); (split; [reflexivity|]);
    (split; [rewrite <- !app_assoc; reflexivity|]);
    (split; [reflexivity|]); (split; [reflexivity|]); intros q.
  - rewrite andb_false_r. reflexivity.
  - rewrite andb_true_r, fs_lookup_put. reflexivity.
Qed.

Lemma vrrp_backup_off_main_thread_witness :
  let mw := healthy [tank "ONLINE"] [eth0] in
  let fobj := tank_snapshot "ONLINE" in
  let s := mkState false [] None None [] [] [] 0 None 0 false (fun _ => false) in
  alarm s = None /\
  main_thread s = false /\
  mw_check_failover_group mw "eth0" (fo_groups fobj) = Some ([], []) /\
  let '(r, s') := vrrp_backup mw fobj "eth0" "BACKUP" false s in
  r = Raise ValueError /\
  failover_successful s' = failover_successful s /\
  calls s' = (calls s ++ [check_group_call "eth0";
                          fenced_stop_call;
                          mkCall "service.restart" ["keepalived"]])%list /\
  alarm s' = None /\
  kernel_writes s' = kernel_writes s /\
  forall q,
    fs_lookup q (fs s') =
    if String.eqb q watchdog_alert_file
       && negb (refused s (OpOpenW watchdog_alert_file))
    then Some (clock s') else fs_lookup q (fs s).
Proof.
  split; [reflexivity|]. split; [reflexivity|]. split; [reflexivity|].
  apply (vrrp_backup_off_main_thread
           (healthy [tank "ONLINE"] [eth0]) (tank_snapshot "ONLINE")
           "eth0" "BACKUP" false
           (mkState false [] None None [] [] [] 0 None 0 false (fun _ => false)) []);
    reflexivity.
Defined.
